(** * JIGCOIN promo bot: the autoposting scheduler and eligibility engine

    A shallow embedding of [src/index.js] (the current revision of the bot)
    and, in [Module Legacy], of the earlier revision kept in
    [src/unnamed/part_000], followed by the properties of the engine.

    Conventions of the embedding:
    - a JavaScript string is the list of its UTF-16 code units ([jsstring]);
    - instants are integer milliseconds since the epoch ([Z]), as returned
      by [Date.now()] and [new Date(iso).getTime()];
    - integer columns of the store are [Z]; a column that may be [null] or
      [undefined] on the JavaScript side is an [option];
    - [Math.random()] is a draw [u] with [0 <= u < 1] handed to the function
      that consumes it.  The cycle takes the draw and the weights as exact
      rationals: what it does with the selected item depends only on the
      item being one of the list.  The selection itself is modelled a second
      time in [Module Binary64], on IEEE 754 binary64 numbers as JavaScript
      has them, and the properties of the selection are stated there;
    - an environment variable holding a number is [option Z]: [None] when the
      variable is unset or empty, [Some z] when it is the decimal integer [z];
      [Module Raw] models the gates for settings that are arbitrary texts,
      whose numeric reading may be [NaN]. *)

From Stdlib Require Import String Ascii.
From Stdlib Require Import ZArith NArith QArith Qround List Bool Lia Lqa.
From Stdlib Require Import Floats.
Import ListNotations.
Open Scope Z_scope.

(** ** JavaScript strings *)

Definition jsstring := list N.

Definition js (s : string) : jsstring :=
  map N_of_ascii (list_ascii_of_string s).

Definition code_eqb (a b : N) : bool := N.eqb a b.

(** [s.slice(0, n)] *)
Definition slice0 (n : nat) (s : jsstring) : jsstring := firstn n s.
Arguments slice0 : simpl never.

(** [s.slice(-n)] for [n > 0] *)
Definition slice_last (n : nat) (s : jsstring) : jsstring :=
  skipn (length s - n) s.

(** [\d] of a JavaScript regular expression. *)
Definition is_digit (c : N) : bool := ((48 <=? c) && (c <=? 57))%N.

(** [\s] of a JavaScript regular expression: the white space and line
    terminator code points of ECMAScript. *)
Definition is_space (c : N) : bool :=
  (((9 <=? c) && (c <=? 13)) || (c =? 32) || (c =? 160) || (c =? 5760)
   || ((8192 <=? c) && (c <=? 8202)) || (c =? 8232) || (c =? 8233)
   || (c =? 8239) || (c =? 8287) || (c =? 12288) || (c =? 65279))%N.

Definition is_upper (c : N) : bool := ((65 <=? c) && (c <=? 90))%N.
Definition is_lower (c : N) : bool := ((97 <=? c) && (c <=? 122))%N.
Definition is_alnum (c : N) : bool := is_digit c || is_upper c || is_lower c.

(** [Number(s)] for a string of decimal digits. *)
Definition digits_value (s : jsstring) : Z :=
  fold_left (fun acc c => 10 * acc + (Z.of_N c - 48)) s 0.

(** [\s*] consumes every leading white-space unit. *)
Fixpoint skip_spaces (s : jsstring) : jsstring :=
  match s with
  | c :: r => if is_space c then skip_spaces r else s
  | [] => []
  end.

(** [(\d{1,2})], greedy: the captured group and the rest of the input. *)
Definition take_digits12 (s : jsstring) : option (jsstring * jsstring) :=
  match s with
  | a :: b :: r =>
      if is_digit a
      then if is_digit b then Some ([a; b], r) else Some ([a], b :: r)
      else None
  | [a] => if is_digit a then Some ([a], []) else None
  | [] => None
  end.

(** [/^(\d{1,2})\s*-\s*(\d{1,2})$/]: the two captured groups.  The classes
    [\d], [\s] and [-] are pairwise disjoint, so the greedy match is the only
    one the backtracking matcher can find. *)
Definition match_quiet_hours (s : jsstring) : option (jsstring * jsstring) :=
  match take_digits12 s with
  | None => None
  | Some (g1, r1) =>
      match skip_spaces r1 with
      | c :: r2 =>
          if code_eqb c 45
          then match take_digits12 (skip_spaces r2) with
               | Some (g2, []) => Some (g1, g2)
               | _ => None
               end
          else None
      | [] => None
      end
  end.

(** [new Date(t).getUTCHours()] *)
Definition getUTCHours (t : Z) : Z := (t / 3600000) mod 24.

(** ** Quiet hours ([src/index.js], [inQuietHours]) *)

(** [inQuietHours] with its two inputs made explicit: the configured string
    and the current UTC hour. *)
Definition inQuietHours (QUIET_HOURS : jsstring) (h : Z) : bool :=
  match QUIET_HOURS with
  | [] => false
  | _ =>
      match match_quiet_hours QUIET_HOURS with
      | None => false
      | Some (g1, g2) =>
          let start := digits_value g1 in
          let end_ := digits_value g2 in
          if start <=? end_
          then (start <=? h) && (h <? end_)
          else (start <=? h) || (h <? end_)
      end
  end.

(** ** Weighted selection ([src/index.js], [pickWeighted]) *)

(** The value found under [weightKey] in an item: absent ([undefined] or
    [null]), a number that is [NaN], or a finite number. *)
Inductive jsweight : Type :=
| WMissing
| WNaN
| WNum (q : Q).

(** [Math.max(0, Number(w ?? 1) || 0)] *)
Definition clamp_weight (w : jsweight) : Q :=
  match w with
  | WMissing => 1
  | WNaN => 0
  | WNum q => if Qle_bool 0 q then q else 0
  end.

(** [list.filter(Boolean)] on a list whose entries may be [null]. *)
Fixpoint filter_Boolean {A : Type} (items : list (option A)) : list A :=
  match items with
  | [] => []
  | Some it :: r => it :: filter_Boolean r
  | None :: r => filter_Boolean r
  end.

(** [weights.reduce((a, b) => a + b, 0)] *)
Definition sum_weights (ws : list Q) : Q := fold_left Qplus ws 0%Q.

(** The [for] loop of [pickWeighted]: subtract each weight from [r] and
    return the first item at which the remainder is [<= 0]; [None] when the
    loop runs off the end of the list. *)
Fixpoint walk_weights {A : Type} (lst : list A) (weights : list Q) (r : Q)
  : option A :=
  match lst, weights with
  | it :: lst', w :: weights' =>
      let r' := (r - w)%Q in
      if Qle_bool r' 0 then Some it else walk_weights lst' weights' r'
  | _, _ => None
  end.

(** [Math.floor(u * n)] as a list index. *)
Definition floor_index (u : Q) (n : nat) : nat :=
  Z.to_nat (Qfloor (u * inject_Z (Z.of_nat n))).

(** [pickWeighted(items, weightKey)]: [weight_of] reads the property
    [weightKey] of an item and [u] is the value [Math.random()] returns in
    the one call the function makes.  [None] is [null] or [undefined]. *)
Definition pickWeighted {A : Type} (weight_of : A -> jsweight)
    (items : list (option A)) (u : Q) : option A :=
  let lst := filter_Boolean items in
  match lst with
  | [] => None
  | _ =>
      let weights := map (fun it => clamp_weight (weight_of it)) lst in
      let total := sum_weights weights in
      if Qle_bool total 0 then nth_error lst (floor_index u (length lst))
      else
        match walk_weights lst weights (u * total) with
        | Some it => Some it
        | None => nth_error lst (length lst - 1)
        end
  end.

(** ** Weighted selection on binary64 numbers

    [pickWeighted] as JavaScript evaluates it: every number is an IEEE 754
    binary64 value, [+], [-] and [*] round to nearest, and a comparison with
    [NaN] is false. *)
Module Binary64.

(** The value found under [weightKey] in an item: absent ([undefined] or
    [null]), or a value given by its [Number()] reading, which may be [NaN]. *)
Inductive weight : Type :=
| Missing
| Num (x : float).

(** [Number(it[weightKey] ?? 1)] *)
Definition Number_or_1 (w : weight) : float :=
  match w with
  | Missing => 1%float
  | Num x => x
  end.

(** [x || 0]: the falsy numbers are [NaN], [0] and [-0]. *)
Definition or_0 (x : float) : float :=
  if is_nan x || is_zero x then 0%float else x.

(** [Math.max(a, b)]: [NaN] when an argument is [NaN]; [+0] is larger than
    [-0]. *)
Definition Math_max (a b : float) : float :=
  if is_nan a || is_nan b then nan
  else if (a <? b)%float then b
  else if (b <? a)%float then a
  else if get_sign a then b else a.

(** [Math.max(0, Number(w ?? 1) || 0)] *)
Definition clamp_weight (w : weight) : float :=
  Math_max 0 (or_0 (Number_or_1 w)).

(** [weights.reduce((a, b) => a + b, 0)] *)
Definition sum_weights (ws : list float) : float :=
  fold_left PrimFloat.add ws 0%float.

(** The [for] loop of [pickWeighted], started at index [i]: subtract each
    weight from [r] and return the first index at which the remainder is
    [<= 0]; [None] when the loop runs off the end of the list. *)
Fixpoint walk_weights (weights : list float) (r : float) (i : nat)
  : option nat :=
  match weights with
  | [] => None
  | w :: weights' =>
      let r' := (r - w)%float in
      if (r' <=? 0)%float then Some i else walk_weights weights' r' (S i)
  end.

(** [list.length] as a number. *)
Definition of_nat (n : nat) : float := of_uint63 (Uint63.of_Z (Z.of_nat n)).

(** The number an integer denotes: the nearest binary64 value. *)
Definition of_Z (z : Z) : float :=
  SF2Prim (binary_normalize prec emax z 0 false).

(** [Math.floor(x)] *)
Definition Math_floor (x : float) : float :=
  match Prim2SF x with
  | S754_finite s m e =>
      if (0 <=? e)%Z then x
      else of_Z (Z.shiftl (if s then Zneg m else Zpos m) e)
  | _ => x
  end.

(** [Math.floor(x)] as a list index: indexing with [NaN], an infinity or a
    negative number gives [undefined]. *)
Definition floor_index (x : float) : option nat :=
  match Prim2SF x with
  | S754_zero _ => Some 0%nat
  | S754_finite false m e => Some (Z.to_nat (Z.shiftl (Zpos m) e))
  | _ => None
  end.

(** [pickWeighted(items, weightKey)] with [u] the value of [Math.random()]
    in the one call the function makes. *)
Definition pickWeighted {A : Type} (weight_of : A -> weight)
    (items : list (option A)) (u : float) : option A :=
  let lst := filter_Boolean items in
  match lst with
  | [] => None
  | _ =>
      let weights := map (fun it => clamp_weight (weight_of it)) lst in
      let total := sum_weights weights in
      if (total <=? 0)%float
      then match floor_index (u * of_nat (length lst)) with
           | Some i => nth_error lst i
           | None => None
           end
      else
        match walk_weights weights (u * total) 0 with
        | Some i => nth_error lst i
        | None => nth_error lst (length lst - 1)
        end
  end.

End Binary64.

(** ** Numbers as strings, and [encodeURIComponent] *)

(** The character of a digit [d < 36], lower case as in [toString(36)]. *)
Definition digit_char (d : N) : N := (if d <? 10 then 48 + d else 87 + d)%N.

Fixpoint digits_fuel (fuel : nat) (base n : N) (acc : jsstring) : jsstring :=
  match fuel with
  | O => acc
  | S f =>
      let acc' := digit_char (n mod base) :: acc in
      if (n / base =? 0)%N then acc' else digits_fuel f base (n / base) acc'
  end.

(** [n.toString(base)] for a natural number; a number has no more digits
    than bits, which bounds the recursion. *)
Definition to_radix (base n : N) : jsstring :=
  digits_fuel (S (N.to_nat (N.size n))) base n [].

(** [String(z)] and [z.toString(36)] for an integer. *)
Definition Z_to_radix (base : N) (z : Z) : jsstring :=
  if z <? 0 then 45%N :: to_radix base (Z.abs_N z) else to_radix base (Z.to_N z).

Definition String_of_Z (z : Z) : jsstring := Z_to_radix 10 z.

(** The characters [encodeURIComponent] leaves alone:
    [A-Z a-z 0-9 - _ . ! ~ * ' ( )]. *)
Definition uri_unreserved (c : N) : bool :=
  (is_alnum c || (c =? 45) || (c =? 95) || (c =? 46) || (c =? 33)
   || (c =? 126) || (c =? 42) || (c =? 39) || (c =? 40) || (c =? 41))%N.

Definition hex_char (d : N) : N := (if d <? 10 then 48 + d else 55 + d)%N.

(** ["%XX"] for one byte. *)
Definition percent_byte (b : N) : jsstring :=
  [37%N; hex_char (b / 16); hex_char (b mod 16)].

(** The UTF-8 bytes of a code point. *)
Definition utf8 (cp : N) : list N :=
  (if cp <? 128 then [cp]
   else if cp <? 2048 then [192 + cp / 64; 128 + cp mod 64]
   else if cp <? 65536
        then [224 + cp / 4096; 128 + (cp / 64) mod 64; 128 + cp mod 64]
        else [240 + cp / 262144; 128 + (cp / 4096) mod 64;
              128 + (cp / 64) mod 64; 128 + cp mod 64])%N.

Definition percent_encode (cp : N) : jsstring := flat_map percent_byte (utf8 cp).

Definition is_high_surrogate (c : N) : bool := ((55296 <=? c) && (c <=? 56319))%N.
Definition is_low_surrogate (c : N) : bool := ((56320 <=? c) && (c <=? 57343))%N.

(** [encodeURIComponent(s)]; [None] when it throws [URIError] (a surrogate
    code unit that is not half of a pair). *)
Fixpoint encodeURIComponent (s : jsstring) : option jsstring :=
  match s with
  | [] => Some []
  | c :: rest =>
      if uri_unreserved c then option_map (cons c) (encodeURIComponent rest)
      else if is_low_surrogate c then None
      else if is_high_surrogate c then
        match rest with
        | d :: rest' =>
            if is_low_surrogate d
            then option_map
                   (app (percent_encode ((c - 55296) * 1024 + (d - 56320) + 65536)%N))
                   (encodeURIComponent rest')
            else None
        | [] => None
        end
      else option_map (app (percent_encode c)) (encodeURIComponent rest)
  end.

(** ** Deep links ([src/index.js], [buildDeepLink]) *)

(** The payload before encoding; both ids are given as strings, the images
    of [String(zoneId)] and [String(templateId)]. *)
Definition deepLinkPayload (zoneId templateId : jsstring) : jsstring :=
  js "pz_" ++ slice0 8 zoneId ++ js "_t_" ++ slice0 8 templateId.

(** The token appended to the base URL. *)
Definition deepLinkToken (zoneId templateId : jsstring) : option jsstring :=
  encodeURIComponent (deepLinkPayload zoneId templateId).

Definition linkBase (PROMO_LINK_BASE MAIN_BOT_USERNAME : jsstring) : jsstring :=
  match PROMO_LINK_BASE with
  | [] => js "https://t.me/" ++ MAIN_BOT_USERNAME ++ js "?start="
  | _ => PROMO_LINK_BASE
  end.

Definition buildDeepLink (PROMO_LINK_BASE MAIN_BOT_USERNAME : jsstring)
    (zoneId templateId : jsstring) : option jsstring :=
  option_map (app (linkBase PROMO_LINK_BASE MAIN_BOT_USERNAME))
             (deepLinkToken zoneId templateId).

(** ** The store: tables [promo_zones] and [promo_posts] *)

(** A row of [promo_zones] as [select('*')] returns it.  [last_posted_at] is
    the instant the timestamp denotes; [None] is [null]. *)
Module Zone.
Record t : Type := mk {
  id : Z;
  telegram_chat_id : Z;
  is_enabled : bool;
  min_gap_minutes : option Z;
  daily_cap : option Z;
  fail_count : option Z;
  last_error : option jsstring;
  last_posted_at : option Z
}.
End Zone.

(** A template as [fetchEnabledTemplates] returns it; the body, which only
    [renderTemplate] reads, is left out. *)
Module Template.
Record t : Type := mk {
  id : jsstring;
  weight : jsweight;
  _message_id : option Z
}.
End Template.

Inductive post_status : Type := success | failed.

Definition post_status_eqb (a b : post_status) : bool :=
  match a, b with
  | success, success | failed, failed => true
  | _, _ => false
  end.

(** A row of [promo_posts].  The columns [zone_id], [zone_chat_id],
    [posted_at] and [sent_at] of the full payload repeat [promo_zone_id],
    [telegram_chat_id] and [created_at] and are left out. *)
Module Post.
Record t : Type := mk {
  promo_zone_id : Z;
  telegram_chat_id : option Z;
  template_id : jsstring;
  message_id : option Z;
  deep_link : option jsstring;
  telegram_message_id : option Z;
  status : post_status;
  error : option jsstring;
  created_at : Z
}.
End Post.

(** The process state a cycle reads and writes: the two tables and the
    module variable [lastGlobalPostAt]. *)
Record state : Type := mkState {
  promo_zones : list Zone.t;
  promo_posts : list Post.t;
  lastGlobalPostAt : Z
}.

(** ** Configuration *)

(** The numeric environment variables as they are set, and the three string
    constants the module derives at start-up ([QUIET_HOURS] already trimmed). *)
Record environment : Type := mkEnv {
  env_GLOBAL_MIN_GAP_SECONDS : option Z;
  env_DEFAULT_MIN_GAP_MINUTES : option Z;
  env_DEFAULT_DAILY_CAP : option Z;
  env_AUTO_DISABLE_AFTER : option Z;
  QUIET_HOURS : jsstring;
  PROMO_LINK_BASE : jsstring;
  MAIN_BOT_USERNAME : jsstring
}.

(** [Number(process.env.X || d)]: an environment variable is a string, so
    ["0"] is truthy and yields 0; only an unset or empty variable yields [d]. *)
Definition Number_env (v : option Z) (d : Z) : Z :=
  match v with
  | Some z => z
  | None => d
  end.

(** [Number(x || d)] for a numeric column [x]: [null], [undefined] and 0 are
    falsy and yield [d]. *)
Definition Number_or (x : option Z) (d : Z) : Z :=
  match x with
  | Some 0 | None => d
  | Some z => z
  end.

Definition GLOBAL_MIN_GAP_SECONDS (e : environment) : Z :=
  Z.max 10 (Number_env (env_GLOBAL_MIN_GAP_SECONDS e) 60).

Definition DEFAULT_MIN_GAP_MINUTES (e : environment) : Z :=
  Z.max 1 (Number_env (env_DEFAULT_MIN_GAP_MINUTES e) 360).

Definition DEFAULT_DAILY_CAP (e : environment) : Z :=
  Z.max 1 (Number_env (env_DEFAULT_DAILY_CAP e) 3).

(** [Math.max(0, Number(process.env.AUTO_DISABLE_AFTER || 0))] *)
Definition autoDisableAfter (e : environment) : Z :=
  Z.max 0 (Number_env (env_AUTO_DISABLE_AFTER e) 0).

(** [minGap] and [dailyCap] of [postToZone]. *)
Definition minGap (e : environment) (zone : Zone.t) : Z :=
  Z.max 1 (Number_or (Zone.min_gap_minutes zone) (DEFAULT_MIN_GAP_MINUTES e)).

Definition dailyCap (e : environment) (zone : Zone.t) : Z :=
  Z.max 1 (Number_or (Zone.daily_cap zone) (DEFAULT_DAILY_CAP e)).

(** ** What a cycle receives from outside

    One record per cycle: the clock readings in the order the cycle makes
    them, the outcome of each call that leaves the process, and the random
    draws. *)

(** [sendMessage] resolves with a message, or rejects; [msg] is the text the
    [catch] block extracts,
    [err?.response?.description || err?.message || String(err)]. *)
Inductive send_outcome : Type :=
| Sent (message_id : option Z)
| Rejected (msg : jsstring).

Record world : Type := mkWorld {
  (* [new Date()] read by [inQuietHours] *)
  t_quiet : Z;
  (* the query of [fetchZones] reports an error *)
  fetch_zones_error : bool;
  (* which of the fetched rows the random sort puts first *)
  shuffle_first : nat;
  (* [Date.now()] read by [postToZone] *)
  t_now : Z;
  (* [new Date()] read by [countTodaySuccessPosts] *)
  t_count : Z;
  (* the query of [countTodaySuccessPosts] reports an error *)
  count_error : bool;
  (* the list [fetchEnabledTemplates()] resolves to; it never throws *)
  templates : list Template.t;
  (* [Math.random()] in [pickWeighted] *)
  random : Q;
  (* how [bot.telegram.sendMessage] settles *)
  send_result : send_outcome;
  (* [isoNow()] read by [logPostAttempt] *)
  t_log : Z;
  (* the store accepts the insert of the full payload *)
  log_insert_ok : bool;
  (* the store accepts the insert of the minimal payload *)
  log_fallback_ok : bool;
  (* [isoNow()] read by [updateZonePosted] *)
  t_posted : Z;
  (* the query of [incrementFailCount] reports an error *)
  fail_count_error : bool
}.

(** ** What a cycle does outside the store *)

Inductive console_line : Type :=
| POSTED (zone chat : Z) (template : jsstring)
| FAILED (zone chat : Z) (msg : jsstring)
| AUTO_DISABLED (zone fail : Z)
| LOG_INSERT_ERROR
| LOG_INSERT_ERROR_2
| CYCLE_ERROR.

(** [EvSend zone now deepLink delivered]: the call
    [sendMessage(zone.telegram_chat_id, text, ...)] made by [postToZone(zone)],
    with the value [now] of that call of [postToZone], the link of the button,
    and whether the platform accepted the message.  The text, which
    [renderTemplate] builds from the template body and the link, is not
    recorded.  [EvInsert row inserted]: an insert into [promo_posts] and the
    store's answer. *)
Inductive event : Type :=
| EvSend (zone : Zone.t) (now : Z) (deepLink : jsstring) (delivered : bool)
| EvInsert (row : Post.t) (inserted : bool)
| EvConsole (line : console_line).

Definition is_send (ev : event) : bool :=
  match ev with
  | EvSend _ _ _ _ => true
  | _ => false
  end.

Definition is_insert (ev : event) : bool :=
  match ev with
  | EvInsert _ _ => true
  | _ => false
  end.

Inductive completion : Type := Returned | Threw.

(** ** Store operations *)

Definition set_posted (t : Z) (z : Zone.t) : Zone.t :=
  Zone.mk (Zone.id z) (Zone.telegram_chat_id z) (Zone.is_enabled z)
          (Zone.min_gap_minutes z) (Zone.daily_cap z) (Zone.fail_count z)
          None (Some t).

Definition set_last_error (msg : jsstring) (z : Zone.t) : Zone.t :=
  Zone.mk (Zone.id z) (Zone.telegram_chat_id z) (Zone.is_enabled z)
          (Zone.min_gap_minutes z) (Zone.daily_cap z) (Zone.fail_count z)
          (Some msg) (Zone.last_posted_at z).

Definition set_fail_count (n : Z) (z : Zone.t) : Zone.t :=
  Zone.mk (Zone.id z) (Zone.telegram_chat_id z) (Zone.is_enabled z)
          (Zone.min_gap_minutes z) (Zone.daily_cap z) (Some n)
          (Zone.last_error z) (Zone.last_posted_at z).

Definition set_disabled (z : Zone.t) : Zone.t :=
  Zone.mk (Zone.id z) (Zone.telegram_chat_id z) false
          (Zone.min_gap_minutes z) (Zone.daily_cap z) (Zone.fail_count z)
          (Zone.last_error z) (Zone.last_posted_at z).

(** [supabase.from('promo_zones').update(...).eq('id', zoneId)] *)
Definition update_zones (zoneId : Z) (f : Zone.t -> Zone.t) (st : state) : state :=
  mkState (map (fun z => if Zone.id z =? zoneId then f z else z) (promo_zones st))
          (promo_posts st) (lastGlobalPostAt st).

Definition insert_post (row : Post.t) (st : state) : state :=
  mkState (promo_zones st) (promo_posts st ++ [row]) (lastGlobalPostAt st).

Definition set_lastGlobalPostAt (t : Z) (st : state) : state :=
  mkState (promo_zones st) (promo_posts st) t.

(** [fetchZones]: the rows with [is_enabled = true]; [None] when the query
    reports an error and the function throws. *)
Definition fetchZones (w : world) (st : state) : option (list Zone.t) :=
  if fetch_zones_error w then None
  else Some (filter Zone.is_enabled (promo_zones st)).

(** Midnight UTC of the day of [t]: [setUTCHours(0, 0, 0, 0)]. *)
Definition startUtc (t : Z) : Z := t - t mod 86400000.

Definition counts_today (chatId : Z) (start : Z) (p : Post.t) : bool :=
  match Post.telegram_chat_id p with
  | Some c => (c =? chatId) && post_status_eqb (Post.status p) success
              && (start <=? Post.created_at p)
  | None => false
  end.

(** [countTodaySuccessPosts(chatId)]; [None] when it throws. *)
Definition countTodaySuccessPosts (w : world) (st : state) (chatId : Z) : option Z :=
  if count_error w then None
  else Some (Z.of_nat (length (filter (counts_today chatId (startUtc (t_count w)))
                                      (promo_posts st)))).

(** [updateZonePosted(zoneId)] *)
Definition updateZonePosted (w : world) (zoneId : Z) (st : state) : state :=
  update_zones zoneId (set_posted (t_posted w)) st.

(** [incrementFailCount(zoneId)]: the query reports an error when it fails
    and, with [.single()], unless exactly one row has the id; on an error
    nothing is written. *)
Definition incrementFailCount (w : world) (zoneId : Z) (st : state) : state :=
  if fail_count_error w then st
  else
    match filter (fun z => Zone.id z =? zoneId) (promo_zones st) with
    | [data] =>
        let next := Number_or (Zone.fail_count data) 0 + 1 in
        update_zones zoneId (set_fail_count next) st
    | _ => st
    end.

(** [error ? String(error).slice(0, 800) : null] *)
Definition error_column (error : option jsstring) : option jsstring :=
  match error with
  | Some (c :: r) => Some (slice0 800 (c :: r))
  | _ => None
  end.

(** [logPostAttempt]: one insert of the full payload and, if the store
    refuses it, one insert of the minimal payload. *)
Definition logPostAttempt (w : world) (st : state)
    (zoneId chatId : Z) (templateId : jsstring) (messageId : option Z)
    (deepLink : jsstring) (telegramMessageId : option Z)
    (status : post_status) (error : option jsstring) : state * list event :=
  let now := t_log w in
  let payload :=
    Post.mk zoneId (Some chatId) templateId messageId (Some deepLink)
            telegramMessageId status (error_column error) now in
  if log_insert_ok w then (insert_post payload st, [EvInsert payload true])
  else
    let minimal :=
      Post.mk zoneId None templateId None None None status
              (error_column error) now in
    if log_fallback_ok w
    then (insert_post minimal st,
          [EvInsert payload false; EvConsole LOG_INSERT_ERROR;
           EvInsert minimal true])
    else (st,
          [EvInsert payload false; EvConsole LOG_INSERT_ERROR;
           EvInsert minimal false; EvConsole LOG_INSERT_ERROR_2]).

(** ** The cycle ([postToZone], [promoCycle]) *)

(** The per-zone cooldown test of [postToZone]. *)
Definition in_cooldown (e : environment) (zone : Zone.t) (now : Z) : bool :=
  match Zone.last_posted_at zone with
  | Some last => now - last <? minGap e zone * 60 * 1000
  | None => false
  end.

(** The [try] branch of [postToZone] after [sendMessage] resolved. *)
Definition on_sent (w : world) (st : state) (zone : Zone.t)
    (tpl : Template.t) (deepLink : jsstring) (sent : option Z)
  : state * list event :=
  let '(st1, tr) :=
    logPostAttempt w st (Zone.id zone) (Zone.telegram_chat_id zone)
      (Template.id tpl) (Template._message_id tpl) deepLink sent success None in
  let st2 := updateZonePosted w (Zone.id zone) st1 in
  let st3 := set_lastGlobalPostAt (t_now w) st2 in
  (st3, tr ++ [EvConsole (POSTED (Zone.id zone) (Zone.telegram_chat_id zone)
                                 (Template.id tpl))]).

(** The [catch] branch of [postToZone]. *)
Definition on_rejected (e : environment) (w : world) (st : state)
    (zone : Zone.t) (tpl : Template.t) (deepLink : jsstring) (msg : jsstring)
  : state * list event :=
  let '(st1, tr) :=
    logPostAttempt w st (Zone.id zone) (Zone.telegram_chat_id zone)
      (Template.id tpl) (Template._message_id tpl) deepLink None failed
      (Some msg) in
  let st2 := update_zones (Zone.id zone) (set_last_error (slice0 500 msg)) st1 in
  let st3 := incrementFailCount w (Zone.id zone) st2 in
  let fail := Number_or (Zone.fail_count zone) 0 + 1 in
  let head := EvConsole (FAILED (Zone.id zone) (Zone.telegram_chat_id zone) msg) in
  if (0 <? autoDisableAfter e) && (autoDisableAfter e <=? fail)
  then (update_zones (Zone.id zone) set_disabled st3,
        head :: tr ++ [EvConsole (AUTO_DISABLED (Zone.id zone) fail)])
  else (st3, head :: tr).

Definition postToZone (e : environment) (w : world) (st : state)
    (zone : Zone.t) : state * list event * completion :=
  let chatId := Zone.telegram_chat_id zone in
  let now := t_now w in
  if now - lastGlobalPostAt st <? GLOBAL_MIN_GAP_SECONDS e * 1000
  then (st, [], Returned)
  else if in_cooldown e zone now then (st, [], Returned)
  else
    match countTodaySuccessPosts w st chatId with
    | None => (st, [], Threw)
    | Some todayCount =>
        if dailyCap e zone <=? todayCount then (st, [], Returned)
        else
          match pickWeighted Template.weight (map Some (templates w)) (random w) with
          | None => (st, [], Returned)
          | Some tpl =>
              match buildDeepLink (PROMO_LINK_BASE e) (MAIN_BOT_USERNAME e)
                      (String_of_Z (Zone.id zone)) (Template.id tpl) with
              | None => (st, [], Threw)
              | Some deepLink =>
                  match send_result w with
                  | Sent sent =>
                      let '(st', tr) := on_sent w st zone tpl deepLink sent in
                      (st', EvSend zone now deepLink true :: tr, Returned)
                  | Rejected msg =>
                      let '(st', tr) := on_rejected e w st zone tpl deepLink msg in
                      (st', EvSend zone now deepLink false :: tr, Returned)
                  end
              end
          end
    end.

(** [promoCycle].  The random comparator makes the sorted copy an arbitrary
    permutation of the fetched rows, and only its first element is used:
    [shuffle_first] is the position, among the fetched rows, of the row the
    sort puts first. *)
Definition promoCycle (e : environment) (w : world) (st : state)
  : state * list event :=
  if inQuietHours (QUIET_HOURS e) (getUTCHours (t_quiet w)) then (st, [])
  else
    match fetchZones w st with
    | None => (st, [EvConsole CYCLE_ERROR])
    | Some zones =>
        match nth_error zones (shuffle_first w mod length zones) with
        | None => (st, [])
        | Some z =>
            match postToZone e w st z with
            | (st', tr, Returned) => (st', tr)
            | (st', tr, Threw) => (st', tr ++ [EvConsole CYCLE_ERROR])
            end
        end
    end.

(** Successive cycles, one [world] each; the events in order. *)
Fixpoint run (e : environment) (ws : list world) (st : state)
  : state * list event :=
  match ws with
  | [] => (st, [])
  | w :: ws' =>
      let '(st1, tr1) := promoCycle e w st in
      let '(st2, tr2) := run e ws' st1 in
      (st2, tr1 ++ tr2)
  end.

(** ** The scheduler ([scheduleNextCycle], [shutdown])

    The event loop is a transition system.  A timer is a handle; [pending]
    holds the timers armed and neither fired nor cleared; [in_flight] counts
    the executions of [promoCycle] that have started and not yet completed. *)

Module Scheduler.

Record t : Type := mk {
  shuttingDown : bool;
  cycleTimer : option nat;
  pending : list nat;
  next_handle : nat;
  in_flight : nat
}.

(** [if (cycleTimer) clearTimeout(cycleTimer)] *)
Definition clearTimeout (h : option nat) (timers : list nat) : list nat :=
  match h with
  | Some k => filter (fun k' => negb (Nat.eqb k' k)) timers
  | None => timers
  end.

(** [scheduleNextCycle]: nothing when shutting down; otherwise the previous
    timer is cleared and a new one armed. *)
Definition scheduleNextCycle (s : t) : t :=
  if shuttingDown s then s
  else mk false (Some (next_handle s))
          (next_handle s :: clearTimeout (cycleTimer s) (pending s))
          (S (next_handle s)) (in_flight s).

(** [shutdown(signal)] *)
Definition shutdown (s : t) : t :=
  if shuttingDown s then s
  else mk true (cycleTimer s) (clearTimeout (cycleTimer s) (pending s))
          (next_handle s) (in_flight s).

Inductive input : Type :=
| Fire (h : nat)
| Complete
| Signal.

(** One turn of the event loop: a pending timer fires and its callback
    starts [promoCycle]; a running [promoCycle] completes and the [finally]
    block calls [scheduleNextCycle(false)]; a termination signal arrives.
    [None] when the input cannot occur in the state. *)
Definition step (s : t) (i : input) : option t :=
  match i with
  | Fire h =>
      if existsb (Nat.eqb h) (pending s)
      then Some (mk (shuttingDown s) (cycleTimer s)
                    (filter (fun k => negb (Nat.eqb k h)) (pending s))
                    (next_handle s) (S (in_flight s)))
      else None
  | Complete =>
      match in_flight s with
      | O => None
      | S n =>
          Some (scheduleNextCycle
                  (mk (shuttingDown s) (cycleTimer s) (pending s)
                      (next_handle s) n))
      end
  | Signal => Some (shutdown s)
  end.

(** The state after start-up: [scheduleNextCycle(true)]. *)
Definition init : t := scheduleNextCycle (mk false None [] 0 0).

Fixpoint steps (s : t) (ins : list input) : option t :=
  match ins with
  | [] => Some s
  | i :: ins' =>
      match step s i with
      | Some s' => steps s' ins'
      | None => None
      end
  end.

Definition reachable (s : t) : Prop := exists ins, steps init ins = Some s.

End Scheduler.

(** ** The interval between cycles ([computeNextIntervalMs]) *)

(** The three environment variables of the interval, as they are set. *)
Record interval_environment : Type := mkIntervalEnv {
  env_PROMO_INTERVAL_MINUTES : option Z;
  env_PROMO_INTERVAL_MIN_MINUTES : option Z;
  env_PROMO_INTERVAL_MAX_MINUTES : option Z
}.

(** [x || null] for a number: 0 is falsy. *)
Definition or_null (x : Z) : option Z := if x =? 0 then None else Some x.

Definition PROMO_INTERVAL_MINUTES (ie : interval_environment) : Z :=
  Z.max 1 (Number_env (env_PROMO_INTERVAL_MINUTES ie) 15).

Definition PROMO_INTERVAL_MIN_MINUTES (ie : interval_environment) : option Z :=
  or_null (Z.max 1 (Number_env (env_PROMO_INTERVAL_MIN_MINUTES ie) 0)).

Definition PROMO_INTERVAL_MAX_MINUTES (ie : interval_environment) : option Z :=
  or_null (Z.max 1 (Number_env (env_PROMO_INTERVAL_MAX_MINUTES ie) 0)).

(** [computeNextIntervalMs()] on binary64 numbers, with [u] the value of
    [Math.random()]. *)
Definition computeNextIntervalMs (ie : interval_environment) (u : float)
  : float :=
  match PROMO_INTERVAL_MIN_MINUTES ie, PROMO_INTERVAL_MAX_MINUTES ie with
  | Some a, Some b =>
      let min := Binary64.of_Z a in
      let max := Binary64.of_Z b in
      if (min <=? max)%float
      then (Binary64.Math_floor (min + u * (max - min + 1)) * 60 * 1000)%float
      else (Binary64.of_Z (PROMO_INTERVAL_MINUTES ie) * 60 * 1000)%float
  | _, _ => (Binary64.of_Z (PROMO_INTERVAL_MINUTES ie) * 60 * 1000)%float
  end.

Module Legacy.

(** [parseQuietHours] of the earlier revision: hours are clamped to 0..23. *)
Definition parseQuietHours (spec : jsstring) : option (Z * Z) :=
  match match_quiet_hours spec with
  | None => None
  | Some (g1, g2) =>
      Some (Z.min 23 (Z.max 0 (digits_value g1)),
            Z.min 23 (Z.max 0 (digits_value g2)))
  end.

Definition isQuietNowUtc (QUIET_HOURS : jsstring) (h : Z) : bool :=
  match parseQuietHours QUIET_HOURS with
  | None => false
  | Some (start, end_) =>
      if start =? end_ then false
      else if start <? end_ then (start <=? h) && (h <? end_)
      else (start <=? h) || (h <? end_)
  end.

(** [Math.max(1, Number(it[weightKey] ?? 1))], on binary64 numbers. *)
Definition clamp_weight (w : Binary64.weight) : float :=
  Binary64.Math_max 1 (Binary64.Number_or_1 w).

(** [pickWeighted] of the earlier revision: no filter, no test of the total,
    and [null] for an empty list. *)
Definition pickWeighted {A : Type} (weight_of : A -> Binary64.weight)
    (items : list A) (u : float) : option A :=
  let weights := map (fun it => clamp_weight (weight_of it)) items in
  let total := Binary64.sum_weights weights in
  match Binary64.walk_weights weights (u * total) 0 with
  | Some i => nth_error items i
  | None =>
      match items with
      | [] => None
      | _ => nth_error items (length items - 1)
      end
  end.

(** [buildDeepLink] of the earlier revision: the payload after the base. *)
Definition sanitize (s : jsstring) : jsstring :=
  filter (fun c => is_alnum c || code_eqb c 95) s.

Definition or_t (s : jsstring) : jsstring :=
  match s with
  | [] => js "t"
  | _ => s
  end.

Definition deepLinkToken (zoneId templateId : jsstring) (nowMs : Z) : jsstring :=
  let t := or_t (slice0 10 (sanitize (or_t templateId))) in
  let ts := slice_last 6 (Z_to_radix 36 nowMs) in
  slice0 64 (js "p" ++ zoneId ++ js "t" ++ t ++ js "_" ++ ts).

(** [isEligibleByGap] *)
Definition isEligibleByGap (e : environment) (zone : Zone.t) (nowMs : Z) : bool :=
  match Zone.last_posted_at zone with
  | None => true
  | Some last => minGap e zone * 60000 <=? nowMs - last
  end.

(** [Math.max(3, Number(process.env.AUTO_DISABLE_AFTER || 5))] *)
Definition AUTO_DISABLE_AFTER (e : environment) : Z :=
  Z.max 3 (Number_env (env_AUTO_DISABLE_AFTER e) 5).

(** The end of the [catch] branch of [attemptOnePost]: the zone is disabled
    when the failure count of the row the attempt started from, plus one,
    has reached the threshold. *)
Definition auto_disable (e : environment) (zone : Zone.t) (st : state) : state :=
  let failCount := Number_or (Zone.fail_count zone) 0 + 1 in
  if AUTO_DISABLE_AFTER e <=? failCount
  then update_zones (Zone.id zone) set_disabled st
  else st.

(** [Math.round(x)]: the nearest integer, halves upwards. *)
Definition Math_round (x : Q) : Z := Qfloor (x + (1 # 2)).

(** [computeNextIntervalMs] of the earlier revision. *)
Definition computeNextIntervalMs (ie : interval_environment) (u : Q) : Z :=
  match PROMO_INTERVAL_MIN_MINUTES ie, PROMO_INTERVAL_MAX_MINUTES ie with
  | Some a, Some b =>
      let lo := Z.min a b in
      let hi := Z.max a b in
      let mins := (inject_Z lo + u * inject_Z (hi - lo))%Q in
      Math_round (mins * inject_Z 60 * inject_Z 1000)
  | _, _ => PROMO_INTERVAL_MINUTES ie * 60 * 1000
  end.

(** The [tick] loop of [startScheduler] and the [/postnow] command.
    [timers] counts the armed timeouts (their handles are discarded),
    [running] the executions of [attemptOnePost] started by [tick] and not
    yet completed, [commanded] those started by [/postnow] and not yet
    completed. *)
Module Scheduler.

Record t : Type := mk {
  cycleInFlight : bool;
  timers : nat;
  running : nat;
  commanded : nat;
  exited : bool
}.

Inductive input : Type :=
| Fire
| Complete
| PostNow (isAdmin : bool)
| PostNowDone
| Signal.

(** The synchronous part of [tick]: re-arm, then skip or start a cycle. *)
Definition tick (s : t) : t :=
  let s1 := mk (cycleInFlight s) (S (timers s)) (running s) (commanded s)
               (exited s) in
  if cycleInFlight s1 then s1
  else mk true (timers s1) (S (running s1)) (commanded s1) (exited s1).

(** [bot.command('postnow', ...)]: refused to anyone but an admin; otherwise
    [await attemptOnePost()], with no look at [cycleInFlight]. *)
Definition postnow (isAdmin : bool) (s : t) : t :=
  if isAdmin
  then mk (cycleInFlight s) (timers s) (running s) (S (commanded s)) (exited s)
  else s.

Definition step (s : t) (i : input) : option t :=
  if exited s then None
  else
    match i with
    | Fire =>
        match timers s with
        | O => None
        | S n => Some (tick (mk (cycleInFlight s) n (running s) (commanded s)
                                (exited s)))
        end
    | Complete =>
        match running s with
        | O => None
        | S n => Some (mk false (timers s) n (commanded s) (exited s))
        end
    | PostNow a => Some (postnow a s)
    | PostNowDone =>
        match commanded s with
        | O => None
        | S n => Some (mk (cycleInFlight s) (timers s) (running s) n (exited s))
        end
    | Signal =>
        Some (mk (cycleInFlight s) (timers s) (running s) (commanded s) true)
    end.

Definition init : t := tick (mk false 0 0 0 false).

(** The executions of [attemptOnePost] in flight, whoever started them. *)
Definition in_flight (s : t) : nat := (running s + commanded s)%nat.

Fixpoint steps (s : t) (ins : list input) : option t :=
  match ins with
  | [] => Some s
  | i :: ins' =>
      match step s i with
      | Some s' => steps s' ins'
      | None => None
      end
  end.

Definition reachable (s : t) : Prop := exists ins, steps init ins = Some s.

End Scheduler.

End Legacy.

(* ================================================================== *)
(** * Definitions used to state the properties *)

Definition zrange (n : nat) : list Z := map Z.of_nat (seq 0 n).

(** The string ["HH-HH"] for two hours. *)
Definition two_digits (n : Z) : jsstring :=
  [Z.to_N (48 + n / 10); Z.to_N (48 + n mod 10)].

Definition hh_hh (s e : Z) : jsstring := two_digits s ++ js "-" ++ two_digits e.

(** The quiet window the specification describes for hours [s] and [e]. *)
Definition quiet_window (s e h : Z) : bool :=
  if s <? e then (s <=? h) && (h <? e)
  else if e <? s then (s <=? h) || (h <? e)
  else false.

Definition quiet_hours_check (s e h : Z) : bool :=
  Bool.eqb (inQuietHours (hh_hh s e) h) (quiet_window s e h)
  && Bool.eqb (Legacy.isQuietNowUtc (hh_hh s e) h) (quiet_window s e h).

Fixpoint sumQ (ws : list Q) : Q :=
  match ws with
  | [] => 0%Q
  | w :: r => (w + sumQ r)%Q
  end.

(** Today's count of successful sends to a zone, as the cycle reads it. *)
Definition todayCount (w : world) (st : state) (zone : Zone.t) : Z :=
  Z.of_nat (length (filter (counts_today (Zone.telegram_chat_id zone)
                                         (startUtc (t_count w)))
                           (promo_posts st))).

(** The cycle of [w] started in [st] reaches [sendMessage] for [zone] with
    template [tpl] and link [deepLink]: every gate let it through. *)
Definition reaches_send (e : environment) (w : world) (st : state)
    (zone : Zone.t) (tpl : Template.t) (deepLink : jsstring) : Prop :=
  In zone (promo_zones st)
  /\ Zone.is_enabled zone = true
  /\ inQuietHours (QUIET_HOURS e) (getUTCHours (t_quiet w)) = false
  /\ fetch_zones_error w = false
  /\ GLOBAL_MIN_GAP_SECONDS e * 1000 <= t_now w - lastGlobalPostAt st
  /\ in_cooldown e zone (t_now w) = false
  /\ count_error w = false
  /\ todayCount w st zone < dailyCap e zone
  /\ pickWeighted Template.weight (map Some (templates w)) (random w) = Some tpl
  /\ buildDeepLink (PROMO_LINK_BASE e) (MAIN_BOT_USERNAME e)
       (String_of_Z (Zone.id zone)) (Template.id tpl) = Some deepLink.

(** The events of a trace that are calls to [sendMessage]. *)
Definition sends (tr : list event) : list event := filter is_send tr.

(** The attempts to insert into [promo_posts]. *)
Definition inserts (tr : list event) : list event := filter is_insert tr.

(** A row of [promo_zones] after a rejected send to the zone [zoneId]. *)
Definition rejected_row (e : environment) (w : world) (zoneId : Z)
    (msg : jsstring) (z : Zone.t) : Zone.t :=
  if Zone.id z =? zoneId then
    let fail := Number_or (Zone.fail_count z) 0 + 1 in
    Zone.mk (Zone.id z) (Zone.telegram_chat_id z)
            (if (0 <? autoDisableAfter e) && (autoDisableAfter e <=? fail)
             then false else Zone.is_enabled z)
            (Zone.min_gap_minutes z) (Zone.daily_cap z)
            (if fail_count_error w then Zone.fail_count z else Some fail)
            (Some (slice0 500 msg)) (Zone.last_posted_at z)
  else z.

(** A row of [promo_zones] after a delivered send to the zone [zoneId]. *)
Definition posted_row (w : world) (zoneId : Z) (z : Zone.t) : Zone.t :=
  if Zone.id z =? zoneId then set_posted (t_posted w) z else z.

Definition with_QUIET_HOURS (q : jsstring) (e : environment) : environment :=
  mkEnv (env_GLOBAL_MIN_GAP_SECONDS e) (env_DEFAULT_MIN_GAP_MINUTES e)
        (env_DEFAULT_DAILY_CAP e) (env_AUTO_DISABLE_AFTER e) q
        (PROMO_LINK_BASE e) (MAIN_BOT_USERNAME e).

(** The same world with other answers of the store to the two inserts. *)
Definition with_log (full fallback : bool) (w : world) : world :=
  mkWorld (t_quiet w) (fetch_zones_error w) (shuffle_first w) (t_now w)
          (t_count w) (count_error w) (templates w) (random w) (send_result w)
          (t_log w) full fallback (t_posted w) (fail_count_error w).

(** What one cycle may do to a row of [promo_zones]. *)
Definition row_step (e : environment) (w : world) (r r' : Zone.t) : Prop :=
  Zone.id r' = Zone.id r
  /\ Zone.telegram_chat_id r' = Zone.telegram_chat_id r
  /\ Zone.min_gap_minutes r' = Zone.min_gap_minutes r
  /\ Zone.daily_cap r' = Zone.daily_cap r
  /\ (Zone.fail_count r' = Zone.fail_count r
      \/ Zone.fail_count r' = Some (Number_or (Zone.fail_count r) 0 + 1))
  /\ (Zone.is_enabled r' = Zone.is_enabled r
      \/ (Zone.is_enabled r' = false /\ 0 < autoDisableAfter e))
  /\ (Zone.last_posted_at r' = Zone.last_posted_at r
      \/ Zone.last_posted_at r' = Some (t_posted w)).

(** ** Concrete inputs used in examples *)

(** No variable set except [AUTO_DISABLE_AFTER=3]: global gap 60 s, default
    zone gap 360 min, default cap 3, no quiet hours. *)
Definition ex_env : environment :=
  mkEnv None None None (Some 3) [] [] (js "jigcoinbot").

(** A zone that was never posted to and has failed twice. *)
Definition ex_zone : Zone.t :=
  Zone.mk 7 (-1001) true (Some 360) (Some 3) (Some 2) (Some (js "old error")) None.

Definition ex_state : state := mkState [ex_zone] [] 0.

Definition ex_template : Template.t := Template.mk (js "soft_1") (WNum 3) None.

(** A cycle at 2024-01-01T12:00:00Z in which the platform accepts the send. *)
Definition ex_world_sent : world :=
  mkWorld 1704110400000 false 0 1704110400000 1704110400001 false
          [ex_template] (1 # 2) (Sent (Some 55)) 1704110400200 true true
          1704110400300 false.

(** The same cycle with the send rejected. *)
Definition ex_world_rejected : world :=
  mkWorld 1704110400000 false 0 1704110400000 1704110400001 false
          [ex_template] (1 # 2) (Rejected (js "Forbidden: bot was kicked"))
          1704110400200 true true 1704110400300 false.

(** The gate closes on [zone] at the decision time of the cycle: the global
    gap has not elapsed, the zone is disabled, the zone's own gap (as the
    cycle computes it, or as stored in the row) has not elapsed, or today's
    count has reached the cap the cycle computes. *)
Definition blocked (e : environment) (w : world) (st : state) (zone : Zone.t)
  : Prop :=
  t_now w - lastGlobalPostAt st < GLOBAL_MIN_GAP_SECONDS e * 1000
  \/ Zone.is_enabled zone = false
  \/ (exists last, Zone.last_posted_at zone = Some last
                   /\ t_now w - last < minGap e zone * 60000)
  \/ (exists last g, Zone.last_posted_at zone = Some last
                     /\ Zone.min_gap_minutes zone = Some g
                     /\ t_now w - last < g * 60000)
  \/ dailyCap e zone <= todayCount w st zone
  \/ (exists c, Zone.daily_cap zone = Some c /\ 1 <= c
                /\ c <= todayCount w st zone).

(** A zone whose stored [daily_cap] is 0. *)
Definition ex_zone_cap0 : Zone.t :=
  Zone.mk 8 (-1002) true (Some 360) (Some 0) (Some 0) None None.

(** Six hours and a second after [ex_world_sent], the same day. *)
Definition ex_world_later : world :=
  mkWorld 1704132001000 false 0 1704132001000 1704132001001 false
          [ex_template] (1 # 2) (Sent (Some 56)) 1704132001200 true true
          1704132001300 false.

(** [QUIET_HOURS] set to a string that is not "HH-HH". *)
Definition ex_env_malformed : environment :=
  mkEnv None None None (Some 3) (js "23:07") [] (js "jigcoinbot").

(** The store refuses the full payload and accepts the minimal one. *)
Definition ex_world_log_refused : world := with_log false true ex_world_sent.

(** The rejected cycle in which the query of [incrementFailCount] fails. *)
Definition ex_world_rejected_unread : world :=
  mkWorld 1704110400000 false 0 1704110400000 1704110400001 false
          [ex_template] (1 # 2) (Rejected (js "Forbidden: bot was kicked"))
          1704110400200 true true 1704110400300 true.

(** The scheduler with its first timer fired and the cycle still running;
    the earlier [tick] loop at start-up, whose first cycle is running. *)
Definition ex_scheduler_busy : Scheduler.t :=
  Scheduler.mk false (Some 0%nat) [] 1 1.

Definition ex_legacy_scheduler_busy : Legacy.Scheduler.t :=
  Legacy.Scheduler.mk true 1 1 0 false.

(** No variable set at all. *)
Definition ex_env_unset : environment :=
  mkEnv None None None None [] [] (js "jigcoinbot").

(** A zone that has failed four times. *)
Definition ex_zone_failed4 : Zone.t :=
  Zone.mk 9 (-1003) true (Some 360) (Some 3) (Some 4) None None.

(** How a cycle ends before any call to [sendMessage], or the send it makes:
    the gating of [promoCycle] and [postToZone] read as one decision. *)
Inductive decision : Type :=
| Skip
| Fault
| Attempt (zone : Zone.t) (tpl : Template.t) (deepLink : jsstring).

Definition cycle_decision (e : environment) (w : world) (st : state) : decision :=
  if inQuietHours (QUIET_HOURS e) (getUTCHours (t_quiet w)) then Skip
  else if fetch_zones_error w then Fault
  else
    let zones := filter Zone.is_enabled (promo_zones st) in
    match nth_error zones (shuffle_first w mod length zones) with
    | None => Skip
    | Some zone =>
        if t_now w - lastGlobalPostAt st <? GLOBAL_MIN_GAP_SECONDS e * 1000
        then Skip
        else if in_cooldown e zone (t_now w) then Skip
        else if count_error w then Fault
        else if dailyCap e zone <=? todayCount w st zone then Skip
        else
          match pickWeighted Template.weight (map Some (templates w)) (random w) with
          | None => Skip
          | Some tpl =>
              match buildDeepLink (PROMO_LINK_BASE e) (MAIN_BOT_USERNAME e)
                      (String_of_Z (Zone.id zone)) (Template.id tpl) with
              | None => Fault
              | Some deepLink => Attempt zone tpl deepLink
              end
          end
    end.

(** The row [logPostAttempt] first inserts for the send a cycle made to
    [zone] with template [tpl] and link [deepLink], and the row of its
    second insert. *)
Definition full_row (w : world) (zone : Zone.t) (tpl : Template.t)
    (deepLink : jsstring) : Post.t :=
  match send_result w with
  | Sent sent =>
      Post.mk (Zone.id zone) (Some (Zone.telegram_chat_id zone)) (Template.id tpl)
              (Template._message_id tpl) (Some deepLink) sent success None
              (t_log w)
  | Rejected msg =>
      Post.mk (Zone.id zone) (Some (Zone.telegram_chat_id zone)) (Template.id tpl)
              (Template._message_id tpl) (Some deepLink) None failed
              (error_column (Some msg)) (t_log w)
  end.

Definition minimal_row (row : Post.t) : Post.t :=
  Post.mk (Post.promo_zone_id row) None (Post.template_id row) None None None
          (Post.status row) (Post.error row) (Post.created_at row).

(** The inserts [logPostAttempt] makes for [row] when the store answers [a]
    to the first and [b] to the second. *)
Definition log_inserts (a b : bool) (row : Post.t) : list event :=
  if a then [EvInsert row true]
  else [EvInsert row false; EvInsert (minimal_row row) b].

(** The rows these inserts leave in [promo_posts]. *)
Definition logged_rows (a b : bool) (row : Post.t) : list Post.t :=
  if a then [row] else if b then [minimal_row row] else [].

(** [promo_zones] after the [catch] branch of [postToZone], as a function of
    [promo_zones] before it. *)
Definition rejected_zones (e : environment) (w : world) (zone : Zone.t)
    (msg : jsstring) (zones : list Zone.t) : list Zone.t :=
  let zid := Zone.id zone in
  let upd f := map (fun z => if Zone.id z =? zid then f z else z) in
  let z2 := upd (set_last_error (slice0 500 msg)) zones in
  let z3 := if fail_count_error w then z2
            else
              match filter (fun z => Zone.id z =? zid) z2 with
              | [data] =>
                  upd (set_fail_count (Number_or (Zone.fail_count data) 0 + 1)) z2
              | _ => z2
              end in
  if (0 <? autoDisableAfter e)
     && (autoDisableAfter e <=? Number_or (Zone.fail_count zone) 0 + 1)
  then upd set_disabled z3 else z3.

(** Items for the selection on binary64 numbers: an id and a weight.  The
    weights of [ex_items_4] are the binary64 values nearest 0.7, 0.4 and 1.8,
    and an explicit 0. *)
Definition ex_item_zero : jsstring * Binary64.weight :=
  (js "zero", Binary64.Num 0).

Definition ex_item_one : jsstring * Binary64.weight :=
  (js "one", Binary64.Num 1).

Definition ex_item_nan : jsstring * Binary64.weight :=
  (js "nan", Binary64.Num nan).

Definition ex_items_4 : list (jsstring * Binary64.weight) :=
  [(js "a", Binary64.Num 0x1.6666666666666p-1);
   (js "b", Binary64.Num 0x1.999999999999ap-2);
   (js "c", Binary64.Num 0x1.ccccccccccccdp+0);
   (js "d", Binary64.Num 0)].

(** One unit as [encodeURIComponent] writes it when it is not a surrogate. *)
Definition encode_unit (c : N) : jsstring :=
  if uri_unreserved c then [c] else percent_encode c.

Definition is_ascii (c : N) : Prop := (c < 128)%N.

(** The characters of an identifier: letters, digits, [_] and [-]. *)
Definition id_safe (c : N) : bool := is_alnum c || code_eqb c 95 || code_eqb c 45.

(** The link carried by a send. *)
Definition send_link (ev : event) : option jsstring :=
  match ev with
  | EvSend _ _ deepLink _ => Some deepLink
  | _ => None
  end.

(** What holds of the scheduler in every state it can reach: at most one
    timer is armed, it is the one [cycleTimer] names, and a timer is armed
    only while no cycle runs. *)
Definition scheduler_inv (s : Scheduler.t) : Prop :=
  (Scheduler.pending s = []
   \/ exists h, Scheduler.pending s = [h] /\ Scheduler.cycleTimer s = Some h)
  /\ (Scheduler.in_flight s + length (Scheduler.pending s) <= 1)%nat
  /\ (Scheduler.shuttingDown s = false ->
      (Scheduler.in_flight s + length (Scheduler.pending s) = 1)%nat)
  /\ (Scheduler.shuttingDown s = true -> Scheduler.pending s = []).

Definition legacy_scheduler_inv (s : Legacy.Scheduler.t) : Prop :=
  Legacy.Scheduler.timers s = 1%nat
  /\ Legacy.Scheduler.running s
     = (if Legacy.Scheduler.cycleInFlight s then 1 else 0)%nat.

(* ================================================================== *)
(** * Definitions used to state further properties of the cycle *)

(** The row the random sort of [promoCycle] puts first. *)
Definition shuffled_first (w : world) (st : state) : option Zone.t :=
  nth_error (filter Zone.is_enabled (promo_zones st))
            (shuffle_first w mod length (filter Zone.is_enabled (promo_zones st))).

(** A successful row of [promo_posts] for [chatId] created in the UTC day
    that starts at [start]. *)
Definition counts_in_day (chatId : Z) (start : Z) (p : Post.t) : bool :=
  counts_today chatId start p && (Post.created_at p <? start + 86400000).

Definition day_count (chatId : Z) (start : Z) (posts : list Post.t) : Z :=
  Z.of_nat (length (filter (counts_in_day chatId start) posts)).

(** In the log, no zone has more successes in a UTC day than its cap. *)
Definition cap_respected (e : environment) (st : state) : Prop :=
  forall z start,
    In z (promo_zones st) -> start mod 86400000 = 0 ->
    day_count (Zone.telegram_chat_id z) start (promo_posts st) <= dailyCap e z.

(** The row a cycle of [w] logs for a send to [zone] with template [tpl]:
    the full payload when the store accepts it, the minimal one otherwise. *)
Definition logged_row (w : world) (zone : Zone.t) (tpl : Template.t)
    (deepLink : jsstring) : Post.t :=
  let status := match send_result w with Sent _ => success | Rejected _ => failed end in
  let error := match send_result w with
               | Sent _ => None
               | Rejected msg => error_column (Some msg)
               end in
  if log_insert_ok w
  then Post.mk (Zone.id zone) (Some (Zone.telegram_chat_id zone)) (Template.id tpl)
               (Template._message_id tpl) (Some deepLink)
               (match send_result w with Sent sent => sent | Rejected _ => None end)
               status error (t_log w)
  else Post.mk (Zone.id zone) None (Template.id tpl) None None None status error
               (t_log w).

(* ================================================================== *)
(** * Definitions used to state further properties of the quiet hours *)

(** One or two decimal digits. *)
Definition digits12 (g : jsstring) : Prop :=
  (length g = 1%nat \/ length g = 2%nat) /\ Forall (fun c => is_digit c = true) g.

(** The window of [inQuietHours] for any two numbers, in range or not. *)
Definition raw_window (s e h : Z) : bool :=
  if s <=? e then (s <=? h) && (h <? e) else (s <=? h) || (h <? e).

(** The matcher on ["HH-HH"] recovers the two numbers. *)
Definition parse_check (s e : Z) : bool :=
  match match_quiet_hours (hh_hh s e) with
  | Some (g1, g2) => (digits_value g1 =? s) && (digits_value g2 =? e)
  | None => false
  end.

(* ================================================================== *)
(** * Definitions used to state further properties of the deep link *)

(** Every surrogate code unit of the string is half of a pair. *)
Fixpoint well_formed_utf16 (s : jsstring) : bool :=
  match s with
  | [] => true
  | c :: rest =>
      if is_low_surrogate c then false
      else if is_high_surrogate c then
        match rest with
        | d :: rest' => is_low_surrogate d && well_formed_utf16 rest'
        | [] => false
        end
      else well_formed_utf16 rest
  end.

(** A UTF-16 code unit. *)
Definition is_unit (c : N) : Prop := (c < 65536)%N.

(** A character of an encoded URI component. *)
Definition uri_char (c : N) : Prop := uri_unreserved c = true \/ c = 37%N.

(** A template id whose eighth code unit is the first half of a surrogate
    pair: seven letters and U+1F600. *)
Definition ex_template_split : Template.t :=
  Template.mk (js "welcome" ++ [55357%N; 56832%N]) (WNum 1) None.

Definition ex_world_split : world :=
  mkWorld 1704110400000 false 0 1704110400000 1704110400001 false
          [ex_template_split] (1 # 2) (Sent (Some 55)) 1704110400200 true true
          1704110400300 false.

(** A character of a Telegram start parameter that needs no encoding:
    [A-Z a-z 0-9 _]. *)
Definition word_char (c : N) : Prop := is_alnum c || code_eqb c 95 = true.

(* ================================================================== *)
(** * The template sources ([src/index.js], [fetchEnabledTemplates])

    The rows are read as the store types them: a text column is a string or
    [null], [weight] is a number or [null], the [id] of [promo_messages] is
    an integer.  A column that a table does not have reads [undefined];
    [None] stands for [null] and for [undefined] wherever the code treats
    the two alike.  A query is [None] when it reports an error or returns
    no data. *)

(** A string that is truthy: neither [null] nor empty. *)
Definition truthy_text (s : option jsstring) : bool :=
  match s with
  | Some (_ :: _) => true
  | _ => false
  end.

(** [String(s)] *)
Definition String_text (s : option jsstring) : jsstring :=
  match s with
  | Some s => s
  | None => js "null"
  end.

(** [a ?? b] *)
Definition nullish_or {A : Type} (a b : option A) : option A :=
  match a with
  | Some _ => a
  | None => b
  end.

(** [a || b] on strings *)
Definition or_text (a b : option jsstring) : option jsstring :=
  if truthy_text a then a else b.

(** [Number(w || 1)] for a numeric column: a number or [null]. *)
Definition Number_weight (w : option Q) : Q :=
  match w with
  | Some q => if Qeq_bool q 0 then 1%Q else q
  | None => 1%Q
  end.

(** [is_enabled] of a row of [promo_templates]: the column may be missing. *)
Inductive js_flag : Type :=
| flag_undefined
| flag_null
| flag_bool (b : bool).

(** [r.is_enabled === undefined ? true : !!r.is_enabled] *)
Definition enabled_or_absent (f : js_flag) : bool :=
  match f with
  | flag_undefined => true
  | flag_null => false
  | flag_bool b => b
  end.

(** A template as [fetchEnabledTemplates] returns it; the properties
    [is_enabled] and [_template_row_id] are never read. *)
Module Fetched.
Record t : Type := mk {
  id : jsstring;
  weight : jsweight;
  body : jsstring;
  _message_id : option Z
}.
End Fetched.

(** A row of [promo_messages] with [is_active = true]. *)
Module MessageRow.
Record t : Type := mk {
  id : Z;
  content : option jsstring;
  weight : option Q
}.
End MessageRow.

(** A row of [promo_templates] under [select('*')]. *)
Module TemplateRow.
Record t : Type := mk {
  id : option jsstring;
  name : option jsstring;
  body : option jsstring;
  content : option jsstring;
  text : option jsstring;
  message : option jsstring;
  weight : option Q;
  is_enabled : js_flag
}.
End TemplateRow.

(** The value under [weight] in an element of the JSON array, as
    [Number(t.weight || 1)] reads it: a falsy value (absent, [null], [false],
    the number 0, the empty text), or a truthy one given by its [Number()]
    reading, [None] for [NaN].  A number other than 0 is its own reading; the
    text ["0"] is truthy and reads 0. *)
Inductive json_weight : Type :=
| JFalsy
| JTruthy (reading : option Q).

(** [Number(w || 1)] for a value of the JSON array. *)
Definition Number_json_weight (w : json_weight) : jsweight :=
  match w with
  | JFalsy => WNum 1
  | JTruthy (Some q) => WNum q
  | JTruthy None => WNaN
  end.

(** An element of the array in [PROMO_MESSAGE_TEMPLATES_JSON]. *)
Module EnvItem.
Record t : Type := mk {
  id : option jsstring;
  weight : json_weight;
  body : option jsstring;
  content : option jsstring
}.
End EnvItem.

(** [xs.map((x, i) => f(x, i))], the index counted from [i]. *)
Fixpoint mapi_from {A B : Type} (f : A -> Z -> B) (i : Z) (xs : list A) : list B :=
  match xs with
  | [] => []
  | x :: r => f x i :: mapi_from f (i + 1) r
  end.

Definition mapi {A B : Type} (f : A -> Z -> B) (xs : list A) : list B :=
  mapi_from f 0 xs.

(** The branch of [promo_messages]. *)
Definition from_messages (data : list MessageRow.t) : list Fetched.t :=
  map (fun r => Fetched.mk (String_of_Z (MessageRow.id r))
                           (WNum (Number_weight (MessageRow.weight r)))
                           (String_text (MessageRow.content r))
                           (Some (MessageRow.id r)))
      (filter (fun r => truthy_text (MessageRow.content r)) data).

(** The branch of [promo_templates]. *)
Definition template_of_row (r : TemplateRow.t) : option Fetched.t :=
  let body :=
    nullish_or
      (nullish_or (nullish_or (TemplateRow.body r) (TemplateRow.content r))
                  (TemplateRow.text r))
      (TemplateRow.message r) in
  if truthy_text body
  then Some (Fetched.mk
               (String_text
                  (nullish_or (nullish_or (TemplateRow.id r) (TemplateRow.name r))
                              (Some (js "tpl"))))
               (WNum (Number_weight (TemplateRow.weight r)))
               (String_text body)
               None)
  else None.

Definition from_templates (data : list TemplateRow.t) : list Fetched.t :=
  filter_Boolean
    (map template_of_row
         (filter (fun r => enabled_or_absent (TemplateRow.is_enabled r)) data)).

(** The branch of [PROMO_MESSAGE_TEMPLATES_JSON]. *)
Definition from_json (parsed : list EnvItem.t) : list Fetched.t :=
  filter (fun t => match Fetched.body t with [] => false | _ => true end)
    (mapi (fun t i =>
             Fetched.mk
               (String_text
                  (or_text (EnvItem.id t)
                           (Some (js "env_json_" ++ String_of_Z (i + 1)))))
               (Number_json_weight (EnvItem.weight t))
               (String_text
                  (or_text (or_text (EnvItem.body t) (EnvItem.content t))
                           (Some [])))
               None)
          parsed).

(** [s.split('|||')]: [cur] is the part being read, last unit first. *)
Fixpoint split_bars (s : jsstring) (cur : jsstring) : list jsstring :=
  match s with
  | [] => [rev cur]
  | c1 :: r1 =>
      match r1 with
      | c2 :: c3 :: r3 =>
          if code_eqb c1 124 && code_eqb c2 124 && code_eqb c3 124
          then rev cur :: split_bars r3 []
          else split_bars r1 (c1 :: cur)
      | _ => split_bars r1 (c1 :: cur)
      end
  end.

(** [s.trim()] *)
Definition trim (s : jsstring) : jsstring :=
  rev (skip_spaces (rev (skip_spaces s))).

(** The chunks of [PROMO_MESSAGE_TEMPLATES]. *)
Definition chunks (PROMO_MESSAGE_TEMPLATES : jsstring) : list jsstring :=
  firstn 20
    (filter (fun s => match s with [] => false | _ => true end)
            (map trim (split_bars PROMO_MESSAGE_TEMPLATES []))).

Definition from_chunks (cs : list jsstring) : list Fetched.t :=
  mapi (fun body i => Fetched.mk (js "env_" ++ String_of_Z (i + 1)) (WNum 1) body None)
       cs.

(** The three templates built into the program. *)
Definition hard_fallback : list Fetched.t :=
  [ Fetched.mk (js "soft_1") (WNum 3)
      ([55357%N; 56960%N] ++ js " New Telegram tap empire just dropped."
       ++ [10%N] ++ js "Start early " ++ [8212%N] ++ js " farm rewards daily."
       ++ [10%N; 55357%N; 56391%N] ++ js " Tap to join" ++ [10%N]
       ++ js "{LINK}")
      None;
    Fetched.mk (js "soft_2") (WNum 2)
      (js "People are grinding this right now." ++ [10%N]
       ++ js "Still early access." ++ [10%N; 55357%N; 56391%N; 10%N]
       ++ js "{LINK}")
      None;
    Fetched.mk (js "soft_3") (WNum 1)
      (js "If you like airdrops + tap-to-earn" ++ [8230%N; 10%N]
       ++ js "This one is worth a look." ++ [10%N] ++ js "{LINK}")
      None ].

(** What [fetchEnabledTemplates] reads: the two query results, the array
    parsed from [PROMO_MESSAGE_TEMPLATES_JSON] ([None] when the variable is
    empty, is not JSON, is not an array, or holds an element whose
    properties cannot be read), and [PROMO_MESSAGE_TEMPLATES]. *)
Record template_sources : Type := mkSources {
  promo_messages : option (list MessageRow.t);
  promo_templates : option (list TemplateRow.t);
  PROMO_MESSAGE_TEMPLATES_JSON : option (list EnvItem.t);
  PROMO_MESSAGE_TEMPLATES : jsstring
}.

(** [!error && data && data.length] *)
Definition has_rows {A : Type} (q : option (list A)) : option (list A) :=
  match q with
  | Some (_ :: _) => q
  | _ => None
  end.

Definition fetchEnabledTemplates (s : template_sources) : list Fetched.t :=
  match has_rows (promo_messages s) with
  | Some data => from_messages data
  | None =>
      match has_rows (promo_templates s) with
      | Some data => from_templates data
      | None =>
          match has_rows (PROMO_MESSAGE_TEMPLATES_JSON s) with
          | Some parsed => from_json parsed
          | None =>
              match chunks (PROMO_MESSAGE_TEMPLATES s) with
              | [] => hard_fallback
              | cs => from_chunks cs
              end
          end
      end
  end.

(** The template as [postToZone] reads it: [id], [weight], [_message_id]. *)
Definition to_template (t : Fetched.t) : Template.t :=
  Template.mk (Fetched.id t) (Fetched.weight t) (Fetched._message_id t).

(** The queries return rows, and no row of the first one has content. *)
Definition ex_sources_blank : template_sources :=
  mkSources (Some [MessageRow.mk 1 (Some []) (Some (3 # 1));
                   MessageRow.mk 2 None None])
            (Some [TemplateRow.mk (Some (js "a")) None (Some (js "hello {LINK}"))
                                  None None None (Some (2 # 1)) (flag_bool true)])
            None (js "one ||| two").

(** No rows in the store, and a JSON array of two elements: the first with
    the text ["0"] for a weight, the second with no weight. *)
Definition ex_sources_json : template_sources :=
  mkSources None None
            (Some [EnvItem.mk (Some (js "a")) (JTruthy (Some 0%Q))
                              (Some (js "first {LINK}")) None;
                   EnvItem.mk (Some (js "b")) JFalsy
                              (Some (js "second {LINK}")) None])
            [].

(** Nothing but the environment variable. *)
Definition ex_sources_env : template_sources :=
  mkSources None (Some []) None (js " one ||| two ||||||  ").

(** A cycle that reads the templates of [ex_sources_blank]. *)
Definition ex_world_blank : world :=
  mkWorld 1704110400000 false 0 1704110400000 1704110400001 false
          (map to_template (fetchEnabledTemplates ex_sources_blank))
          (1 # 2) (Sent (Some 55)) 1704110400200 true true 1704110400300
          false.

(** The first text of a row of [promo_templates] that is not [null]. *)
Definition row_text (r : TemplateRow.t) : option jsstring :=
  nullish_or
    (nullish_or (nullish_or (TemplateRow.body r) (TemplateRow.content r))
                (TemplateRow.text r))
    (TemplateRow.message r).

(* ================================================================== *)
(** * The message text ([src/index.js], [renderTemplate]) *)

(** [s.startsWith(p)] *)
Fixpoint is_prefix (p s : jsstring) : bool :=
  match p, s with
  | [], _ => true
  | a :: p', b :: s' => code_eqb a b && is_prefix p' s'
  | _ :: _, [] => false
  end.

(** The regular expression [\{LINK\}|\{link\}] matches at the start of [s]. *)
Definition starts_with_placeholder (s : jsstring) : bool :=
  is_prefix (js "{LINK}") s || is_prefix (js "{link}") s.

(** The replacement text of one match when the replace value is a string
    and the pattern has no capture group: [$$] is a dollar sign, [$&] the
    match, [$`] the text before it, [$'] the text after it, and any other
    dollar sign stands for itself. *)
Fixpoint GetSubstitution (matched before after : jsstring)
    (replacement : jsstring) {struct replacement} : jsstring :=
  match replacement with
  | [] => []
  | c :: rest =>
      if code_eqb c 36 then
        match rest with
        | d :: rest' =>
            if code_eqb d 36
            then 36%N :: GetSubstitution matched before after rest'
            else if code_eqb d 38
            then matched ++ GetSubstitution matched before after rest'
            else if code_eqb d 96
            then before ++ GetSubstitution matched before after rest'
            else if code_eqb d 39
            then after ++ GetSubstitution matched before after rest'
            else 36%N :: GetSubstitution matched before after rest
        | [] => [36%N]
        end
      else c :: GetSubstitution matched before after rest
  end.

(** [safe.replace(/\{LINK\}|\{link\}/g, link)], read from the left: [before]
    is the text already passed and [skip] the number of units of the last
    match still to pass. *)
Fixpoint replace_LINK (link before : jsstring) (skip : nat) (s : jsstring)
    {struct s} : jsstring :=
  match s with
  | [] => []
  | c :: r =>
      match skip with
      | S k => replace_LINK link (before ++ [c]) k r
      | O =>
          if starts_with_placeholder s
          then GetSubstitution (firstn 6 s) before (skipn 6 s) link
               ++ replace_LINK link (before ++ [c]) 5 r
          else c :: replace_LINK link (before ++ [c]) 0 r
      end
  end.

(** [renderTemplate(body, link)] for a body that is a string. *)
Definition renderTemplate (body link : jsstring) : jsstring :=
  replace_LINK link [] 0 (trim body).

(** One of the two spellings of the placeholder. *)
Definition placeholder (p : jsstring) : Prop := p = js "{LINK}" \/ p = js "{link}".

Definition no_unit (c : N) (s : jsstring) : Prop := Forall (fun x => x <> c) s.

(** ** Settings that are not numbers

    An environment variable is a text.  The cycle above takes the numeric
    settings to be unset or integers.  Here a setting is unset (or empty,
    which is falsy as well), or a text given by its [Number()] reading, which
    is [NaN] for a text that is no numeric literal.  [Math.max] with a [NaN]
    argument is [NaN], arithmetic on [NaN] is [NaN], and every comparison
    with [NaN] is false. *)
Module Raw.

Inductive num : Type :=
| Fin (z : Z)
| NaN.

Record settings : Type := mkSettings {
  raw_GLOBAL_MIN_GAP_SECONDS : option num;
  raw_DEFAULT_MIN_GAP_MINUTES : option num;
  raw_DEFAULT_DAILY_CAP : option num;
  raw_AUTO_DISABLE_AFTER : option num
}.

(** [Number(process.env.X || d)] *)
Definition Number_env (v : option num) (d : Z) : num :=
  match v with
  | Some n => n
  | None => Fin d
  end.

(** [Math.max(a, x)] *)
Definition Math_max (a : Z) (x : num) : num :=
  match x with
  | Fin z => Fin (Z.max a z)
  | NaN => NaN
  end.

(** [Number(x || d)] for a numeric column [x]. *)
Definition Number_or (x : option Z) (d : num) : num :=
  match x with
  | Some 0 | None => d
  | Some z => Fin z
  end.

(** [x * k], [a < x], [a >= x] and [x > a] *)
Definition times (x : num) (k : Z) : num :=
  match x with
  | Fin z => Fin (z * k)
  | NaN => NaN
  end.

Definition lt (a : Z) (x : num) : bool :=
  match x with
  | Fin z => a <? z
  | NaN => false
  end.

Definition ge (a : Z) (x : num) : bool :=
  match x with
  | Fin z => z <=? a
  | NaN => false
  end.

Definition gt (x : num) (a : Z) : bool :=
  match x with
  | Fin z => a <? z
  | NaN => false
  end.

Definition GLOBAL_MIN_GAP_SECONDS (r : settings) : num :=
  Math_max 10 (Number_env (raw_GLOBAL_MIN_GAP_SECONDS r) 60).

Definition DEFAULT_MIN_GAP_MINUTES (r : settings) : num :=
  Math_max 1 (Number_env (raw_DEFAULT_MIN_GAP_MINUTES r) 360).

Definition DEFAULT_DAILY_CAP (r : settings) : num :=
  Math_max 1 (Number_env (raw_DEFAULT_DAILY_CAP r) 3).

(** [minGap] and [dailyCap] of [postToZone]. *)
Definition minGap (r : settings) (zone : Zone.t) : num :=
  Math_max 1 (Number_or (Zone.min_gap_minutes zone) (DEFAULT_MIN_GAP_MINUTES r)).

Definition dailyCap (r : settings) (zone : Zone.t) : num :=
  Math_max 1 (Number_or (Zone.daily_cap zone) (DEFAULT_DAILY_CAP r)).

(** The three gates of [postToZone]:
    [now - lastGlobalPostAt < GLOBAL_MIN_GAP_SECONDS * 1000],
    [zone.last_posted_at && now - last < minGap * 60 * 1000] and
    [todayCount >= dailyCap]. *)
Definition global_gap_closed (r : settings) (now lastGlobalPostAt : Z) : bool :=
  lt (now - lastGlobalPostAt) (times (GLOBAL_MIN_GAP_SECONDS r) 1000).

Definition in_cooldown (r : settings) (zone : Zone.t) (now : Z) : bool :=
  match Zone.last_posted_at zone with
  | Some last => lt (now - last) (times (times (minGap r zone) 60) 1000)
  | None => false
  end.

Definition cap_reached (r : settings) (zone : Zone.t) (todayCount : Z) : bool :=
  ge todayCount (dailyCap r zone).

(** [Math.max(0, Number(process.env.AUTO_DISABLE_AFTER || 0))] and the test
    [autoDisableAfter > 0 && fail >= autoDisableAfter] of [postToZone]. *)
Definition autoDisableAfter (r : settings) : num :=
  Math_max 0 (Number_env (raw_AUTO_DISABLE_AFTER r) 0).

Definition auto_disable_due (r : settings) (fail : Z) : bool :=
  gt (autoDisableAfter r) 0 && ge fail (autoDisableAfter r).

(** The earlier revision:
    [Math.max(3, Number(process.env.AUTO_DISABLE_AFTER || 5))] and the test
    [failCount >= AUTO_DISABLE_AFTER]. *)
Definition legacy_AUTO_DISABLE_AFTER (r : settings) : num :=
  Math_max 3 (Number_env (raw_AUTO_DISABLE_AFTER r) 5).

Definition legacy_auto_disable_due (r : settings) (failCount : Z) : bool :=
  ge failCount (legacy_AUTO_DISABLE_AFTER r).

(** The settings of an environment whose numeric variables are unset or
    integers. *)
Definition of_env (e : environment) : settings :=
  mkSettings (option_map Fin (env_GLOBAL_MIN_GAP_SECONDS e))
             (option_map Fin (env_DEFAULT_MIN_GAP_MINUTES e))
             (option_map Fin (env_DEFAULT_DAILY_CAP e))
             (option_map Fin (env_AUTO_DISABLE_AFTER e)).

End Raw.

(** [DEFAULT_MIN_GAP_MINUTES=30] and [DEFAULT_DAILY_CAP=5]; and these two and
    [AUTO_DISABLE_AFTER] set to a text that is no number. *)
Definition ex_env_limits : environment :=
  mkEnv None (Some 30) (Some 5) None [] [] (js "jigcoinbot").

Definition ex_settings_text : Raw.settings :=
  Raw.mkSettings None (Some Raw.NaN) (Some Raw.NaN) (Some Raw.NaN).

(** A zone whose stored gap and cap are both 0, last posted to at
    2024-01-01T12:00:00Z. *)
Definition ex_zone_unlimited : Zone.t :=
  Zone.mk 10 (-1004) true (Some 0) (Some 0) (Some 0) None (Some 1704110400000).

(* ================================================================== *)
(** * Properties *)

(** ** Generic helpers *)

Lemma zrange_In (n : nat) (z : Z) : 0 <= z < Z.of_nat n -> In z (zrange n).
Proof.
  intros H. unfold zrange. apply in_map_iff. exists (Z.to_nat z). split.
  - lia.
  - apply in_seq. lia.
Qed.

Lemma forallb_zrange (n : nat) (p : Z -> bool) :
  forallb p (zrange n) = true -> forall z, 0 <= z < Z.of_nat n -> p z = true.
Proof.
  intros H z Hz. rewrite forallb_forall in H. apply H. now apply zrange_In.
Qed.

(** ** Quiet hours *)

Lemma quiet_hours_check_all :
  forallb (fun s => forallb (fun e => forallb (quiet_hours_check s e) (zrange 24))
                            (zrange 24)) (zrange 24) = true.
Proof. vm_compute. reflexivity. Qed.

(** C6. For a well-formed window "HH-HH" (both hours in 0..23) and every UTC
    hour [h], [inQuietHours] (and [isQuietNowUtc] of the earlier revision)
    answers exactly: [s <= h < e] when [s < e]; [h >= s] or [h < e] when
    [s > e] (the window wraps midnight); never when [s = e].  In particular
    "23-07" is quiet at 23, 0 and 6 and not at 7 and 22, and "09-09" is never
    quiet. *)
Theorem C6_quiet_hours_window (s e h : Z) :
  0 <= s < 24 -> 0 <= e < 24 -> 0 <= h < 24 ->
  inQuietHours (hh_hh s e) h = quiet_window s e h
  /\ Legacy.isQuietNowUtc (hh_hh s e) h = quiet_window s e h
  /\ (s < e -> (inQuietHours (hh_hh s e) h = true <-> s <= h < e))
  /\ (s > e -> (inQuietHours (hh_hh s e) h = true <-> (s <= h \/ h < e)))
  /\ (s = e -> inQuietHours (hh_hh s e) h = false)
  /\ hh_hh 23 7 = js "23-07" /\ hh_hh 9 9 = js "09-09"
  /\ map (inQuietHours (js "23-07")) [23; 0; 6; 7; 22]
     = [true; true; true; false; false]
  /\ forallb (fun h' => negb (inQuietHours (js "09-09") h')) (zrange 24) = true.
Proof.
  intros Hs He Hh.
  pose proof (forallb_zrange 24 _ quiet_hours_check_all s Hs) as H1.
  cbv beta in H1.
  pose proof (forallb_zrange 24 _ H1 e He) as H2. cbv beta in H2.
  pose proof (forallb_zrange 24 _ H2 h Hh) as H3.
  unfold quiet_hours_check in H3.
  apply andb_prop in H3. destruct H3 as [Ha Hb].
  apply Bool.eqb_prop in Ha. apply Bool.eqb_prop in Hb.
  split; [exact Ha|]. split; [exact Hb|].
  rewrite Ha. unfold quiet_window.
  repeat split; try (vm_compute; reflexivity); intros.
  - destruct (s <? e) eqn:E; [|lia].
    apply andb_prop in H0. destruct H0. lia.
  - destruct (s <? e) eqn:E; [|lia].
    apply andb_prop in H0. destruct H0. lia.
  - destruct (s <? e) eqn:E; [|lia]. apply andb_true_intro. split; lia.
  - destruct (s <? e) eqn:E; [lia|]. destruct (e <? s) eqn:E'; [|lia].
    apply orb_prop in H0. destruct H0; lia.
  - destruct (s <? e) eqn:E; [lia|]. destruct (e <? s) eqn:E'; [|lia].
    apply orb_true_intro. destruct H0; [left|right]; lia.
  - destruct (s <? e) eqn:E; [lia|]. destruct (e <? s) eqn:E'; [lia|].
    reflexivity.
Qed.

Lemma C6_quiet_hours_window_witness :
  inQuietHours (hh_hh 23 7) 6 = quiet_window 23 7 6.
Proof.
  apply (C6_quiet_hours_window 23 7 6); lia.
Defined.

(** ** Weighted selection *)

Section WeightedSelection.
Local Open Scope Q_scope.

Lemma fold_left_Qplus (ws : list Q) (a : Q) :
  fold_left Qplus ws a == a + sumQ ws.
Proof.
  revert a. induction ws as [|w ws IH]; intros a; simpl.
  - lra.
  - rewrite IH. lra.
Qed.

Lemma sum_weights_sumQ (ws : list Q) : sum_weights ws == sumQ ws.
Proof. unfold sum_weights. rewrite fold_left_Qplus. lra. Qed.

Section Walk.
Context {A : Type} (wf : A -> Q).
Hypothesis wf_nonneg : forall x, 0 <= wf x.

Lemma sumQ_nonneg (lst : list A) : 0 <= sumQ (map wf lst).
Proof.
  induction lst as [|x lst IH]; simpl; [lra|].
  specialize (wf_nonneg x). lra.
Qed.

Lemma walk_total (lst : list A) (r : Q) :
  lst <> [] -> r <= sumQ (map wf lst) -> walk_weights lst (map wf lst) r <> None.
Proof.
  revert r. induction lst as [|x lst IH]; intros r Hne Hr; [congruence|].
  simpl in *. destruct (Qle_bool (r - wf x) 0) eqn:E; [discriminate|].
  assert (Hr' : 0 < r - wf x).
  { apply Qnot_le_lt. intros Hle. apply Qle_bool_iff in Hle. congruence. }
  apply IH.
  - intros ->. simpl in Hr. lra.
  - lra.
Qed.
End Walk.

Lemma floor_index_bounds (u : Q) (n : nat) :
  0 <= u -> u < 1 -> (0 < n)%nat ->
  (floor_index u n < n)%nat
  /\ inject_Z (Z.of_nat (floor_index u n)) <= u * inject_Z (Z.of_nat n)
  /\ u * inject_Z (Z.of_nat n) < inject_Z (Z.of_nat (floor_index u n)) + 1.
Proof.
  intros H0 H1 Hn. unfold floor_index.
  set (x := u * inject_Z (Z.of_nat n)).
  assert (Hn' : 0 < inject_Z (Z.of_nat n)).
  { change 0%Q with (inject_Z 0). rewrite <- Zlt_Qlt. lia. }
  assert (Hx0 : 0 <= x) by (unfold x; nra).
  assert (Hxn : x < inject_Z (Z.of_nat n)) by (unfold x; nra).
  assert (Hf0 : (0 <= Qfloor x)%Z).
  { change 0%Z with (Qfloor 0). now apply Qfloor_resp_le. }
  pose proof (Qfloor_le x) as Hfl. pose proof (Qlt_floor x) as Hfu.
  assert (Hfn : (Qfloor x < Z.of_nat n)%Z).
  { rewrite Zlt_Qlt. lra. }
  rewrite Z2Nat.id by assumption.
  split; [lia|]. split; [assumption|].
  rewrite inject_Z_plus in Hfu. exact Hfu.
Qed.

Lemma pickWeighted_zero_total {A : Type} (weight_of : A -> jsweight)
    (items : list (option A)) (u : Q) :
  filter_Boolean items <> [] ->
  sumQ (map (fun it => clamp_weight (weight_of it)) (filter_Boolean items)) <= 0 ->
  pickWeighted weight_of items u
  = nth_error (filter_Boolean items)
              (floor_index u (length (filter_Boolean items))).
Proof.
  intros Hne Hz. unfold pickWeighted.
  destruct (filter_Boolean items) as [|x lst] eqn:E; [congruence|].
  assert (Ht : Qle_bool (sum_weights
             (map (fun it => clamp_weight (weight_of it)) (x :: lst))) 0 = true).
  { apply Qle_bool_iff. rewrite sum_weights_sumQ. exact Hz. }
  rewrite Ht. reflexivity.
Qed.

Lemma pickWeighted_positive_total {A : Type} (weight_of : A -> jsweight)
    (items : list (option A)) (u : Q) :
  0 < sumQ (map (fun it => clamp_weight (weight_of it)) (filter_Boolean items)) ->
  u < 1 ->
  exists it,
    pickWeighted weight_of items u = Some it
    /\ walk_weights (filter_Boolean items)
         (map (fun it => clamp_weight (weight_of it)) (filter_Boolean items))
         (u * sum_weights (map (fun it => clamp_weight (weight_of it))
                               (filter_Boolean items))) = Some it.
Proof.
  intros Hpos Hu. unfold pickWeighted.
  destruct (filter_Boolean items) as [|x lst] eqn:E; [simpl in Hpos; lra|].
  set (wf := fun it => clamp_weight (weight_of it)) in *.
  set (total := sum_weights (map wf (x :: lst))).
  assert (Ht : total == sumQ (map wf (x :: lst))) by apply sum_weights_sumQ.
  assert (Hb : Qle_bool total 0 = false).
  { destruct (Qle_bool total 0) eqn:Eb; [|reflexivity].
    apply Qle_bool_iff in Eb. lra. }
  rewrite Hb.
  destruct (walk_weights (x :: lst) (map wf (x :: lst)) (u * total)) as [it|] eqn:W.
  - exists it. split; reflexivity.
  - exfalso. revert W. apply walk_total.
    + discriminate.
    + nra.
Qed.

End WeightedSelection.

(** ** The cycle: what a run of [promoCycle] can be *)

Lemma logPostAttempt_zones w st zid chat tid mid link tmid status err :
  promo_zones (fst (logPostAttempt w st zid chat tid mid link tmid status err))
  = promo_zones st
  /\ lastGlobalPostAt (fst (logPostAttempt w st zid chat tid mid link tmid status err))
     = lastGlobalPostAt st
  /\ sends (snd (logPostAttempt w st zid chat tid mid link tmid status err)) = [].
Proof.
  unfold logPostAttempt.
  destruct (log_insert_ok w); [repeat split|].
  destruct (log_fallback_ok w); repeat split.
Qed.

Lemma on_sent_effect w st zone tpl link sent :
  promo_zones (fst (on_sent w st zone tpl link sent))
  = map (posted_row w (Zone.id zone)) (promo_zones st)
  /\ lastGlobalPostAt (fst (on_sent w st zone tpl link sent)) = t_now w
  /\ sends (snd (on_sent w st zone tpl link sent)) = [].
Proof.
  unfold on_sent.
  pose proof (logPostAttempt_zones w st (Zone.id zone) (Zone.telegram_chat_id zone)
                (Template.id tpl) (Template._message_id tpl) link sent success None)
    as (Hz & _ & Hs).
  destruct (logPostAttempt _ _ _ _ _ _ _ _ _ _) as [st1 tr]. simpl in *.
  rewrite Hz. repeat split.
  unfold sends in *. rewrite filter_app, Hs. reflexivity.
Qed.

Lemma promoCycle_spec (e : environment) (w : world) (st : state) :
  (promoCycle e w st = (st, []) \/ promoCycle e w st = (st, [EvConsole CYCLE_ERROR]))
  \/ exists zone tpl link,
       reaches_send e w st zone tpl link
       /\ match send_result w with
          | Sent sent =>
              promoCycle e w st
              = (fst (on_sent w st zone tpl link sent),
                 EvSend zone (t_now w) link true
                 :: snd (on_sent w st zone tpl link sent))
          | Rejected msg =>
              promoCycle e w st
              = (fst (on_rejected e w st zone tpl link msg),
                 EvSend zone (t_now w) link false
                 :: snd (on_rejected e w st zone tpl link msg))
          end.
Proof.
  unfold promoCycle.
  destruct (inQuietHours _ _) eqn:Hq; [left; left; reflexivity|].
  unfold fetchZones. destruct (fetch_zones_error w) eqn:Hf; [left; right; reflexivity|].
  destruct (nth_error _ _) as [zone|] eqn:Hn; [|left; left; reflexivity].
  apply nth_error_In in Hn. apply filter_In in Hn. destruct Hn as [Hin Hen].
  unfold postToZone.
  destruct (_ <? _) eqn:Hg; [left; left; reflexivity|].
  destruct (in_cooldown _ _ _) eqn:Hc; [left; left; reflexivity|].
  unfold countTodaySuccessPosts.
  destruct (count_error w) eqn:Hce; [left; right; reflexivity|].
  destruct (_ <=? _) eqn:Hcap; [left; left; reflexivity|].
  destruct (pickWeighted _ _ _) as [tpl|] eqn:Hp; [|left; left; reflexivity].
  destruct (buildDeepLink _ _ _ _) as [link|] eqn:Hb; [|left; right; reflexivity].
  right. exists zone, tpl, link. split.
  - unfold reaches_send, todayCount. repeat split; try assumption; lia.
  - destruct (send_result w) as [sent|msg].
    + destruct (on_sent _ _ _ _ _ _). reflexivity.
    + destruct (on_rejected _ _ _ _ _ _ _). reflexivity.
Qed.

Lemma In_sends (ev : event) (tr : list event) :
  In ev tr -> is_send ev = true -> In ev (sends tr).
Proof. intros H1 H2. unfold sends. apply filter_In. now split. Qed.

Lemma update_zones_zones zid f st :
  promo_zones (update_zones zid f st)
  = map (fun z => if Zone.id z =? zid then f z else z) (promo_zones st).
Proof. reflexivity. Qed.

Lemma filter_id_map (f : Zone.t -> Zone.t) (zid : Z) (zones : list Zone.t) :
  (forall z, Zone.id (f z) = Zone.id z) ->
  filter (fun z => Zone.id z =? zid) (map f zones)
  = map f (filter (fun z => Zone.id z =? zid) zones).
Proof.
  intros Hf. induction zones as [|z zones IH]; simpl; [reflexivity|].
  rewrite Hf. destruct (Zone.id z =? zid); simpl; now rewrite IH.
Qed.

Lemma filter_id_absent (zid : Z) (zones : list Zone.t) :
  ~ In zid (map Zone.id zones) ->
  filter (fun z => Zone.id z =? zid) zones = [].
Proof.
  induction zones as [|z zones IH]; simpl; [reflexivity|]. intros H.
  destruct (Z.eqb_spec (Zone.id z) zid) as [E|E]; [tauto|]. apply IH. tauto.
Qed.

Lemma filter_id_unique (zone : Zone.t) (zones : list Zone.t) :
  NoDup (map Zone.id zones) -> In zone zones ->
  filter (fun z => Zone.id z =? Zone.id zone) zones = [zone].
Proof.
  induction zones as [|z zones IH]; simpl; [tauto|].
  intros Hnd Hin. inversion Hnd as [|? ? Hni Hnd']; subst.
  destruct Hin as [->|Hin].
  - rewrite Z.eqb_refl. f_equal. now apply filter_id_absent.
  - destruct (Z.eqb_spec (Zone.id z) (Zone.id zone)) as [E|E].
    + exfalso. apply Hni. rewrite E. now apply in_map.
    + now apply IH.
Qed.

Lemma unique_row (zone z : Zone.t) (zones : list Zone.t) :
  NoDup (map Zone.id zones) -> In zone zones -> In z zones ->
  Zone.id z = Zone.id zone -> z = zone.
Proof.
  intros Hnd Hzone Hz E.
  pose proof (filter_id_unique zone zones Hnd Hzone) as Hf.
  assert (Hin : In z (filter (fun z => Zone.id z =? Zone.id zone) zones)).
  { apply filter_In. split; [assumption|]. now apply Z.eqb_eq. }
  rewrite Hf in Hin. destruct Hin as [<-|[]]. reflexivity.
Qed.

Lemma on_rejected_sends e w st zone tpl link msg :
  sends (snd (on_rejected e w st zone tpl link msg)) = []
  /\ lastGlobalPostAt (fst (on_rejected e w st zone tpl link msg))
     = lastGlobalPostAt st.
Proof.
  unfold on_rejected.
  pose proof (logPostAttempt_zones w st (Zone.id zone) (Zone.telegram_chat_id zone)
                (Template.id tpl) (Template._message_id tpl) link None failed
                (Some msg)) as (_ & Hl & Hs).
  destruct (logPostAttempt _ _ _ _ _ _ _ _ _ _) as [st1 tr]. simpl in *.
  assert (Hi : forall s, lastGlobalPostAt (incrementFailCount w (Zone.id zone) s)
                         = lastGlobalPostAt s).
  { intros s. unfold incrementFailCount.
    destruct (fail_count_error w); [reflexivity|].
    destruct (filter _ _) as [|d [|]]; reflexivity. }
  destruct (_ && _); simpl; unfold sends in *; simpl.
  - rewrite filter_app, Hs. simpl. split; [reflexivity|]. now rewrite Hi.
  - rewrite Hs. split; [reflexivity|]. now rewrite Hi.
Qed.

Lemma on_rejected_zones e w st zone tpl link msg :
  NoDup (map Zone.id (promo_zones st)) -> In zone (promo_zones st) ->
  promo_zones (fst (on_rejected e w st zone tpl link msg))
  = map (rejected_row e w (Zone.id zone) msg) (promo_zones st).
Proof.
  intros Hnd Hin. unfold on_rejected.
  pose proof (logPostAttempt_zones w st (Zone.id zone) (Zone.telegram_chat_id zone)
                (Template.id tpl) (Template._message_id tpl) link None failed
                (Some msg)) as (Hz & _ & _).
  destruct (logPostAttempt _ _ _ _ _ _ _ _ _ _) as [st1 tr]. simpl in Hz.
  set (zid := Zone.id zone).
  set (f1 := fun z => if Zone.id z =? zid then set_last_error (slice0 500 msg) z else z).
  assert (Hf1 : forall z, Zone.id (f1 z) = Zone.id z).
  { intros z. unfold f1. destruct (Zone.id z =? zid); reflexivity. }
  assert (Hinc : promo_zones (incrementFailCount w zid
                   (update_zones zid (set_last_error (slice0 500 msg)) st1))
                 = map (fun z => if Zone.id z =? zid
                                 then if fail_count_error w then z
                                      else set_fail_count
                                             (Number_or (Zone.fail_count zone) 0 + 1) z
                                 else z)
                       (map f1 (promo_zones st))).
  { unfold incrementFailCount. destruct (fail_count_error w).
    { rewrite update_zones_zones, Hz. fold f1.
      rewrite <- (map_id (map f1 (promo_zones st))) at 1.
      apply map_ext. intros z. now destruct (Zone.id z =? zid). }
    rewrite update_zones_zones, Hz. fold f1.
    rewrite filter_id_map by exact Hf1.
    unfold zid. rewrite (filter_id_unique zone _ Hnd Hin). simpl.
    unfold f1 at 1. unfold zid. rewrite Z.eqb_refl. simpl.
    rewrite Hz. reflexivity. }
  assert (Hrow : forall z, In z (promo_zones st) -> Zone.id z = zid -> z = zone).
  { intros z Hz' E. now apply (unique_row zone z (promo_zones st)). }
  assert (Hpt : forall z, In z (promo_zones st) ->
            (if Zone.id z =? zid then Some zone else None)
            = (if Zone.id z =? zid then Some z else None)).
  { intros z Hz'. destruct (Z.eqb_spec (Zone.id z) zid) as [E|E]; [|reflexivity].
    now rewrite (Hrow z Hz' E). }
  destruct (_ && _) eqn:Hd; cbn [fst].
  - rewrite update_zones_zones, Hinc. rewrite !map_map.
    apply map_ext_in. intros z Hz'. specialize (Hpt z Hz').
    unfold f1, rejected_row. fold zid.
    destruct (Zone.id z =? zid) eqn:E; cbn; rewrite ?E; cbn; rewrite ?E;
      [|reflexivity].
    injection Hpt as <-. rewrite Hd.
    destruct (fail_count_error w); cbn; rewrite ?E; reflexivity.
  - rewrite Hinc. rewrite !map_map.
    apply map_ext_in. intros z Hz'. specialize (Hpt z Hz').
    unfold f1, rejected_row. fold zid.
    destruct (Zone.id z =? zid) eqn:E; cbn; rewrite ?E; cbn; [|reflexivity].
    injection Hpt as <-. rewrite Hd.
    destruct (fail_count_error w); cbn; reflexivity.
Qed.

(** ** Row by row: what a cycle and a run do to [promo_zones] *)

Lemma row_step_refl e w r : row_step e w r r.
Proof. unfold row_step. tauto. Qed.

Lemma incrementFailCount_rows (w : world) (zid : Z) (st : state) :
  promo_zones (incrementFailCount w zid st) = promo_zones st
  \/ promo_zones (incrementFailCount w zid st)
     = map (fun z => if Zone.id z =? zid
                     then set_fail_count (Number_or (Zone.fail_count z) 0 + 1) z
                     else z) (promo_zones st).
Proof.
  unfold incrementFailCount. destruct (fail_count_error w); [now left|].
  destruct (filter _ _) as [|data [|]] eqn:Hf; [now left| |now left].
  right. rewrite update_zones_zones. apply map_ext_in. intros z Hz.
  destruct (Zone.id z =? zid) eqn:E; [|reflexivity].
  assert (Hin : In z (filter (fun z => Zone.id z =? zid) (promo_zones st))).
  { apply filter_In. now split. }
  rewrite Hf in Hin. destruct Hin as [->|[]]. reflexivity.
Qed.

Lemma on_rejected_rows e w st zone tpl link msg :
  exists g, promo_zones (fst (on_rejected e w st zone tpl link msg))
            = map g (promo_zones st)
            /\ forall r, row_step e w r (g r).
Proof.
  unfold on_rejected.
  pose proof (logPostAttempt_zones w st (Zone.id zone) (Zone.telegram_chat_id zone)
                (Template.id tpl) (Template._message_id tpl) link None failed
                (Some msg)) as (Hz & _ & _).
  destruct (logPostAttempt _ _ _ _ _ _ _ _ _ _) as [st1 tr]. simpl in Hz.
  set (zid := Zone.id zone).
  set (st2 := update_zones zid (set_last_error (slice0 500 msg)) st1).
  assert (H2 : promo_zones st2
               = map (fun z => if Zone.id z =? zid
                               then set_last_error (slice0 500 msg) z else z)
                     (promo_zones st)).
  { unfold st2. now rewrite update_zones_zones, Hz. }
  destruct (_ && _) eqn:Hd; cbn [fst].
  - apply andb_prop in Hd. destruct Hd as [Hpos _]. apply Z.ltb_lt in Hpos.
    rewrite update_zones_zones.
    destruct (incrementFailCount_rows w zid st2) as [H3|H3]; rewrite H3, H2;
      rewrite ?map_map; eexists; (split; [reflexivity|]);
      intros r; cbv beta; unfold row_step;
      destruct (Zone.id r =? zid) eqn:E; cbn; rewrite ?E; cbn; rewrite ?E; cbn;
      tauto.
  - destruct (incrementFailCount_rows w zid st2) as [H3|H3]; rewrite H3, H2;
      rewrite ?map_map; eexists; (split; [reflexivity|]);
      intros r; cbv beta; unfold row_step;
      destruct (Zone.id r =? zid) eqn:E; cbn; rewrite ?E; cbn; tauto.
Qed.

Lemma promoCycle_rows (e : environment) (w : world) (st : state) :
  exists g, promo_zones (fst (promoCycle e w st)) = map g (promo_zones st)
            /\ forall r, row_step e w r (g r).
Proof.
  destruct (promoCycle_spec e w st) as [[H|H]|(zone & tpl & link & _ & H)].
  - rewrite H. exists (fun r => r). split; [now rewrite map_id|].
    intros; apply row_step_refl.
  - rewrite H. exists (fun r => r). split; [now rewrite map_id|].
    intros; apply row_step_refl.
  - destruct (send_result w) as [sent|msg]; rewrite H; cbn [fst].
    + destruct (on_sent_effect w st zone tpl link sent) as (Hz & _).
      rewrite Hz. eexists. split; [reflexivity|].
      intros r. unfold posted_row, row_step.
      destruct (Zone.id r =? Zone.id zone); cbn; tauto.
    + apply on_rejected_rows.
Qed.

Lemma run_rows (e : environment) (P : Zone.t -> Zone.t -> Prop) :
  (forall r, P r r) ->
  (forall a b c, P a b -> P b c -> P a c) ->
  forall ws,
  (forall w r r', In w ws -> row_step e w r r' -> P r r') ->
  forall st,
  exists G, promo_zones (fst (run e ws st)) = map G (promo_zones st)
            /\ forall r, P r (G r).
Proof.
  intros Hrefl Htrans. induction ws as [|w ws IH]; intros Hstep st.
  - exists (fun r => r). simpl. split; [now rewrite map_id|auto].
  - simpl. destruct (promoCycle_rows e w st) as (g & Hg & Hgs).
    destruct (promoCycle e w st) as [st1 tr1]. simpl in Hg.
    destruct (IH (fun w' r r' Hw => Hstep w' r r' (or_intror Hw)) st1)
      as (G & HG & HGs).
    destruct (run e ws st1) as [st2 tr2]. simpl in *.
    exists (fun r => G (g r)). split.
    + now rewrite HG, Hg, map_map.
    + intros r. eapply Htrans; [apply (Hstep w); [now left|apply Hgs]|apply HGs].
Qed.

(** ** C1: a delivered send and the failure counter *)

Lemma promoCycle_delivered e w st st' tr zone now link :
  promoCycle e w st = (st', tr) -> In (EvSend zone now link true) tr ->
  exists tpl sent,
    reaches_send e w st zone tpl link /\ now = t_now w
    /\ send_result w = Sent sent
    /\ st' = fst (on_sent w st zone tpl link sent)
    /\ tr = EvSend zone (t_now w) link true :: snd (on_sent w st zone tpl link sent).
Proof.
  intros Hc Hin.
  destruct (promoCycle_spec e w st) as [[H|H]|(zone' & tpl & link' & Hr & H)].
  - rewrite H in Hc. injection Hc as <- <-. destruct Hin.
  - rewrite H in Hc. injection Hc as <- <-. destruct Hin as [Hin|[]]. discriminate.
  - destruct (send_result w) as [sent|msg] eqn:Hs; rewrite H in Hc;
      injection Hc as <- <-.
    + destruct Hin as [Hin|Hin].
      * injection Hin as -> <- ->. exists tpl, sent.
        split; [exact Hr|repeat split].
      * apply In_sends in Hin; [|reflexivity].
        destruct (on_sent_effect w st zone' tpl link' sent) as (_ & _ & Hs').
        rewrite Hs' in Hin. destruct Hin.
    + destruct Hin as [Hin|Hin]; [discriminate|].
      apply In_sends in Hin; [|reflexivity].
      destruct (on_rejected_sends e w st zone' tpl link' msg) as (Hs' & _).
      rewrite Hs' in Hin. destruct Hin.
Qed.

Lemma promoCycle_rejected e w st st' tr zone now link :
  promoCycle e w st = (st', tr) -> In (EvSend zone now link false) tr ->
  exists tpl msg,
    reaches_send e w st zone tpl link /\ now = t_now w
    /\ send_result w = Rejected msg
    /\ st' = fst (on_rejected e w st zone tpl link msg)
    /\ tr = EvSend zone (t_now w) link false
            :: snd (on_rejected e w st zone tpl link msg).
Proof.
  intros Hc Hin.
  destruct (promoCycle_spec e w st) as [[H|H]|(zone' & tpl & link' & Hr & H)].
  - rewrite H in Hc. injection Hc as <- <-. destruct Hin.
  - rewrite H in Hc. injection Hc as <- <-. destruct Hin as [Hin|[]]. discriminate.
  - destruct (send_result w) as [sent|msg] eqn:Hs; rewrite H in Hc;
      injection Hc as <- <-.
    + destruct Hin as [Hin|Hin]; [discriminate|].
      apply In_sends in Hin; [|reflexivity].
      destruct (on_sent_effect w st zone' tpl link' sent) as (_ & _ & Hs').
      rewrite Hs' in Hin. destruct Hin.
    + destruct Hin as [Hin|Hin].
      * injection Hin as -> <- ->. exists tpl, msg.
        split; [exact Hr|repeat split].
      * apply In_sends in Hin; [|reflexivity].
        destruct (on_rejected_sends e w st zone' tpl link' msg) as (Hs' & _).
        rewrite Hs' in Hin. destruct Hin.
Qed.

(** C1, as the code has it.  A delivered send rewrites the rows of the
    destination with [last_error] cleared and [last_posted_at] set, and leaves
    [fail_count] as it was; over any number of cycles no row's [fail_count]
    ever decreases, so nothing resets it: not a delivered send, and not
    disabling the destination. *)
Theorem C1_success_clears_error_keeps_failCount :
  (forall e w st st' tr zone now link,
      promoCycle e w st = (st', tr) ->
      In (EvSend zone now link true) tr ->
      promo_zones st' = map (posted_row w (Zone.id zone)) (promo_zones st)
      /\ Zone.last_error (posted_row w (Zone.id zone) zone) = None
      /\ Zone.last_posted_at (posted_row w (Zone.id zone) zone) = Some (t_posted w)
      /\ forall r, Zone.fail_count (posted_row w (Zone.id zone) r) = Zone.fail_count r)
  /\ (forall e ws st,
      exists G,
        promo_zones (fst (run e ws st)) = map G (promo_zones st)
        /\ forall r, Zone.id (G r) = Zone.id r
                     /\ Number_or (Zone.fail_count r) 0
                        <= Number_or (Zone.fail_count (G r)) 0)
  /\ (forall r, Zone.fail_count (set_disabled r) = Zone.fail_count r).
Proof.
  split; [|split].
  - intros e w st st' tr zone now link Hc Hin.
    destruct (promoCycle_delivered e w st st' tr zone now link Hc Hin)
      as (tpl & sent & _ & _ & _ & -> & _).
    destruct (on_sent_effect w st zone tpl link sent) as (Hz & _).
    split; [exact Hz|]. unfold posted_row. rewrite Z.eqb_refl.
    repeat split. intros r. destruct (Zone.id r =? Zone.id zone); reflexivity.
  - intros e ws st.
    apply (run_rows e (fun r r' => Zone.id r' = Zone.id r
                         /\ Number_or (Zone.fail_count r) 0
                            <= Number_or (Zone.fail_count r') 0)).
    + intros r. split; [reflexivity|lia].
    + intros a b c [H1 H2] [H3 H4]. split; [congruence|lia].
    + intros w r r' _ (Hid & _ & _ & _ & Hf & _). split; [exact Hid|].
      destruct Hf as [->| ->]; [lia|].
      destruct (Zone.fail_count r) as [[|n|n]|]; simpl; try lia.
      destruct n; simpl; lia.
  - reflexivity.
Qed.

Lemma C1_success_clears_error_keeps_failCount_witness :
  promo_zones (fst (promoCycle ex_env ex_world_sent ex_state))
  = map (posted_row ex_world_sent (Zone.id ex_zone)) (promo_zones ex_state).
Proof.
  refine (proj1 (proj1 C1_success_clears_error_keeps_failCount
                   ex_env ex_world_sent ex_state
                   (fst (promoCycle ex_env ex_world_sent ex_state))
                   (snd (promoCycle ex_env ex_world_sent ex_state))
                   ex_zone 1704110400000
                   (js "https://t.me/jigcoinbot?start=pz_7_t_soft_1") _ _)).
  - vm_compute. reflexivity.
  - vm_compute. left. reflexivity.
Defined.

(** C1 as stated fails: the zone has failed twice, a send to it is
    delivered, and its [fail_count] is still 2, not 0. *)
Lemma C1_counterexample :
  let st' := fst (promoCycle ex_env ex_world_sent ex_state) in
  Zone.fail_count ex_zone = Some 2
  /\ sends (snd (promoCycle ex_env ex_world_sent ex_state))
     = [EvSend ex_zone 1704110400000
               (js "https://t.me/jigcoinbot?start=pz_7_t_soft_1") true]
  /\ map Zone.fail_count (promo_zones st') = [Some 2]
  /\ map Zone.fail_count (promo_zones st') <> [Some 0]
  /\ map Zone.last_error (promo_zones st') = [None].
Proof. vm_compute. repeat split; discriminate. Qed.

(** ** C2: a rejected send *)

Lemma run_keeps_enabled (e : environment) (ws : list world) (st : state) :
  autoDisableAfter e = 0 ->
  map Zone.is_enabled (promo_zones (fst (run e ws st)))
  = map Zone.is_enabled (promo_zones st).
Proof.
  intros H0.
  destruct (run_rows e (fun r r' => Zone.is_enabled r' = Zone.is_enabled r))
    with (ws := ws) (st := st) as (G & HG & HGs).
  - reflexivity.
  - intros a b c H1 H2. congruence.
  - intros w r r' _ (_ & _ & _ & _ & _ & He & _).
    destruct He as [He|[_ He]]; [exact He|lia].
  - rewrite HG, map_map. apply map_ext. exact HGs.
Qed.

Lemma autoDisableAfter_off (e : environment) :
  env_AUTO_DISABLE_AFTER e = None
  \/ (exists n, env_AUTO_DISABLE_AFTER e = Some n /\ n <= 0) ->
  autoDisableAfter e = 0.
Proof.
  unfold autoDisableAfter. intros [-> | (n & -> & Hn)]; simpl; lia.
Qed.

Lemma autoDisableAfter_set (e : environment) (n : Z) :
  env_AUTO_DISABLE_AFTER e = Some n -> 0 < n -> autoDisableAfter e = n.
Proof. unfold autoDisableAfter. intros -> Hn. simpl. lia. Qed.

(** C2, as the code has it.  In [src/index.js], when a cycle's send to a zone
    is rejected with message [msg], the zone's row (ids being unique in
    [promo_zones]) gets [last_error] set to the first 500 units of [msg];
    its [fail_count] is incremented by one when the query of
    [incrementFailCount] succeeds and left as it was when that query reports
    an error; with [AUTO_DISABLE_AFTER] set to [n > 0] the row is disabled in
    that same cycle exactly when the count the cycle started from, plus one,
    has reached [n], whether or not the increment was written; every other
    row is untouched.  With [AUTO_DISABLE_AFTER] unset, 0 or negative no run
    of cycles, however many sends fail, changes any [is_enabled].  In the
    earlier revision, with the variable unset or an integer, the threshold
    is never off: it is 5 when the variable is unset, and a configured value
    is raised to at least 3; the zone is disabled when the count plus one
    has reached it.  With the variable set to a text that is no number the
    threshold is [NaN] and neither revision disables. *)
Theorem C2_rejected_send_escalates :
  (forall e w st st' tr zone now link,
      NoDup (map Zone.id (promo_zones st)) ->
      promoCycle e w st = (st', tr) ->
      In (EvSend zone now link false) tr ->
      exists msg,
        send_result w = Rejected msg
        /\ In zone (promo_zones st)
        /\ promo_zones st' = map (rejected_row e w (Zone.id zone) msg) (promo_zones st)
        /\ (forall r, Zone.id r <> Zone.id zone ->
                      rejected_row e w (Zone.id zone) msg r = r)
        /\ Zone.last_error (rejected_row e w (Zone.id zone) msg zone)
           = Some (slice0 500 msg)
        /\ (fail_count_error w = false ->
            Zone.fail_count (rejected_row e w (Zone.id zone) msg zone)
            = Some (Number_or (Zone.fail_count zone) 0 + 1))
        /\ (fail_count_error w = true ->
            Zone.fail_count (rejected_row e w (Zone.id zone) msg zone)
            = Zone.fail_count zone)
        /\ (forall n, env_AUTO_DISABLE_AFTER e = Some n -> 0 < n ->
            n <= Number_or (Zone.fail_count zone) 0 + 1 ->
            Zone.is_enabled (rejected_row e w (Zone.id zone) msg zone) = false)
        /\ (forall n, env_AUTO_DISABLE_AFTER e = Some n ->
            Number_or (Zone.fail_count zone) 0 + 1 < n ->
            Zone.is_enabled (rejected_row e w (Zone.id zone) msg zone)
            = Zone.is_enabled zone))
  /\ (forall e ws st,
      env_AUTO_DISABLE_AFTER e = None
      \/ (exists n, env_AUTO_DISABLE_AFTER e = Some n /\ n <= 0) ->
      map Zone.is_enabled (promo_zones (fst (run e ws st)))
      = map Zone.is_enabled (promo_zones st))
  /\ (forall e zone st,
      3 <= Legacy.AUTO_DISABLE_AFTER e
      /\ (env_AUTO_DISABLE_AFTER e = None -> Legacy.AUTO_DISABLE_AFTER e = 5)
      /\ (forall n, env_AUTO_DISABLE_AFTER e = Some n ->
                    Legacy.AUTO_DISABLE_AFTER e = Z.max 3 n)
      /\ (Legacy.AUTO_DISABLE_AFTER e <= Number_or (Zone.fail_count zone) 0 + 1 ->
          promo_zones (Legacy.auto_disable e zone st)
          = map (fun z => if Zone.id z =? Zone.id zone then set_disabled z else z)
                (promo_zones st))
      /\ (Number_or (Zone.fail_count zone) 0 + 1 < Legacy.AUTO_DISABLE_AFTER e ->
          Legacy.auto_disable e zone st = st))
  /\ (forall e fail,
      Raw.auto_disable_due (Raw.of_env e) fail
      = (0 <? autoDisableAfter e) && (autoDisableAfter e <=? fail)
      /\ Raw.legacy_auto_disable_due (Raw.of_env e) fail
         = (Legacy.AUTO_DISABLE_AFTER e <=? fail))
  /\ (forall r fail,
      Raw.raw_AUTO_DISABLE_AFTER r = Some Raw.NaN ->
      Raw.auto_disable_due r fail = false
      /\ Raw.legacy_auto_disable_due r fail = false).
Proof.
  split; [|split; [|split; [|split]]].
  - intros e w st st' tr zone now link Hnd Hc Hin.
    destruct (promoCycle_rejected e w st st' tr zone now link Hc Hin)
      as (tpl & msg & Hr & _ & Hs & -> & _).
    exists msg. destruct Hr as (Hzone & _).
    split; [exact Hs|]. split; [exact Hzone|].
    split; [now apply on_rejected_zones|].
    unfold rejected_row. rewrite Z.eqb_refl. cbn.
    split.
    { intros r Hr. destruct (Z.eqb_spec (Zone.id r) (Zone.id zone)); [contradiction|].
      reflexivity. }
    split; [reflexivity|].
    split; [now intros ->|]. split; [now intros ->|].
    split.
    + intros n Hn Hpos Hle. rewrite (autoDisableAfter_set e n Hn Hpos).
      assert (E : ((0 <? n) && (n <=? Number_or (Zone.fail_count zone) 0 + 1))
                  = true).
      { apply andb_true_intro. split; [now apply Z.ltb_lt|now apply Z.leb_le]. }
      now rewrite E.
    + intros n Hn Hlt.
      assert (E : (autoDisableAfter e <=? Number_or (Zone.fail_count zone) 0 + 1)
                  = false).
      { apply Z.leb_gt. unfold autoDisableAfter. rewrite Hn. simpl.
        unfold Number_or in *. destruct (Zone.fail_count zone) as [[| |]|]; lia. }
      rewrite E. now rewrite andb_false_r.
  - intros e ws st He. apply run_keeps_enabled. now apply autoDisableAfter_off.
  - intros e zone st. unfold Legacy.auto_disable, Legacy.AUTO_DISABLE_AFTER.
    split; [lia|]. split; [now intros ->|]. split; [now intros n ->|].
    split.
    + intros H. apply Z.leb_le in H. cbv zeta. rewrite H.
      apply update_zones_zones.
    + intros H. apply Z.leb_gt in H. cbv zeta. now rewrite H.
  - intros e fail.
    unfold Raw.auto_disable_due, Raw.legacy_auto_disable_due,
      Raw.autoDisableAfter, Raw.legacy_AUTO_DISABLE_AFTER, autoDisableAfter,
      Legacy.AUTO_DISABLE_AFTER. simpl.
    destruct (env_AUTO_DISABLE_AFTER e); split; reflexivity.
  - intros r fail Hr.
    unfold Raw.auto_disable_due, Raw.legacy_auto_disable_due,
      Raw.autoDisableAfter, Raw.legacy_AUTO_DISABLE_AFTER.
    rewrite Hr. split; reflexivity.
Qed.

Lemma C2_rejected_send_escalates_witness :
  exists msg,
    send_result ex_world_rejected = Rejected msg
    /\ promo_zones (fst (promoCycle ex_env ex_world_rejected ex_state))
       = map (rejected_row ex_env ex_world_rejected (Zone.id ex_zone) msg)
             (promo_zones ex_state)
    /\ Zone.fail_count (rejected_row ex_env ex_world_rejected (Zone.id ex_zone)
                                     msg ex_zone) = Some 3
    /\ Zone.is_enabled (rejected_row ex_env ex_world_rejected (Zone.id ex_zone)
                                     msg ex_zone) = false.
Proof.
  destruct (proj1 C2_rejected_send_escalates
              ex_env ex_world_rejected ex_state
              (fst (promoCycle ex_env ex_world_rejected ex_state))
              (snd (promoCycle ex_env ex_world_rejected ex_state))
              ex_zone 1704110400000
              (js "https://t.me/jigcoinbot?start=pz_7_t_soft_1"))
    as (msg & Hs & _ & Hz & _ & _ & Hf & _ & Hd & _).
  - vm_compute. constructor; [intros []|constructor].
  - vm_compute. reflexivity.
  - vm_compute. left. reflexivity.
  - exists msg. split; [exact Hs|]. split; [exact Hz|]. split.
    + exact (Hf eq_refl).
    + apply (Hd 3); [reflexivity|lia|vm_compute; discriminate].
Defined.

(** C2 as stated fails in two places.  In the earlier revision an unset
    threshold does not switch auto-disable off: a zone that has failed four
    times is disabled by its fifth failure.  In [src/index.js] a failed send
    need not increment the counter: when the query of [incrementFailCount]
    reports an error the stored count stays at 2, and the zone is disabled
    all the same, on the count the cycle started from. *)
Lemma C2_counterexample :
  env_AUTO_DISABLE_AFTER ex_env_unset = None
  /\ map Zone.is_enabled
         (promo_zones (Legacy.auto_disable ex_env_unset ex_zone_failed4
                                           (mkState [ex_zone_failed4] [] 0)))
     = [false]
  /\ map (fun z => (Zone.fail_count z, Zone.is_enabled z))
         (promo_zones (fst (promoCycle ex_env ex_world_rejected_unread ex_state)))
     = [(Some 2, false)]
  /\ sends (snd (promoCycle ex_env ex_world_rejected_unread ex_state))
     = [EvSend ex_zone 1704110400000
               (js "https://t.me/jigcoinbot?start=pz_7_t_soft_1") false].
Proof. vm_compute. repeat split. Qed.

(** The zone of the example had failed twice; with [AUTO_DISABLE_AFTER=3]
    the third failure disables it in the cycle of that failure. *)
Example rejected_third_failure_disables :
  map (fun z => (Zone.fail_count z, Zone.is_enabled z))
      (promo_zones (fst (promoCycle ex_env ex_world_rejected ex_state)))
  = [(Some 3, false)].
Proof. vm_compute. reflexivity. Qed.

(** The earlier revision never lets the threshold be 0: unset it is 5, and
    any configured value is raised to at least 3. *)
Example legacy_threshold_is_clamped :
  Legacy.AUTO_DISABLE_AFTER (mkEnv None None None None [] [] []) = 5
  /\ Legacy.AUTO_DISABLE_AFTER (mkEnv None None None (Some 0) [] [] []) = 3.
Proof. split; reflexivity. Qed.

(** ** C3: the gates *)

Lemma minGap_ge_stored (e : environment) (zone : Zone.t) (g : Z) :
  Zone.min_gap_minutes zone = Some g -> g <= minGap e zone.
Proof.
  unfold minGap, DEFAULT_MIN_GAP_MINUTES. intros ->.
  destruct g; simpl; lia.
Qed.

Lemma dailyCap_stored (e : environment) (zone : Zone.t) (c : Z) :
  Zone.daily_cap zone = Some c -> 1 <= c -> dailyCap e zone = c.
Proof. unfold dailyCap. intros -> H. destruct c; simpl; lia. Qed.

Lemma promoCycle_send e w st zone now link ok :
  In (EvSend zone now link ok) (snd (promoCycle e w st)) ->
  now = t_now w /\ exists tpl, reaches_send e w st zone tpl link.
Proof.
  intros Hin. destruct (promoCycle e w st) as [st' tr] eqn:Hc. simpl in Hin.
  destruct ok.
  - destruct (promoCycle_delivered e w st st' tr zone now link Hc Hin)
      as (tpl & sent & Hr & Hn & _). split; [exact Hn|]. now exists tpl.
  - destruct (promoCycle_rejected e w st st' tr zone now link Hc Hin)
      as (tpl & msg & Hr & Hn & _). split; [exact Hn|]. now exists tpl.
Qed.

Lemma blocked_no_send e w st zone :
  blocked e w st zone ->
  forall now link ok, ~ In (EvSend zone now link ok) (snd (promoCycle e w st)).
Proof.
  intros Hb now link ok Hin.
  destruct (promoCycle_send e w st zone now link ok Hin)
    as (_ & tpl & _ & Hen & _ & _ & Hg & Hc & _ & Hcap & _).
  unfold in_cooldown in Hc.
  destruct Hb as [H|[H|[(last & Hl & H)|[(last & g & Hl & Hg' & H)|[H|(c & Hc' & H1 & H)]]]]].
  - lia.
  - congruence.
  - rewrite Hl in Hc. apply Z.ltb_ge in Hc. lia.
  - rewrite Hl in Hc. apply Z.ltb_ge in Hc.
    pose proof (minGap_ge_stored e zone g Hg'). lia.
  - lia.
  - rewrite (dailyCap_stored e zone c Hc' H1) in Hcap. lia.
Qed.

Lemma send_after_delivery e w1 st zone1 now1 link1 ws w2 zone2 now2 link2 ok2 :
  In (EvSend zone1 now1 link1 true) (snd (promoCycle e w1 st)) ->
  t_now w1 <= t_posted w1 ->
  Forall (fun w => t_posted w1 <= t_posted w) ws ->
  In (EvSend zone2 now2 link2 ok2)
     (snd (promoCycle e w2 (fst (run e ws (fst (promoCycle e w1 st)))))) ->
  Zone.id zone2 = Zone.id zone1 ->
  minGap e zone2 * 60000 <= now2 - now1.
Proof.
  intros H1 Hclock Hws H2 Hid.
  destruct (promoCycle e w1 st) as [st1 tr1] eqn:Hc1. simpl in *.
  destruct (promoCycle_delivered e w1 st st1 tr1 zone1 now1 link1 Hc1 H1)
    as (tpl1 & sent & _ & Hn1 & _ & Hst1 & _).
  destruct (on_sent_effect w1 st zone1 tpl1 link1 sent) as (Hz1 & _).
  rewrite <- Hst1 in Hz1.
  set (t := t_posted w1) in *.
  destruct (run_rows e (fun r r' =>
              Zone.id r' = Zone.id r
              /\ ((exists last, Zone.last_posted_at r = Some last /\ t <= last) ->
                  exists last', Zone.last_posted_at r' = Some last' /\ t <= last')))
    with (ws := ws) (st := st1) as (G & HG & HGs).
  - intros r. split; [reflexivity|auto].
  - intros a b c [Ha Hab] [Hb Hbc]. split; [congruence|auto].
  - intros w r r' Hw (Hi & _ & _ & _ & _ & _ & Hp). split; [exact Hi|].
    intros (last & Hl & Hle). destruct Hp as [Hp|Hp].
    + exists last. split; [congruence|exact Hle].
    + exists (t_posted w). split; [exact Hp|].
      rewrite Forall_forall in Hws. now apply Hws.
  - destruct (promoCycle_send e w2 _ zone2 now2 link2 ok2 H2)
      as (Hn2 & tpl2 & Hin2 & _ & _ & _ & _ & Hcool & _).
    rewrite HG, Hz1, map_map in Hin2. apply in_map_iff in Hin2.
    destruct Hin2 as (r & Hr & _).
    destruct (HGs (posted_row w1 (Zone.id zone1) r)) as [Hgid Hgp].
    rewrite Hr in Hgid, Hgp.
    assert (Hrid : Zone.id r = Zone.id zone1).
    { rewrite <- Hid, Hgid. unfold posted_row.
      destruct (Zone.id r =? Zone.id zone1); reflexivity. }
    destruct Hgp as (last' & Hl' & Hle').
    { unfold posted_row. rewrite Hrid, Z.eqb_refl. cbn.
      exists t. split; [reflexivity|lia]. }
    unfold in_cooldown in Hcool. rewrite Hl' in Hcool.
    apply Z.ltb_ge in Hcool. subst now1 now2. unfold t in *. lia.
Qed.




(** ** C8: a malformed quiet-hours string *)

Lemma postToZone_QUIET_HOURS q e w st zone :
  postToZone (with_QUIET_HOURS q e) w st zone = postToZone e w st zone.
Proof. reflexivity. Qed.

(** C8, as the code has it.  When [QUIET_HOURS] does not match "HH-HH" no
    hour is quiet, and the cycle is the cycle of a deployment with no quiet
    hours configured: it sends and writes exactly as that one does. *)
Theorem C8_malformed_quiet_hours_is_off (e : environment) (w : world) (st : state) :
  match_quiet_hours (QUIET_HOURS e) = None ->
  (forall h, inQuietHours (QUIET_HOURS e) h = false)
  /\ promoCycle e w st = promoCycle (with_QUIET_HOURS [] e) w st.
Proof.
  intros Hm.
  assert (Hq : forall h, inQuietHours (QUIET_HOURS e) h = false).
  { intros h. unfold inQuietHours. rewrite Hm. destruct (QUIET_HOURS e); reflexivity. }
  split; [exact Hq|].
  unfold promoCycle. rewrite Hq. cbn [QUIET_HOURS with_QUIET_HOURS inQuietHours].
  destruct (fetchZones w st) as [zones|]; [|reflexivity].
  destruct (nth_error _ _) as [z|]; [|reflexivity].
  now rewrite postToZone_QUIET_HOURS.
Qed.

Lemma C8_malformed_quiet_hours_is_off_witness :
  (forall h, inQuietHours (QUIET_HOURS ex_env_malformed) h = false)
  /\ promoCycle ex_env_malformed ex_world_sent ex_state
     = promoCycle (with_QUIET_HOURS [] ex_env_malformed) ex_world_sent ex_state.
Proof.
  apply (C8_malformed_quiet_hours_is_off ex_env_malformed ex_world_sent ex_state).
  vm_compute. reflexivity.
Defined.

(** C8 as stated fails: with the malformed string "23:07" the cycle is not a
    no-op; it sends a message and rewrites the zone's row. *)
Lemma C8_counterexample :
  match_quiet_hours (QUIET_HOURS ex_env_malformed) = None
  /\ sends (snd (promoCycle ex_env_malformed ex_world_sent ex_state))
     = [EvSend ex_zone 1704110400000
               (js "https://t.me/jigcoinbot?start=pz_7_t_soft_1") true]
  /\ promo_zones (fst (promoCycle ex_env_malformed ex_world_sent ex_state))
     <> promo_zones ex_state.
Proof. vm_compute. repeat split. discriminate. Qed.

(** ** C9: the attempt log *)

Lemma walk_weights_In {A : Type} (lst : list A) (weights : list Q) (r : Q) (it : A) :
  walk_weights lst weights r = Some it -> In it lst.
Proof.
  revert weights r. induction lst as [|x lst IH]; intros [|w weights] r; simpl;
    try discriminate.
  destruct (Qle_bool (r - w) 0).
  - intros [= ->]. now left.
  - intros H. right. eapply IH. exact H.
Qed.

Lemma pickWeighted_In {A : Type} (weight_of : A -> jsweight)
    (items : list (option A)) (u : Q) (it : A) :
  pickWeighted weight_of items u = Some it -> In it (filter_Boolean items).
Proof.
  unfold pickWeighted. destruct (filter_Boolean items) as [|a l]; [discriminate|].
  destruct (Qle_bool _ 0); [apply nth_error_In|].
  destruct (walk_weights _ _ _) eqn:Hw.
  - intros [= <-]. eapply walk_weights_In. exact Hw.
  - apply nth_error_In.
Qed.

Lemma filter_Boolean_Some {A : Type} (l : list A) : filter_Boolean (map Some l) = l.
Proof. induction l as [|x l IH]; simpl; [reflexivity|now rewrite IH]. Qed.

Lemma incrementFailCount_posts (w : world) (zid : Z) (s : state) :
  promo_posts (incrementFailCount w zid s) = promo_posts s.
Proof.
  unfold incrementFailCount. destruct (fail_count_error w); [reflexivity|].
  destruct (filter _ _) as [|d [|]]; reflexivity.
Qed.

Lemma update_zones_posts (zid : Z) (f : Zone.t -> Zone.t) (s : state) :
  promo_posts (update_zones zid f s) = promo_posts s.
Proof. reflexivity. Qed.

Lemma promoCycle_decision (e : environment) (w : world) (st : state) :
  promoCycle e w st
  = match cycle_decision e w st with
    | Skip => (st, [])
    | Fault => (st, [EvConsole CYCLE_ERROR])
    | Attempt zone tpl link =>
        match send_result w with
        | Sent sent =>
            (fst (on_sent w st zone tpl link sent),
             EvSend zone (t_now w) link true
             :: snd (on_sent w st zone tpl link sent))
        | Rejected msg =>
            (fst (on_rejected e w st zone tpl link msg),
             EvSend zone (t_now w) link false
             :: snd (on_rejected e w st zone tpl link msg))
        end
    end.
Proof.
  unfold promoCycle, cycle_decision, fetchZones.
  destruct (inQuietHours _ _); [reflexivity|].
  destruct (fetch_zones_error w); [reflexivity|].
  destruct (nth_error _ _) as [zone|]; [|reflexivity].
  unfold postToZone, countTodaySuccessPosts, todayCount.
  destruct (_ <? _); [reflexivity|].
  destruct (in_cooldown _ _ _); [reflexivity|].
  destruct (count_error w); [reflexivity|].
  destruct (_ <=? _); [reflexivity|].
  destruct (pickWeighted _ _ _) as [tpl|]; [|reflexivity].
  destruct (buildDeepLink _ _ _ _) as [link|]; [|reflexivity].
  destruct (send_result w) as [sent|msg].
  - destruct (on_sent _ _ _ _ _ _). reflexivity.
  - destruct (on_rejected _ _ _ _ _ _ _). reflexivity.
Qed.

Lemma cycle_decision_with_log a b e w st :
  cycle_decision e (with_log a b w) st = cycle_decision e w st.
Proof. reflexivity. Qed.

Lemma logPostAttempt_log a b w st zid chat tid mid link tmid status err :
  let r := logPostAttempt (with_log a b w) st zid chat tid mid link tmid status err in
  (length (inserts (snd r)) <= 2)%nat
  /\ (a = true -> length (inserts (snd r)) = 1%nat)
  /\ (exists l, promo_posts (fst r) = promo_posts st ++ l)
  /\ ~ In (EvConsole CYCLE_ERROR) (snd r).
Proof.
  unfold logPostAttempt. cbn [with_log log_insert_ok log_fallback_ok t_log].
  destruct a; [|destruct b]; cbn.
  - repeat split; try lia. { now eexists. } intros [H|[]]; discriminate.
  - repeat split; try lia; try discriminate. { now eexists. }
    intros [H|[H|[H|[]]]]; discriminate.
  - repeat split; try lia; try discriminate. { exists []. now rewrite app_nil_r. }
    intros [H|[H|[H|[H|[]]]]]; discriminate.
Qed.

Lemma on_sent_log a b w st zone tpl link sent :
  let r := on_sent (with_log a b w) st zone tpl link sent in
  promo_zones (fst r) = promo_zones (fst (on_sent (with_log true true w) st zone tpl link sent))
  /\ (length (inserts (snd r)) <= 2)%nat
  /\ (a = true -> length (inserts (snd r)) = 1%nat)
  /\ (exists l, promo_posts (fst r) = promo_posts st ++ l)
  /\ ~ In (EvConsole CYCLE_ERROR) (snd r).
Proof.
  cbv zeta. split.
  { destruct (on_sent_effect (with_log a b w) st zone tpl link sent) as (-> & _).
    destruct (on_sent_effect (with_log true true w) st zone tpl link sent) as (-> & _).
    reflexivity. }
  unfold on_sent.
  pose proof (logPostAttempt_log a b w st (Zone.id zone) (Zone.telegram_chat_id zone)
                (Template.id tpl) (Template._message_id tpl) link sent success None)
    as (H1 & H2 & H3 & H4).
  destruct (logPostAttempt _ _ _ _ _ _ _ _ _ _) as [st1 tr]. cbn in *.
  unfold inserts in *. rewrite filter_app. cbn. rewrite app_nil_r.
  repeat split; try assumption.
  intros H. apply in_app_or in H. destruct H as [H|[H|[]]]; [tauto|discriminate].
Qed.

Lemma on_rejected_zones_fn e w st zone tpl link msg :
  promo_zones (fst (on_rejected e w st zone tpl link msg))
  = rejected_zones e w zone msg (promo_zones st).
Proof.
  unfold on_rejected, rejected_zones.
  pose proof (logPostAttempt_zones w st (Zone.id zone) (Zone.telegram_chat_id zone)
                (Template.id tpl) (Template._message_id tpl) link None failed
                (Some msg)) as (Hz & _ & _).
  destruct (logPostAttempt _ _ _ _ _ _ _ _ _ _) as [st1 tr]. cbn [fst] in Hz.
  cbv zeta.
  assert (Hi : promo_zones (incrementFailCount w (Zone.id zone)
                 (update_zones (Zone.id zone) (set_last_error (slice0 500 msg)) st1))
               = if fail_count_error w
                 then map (fun z => if Zone.id z =? Zone.id zone
                                    then set_last_error (slice0 500 msg) z else z)
                          (promo_zones st)
                 else
                 match filter (fun z => Zone.id z =? Zone.id zone)
                         (map (fun z => if Zone.id z =? Zone.id zone
                                        then set_last_error (slice0 500 msg) z else z)
                              (promo_zones st)) with
                 | [data] =>
                     map (fun z => if Zone.id z =? Zone.id zone
                                   then set_fail_count
                                          (Number_or (Zone.fail_count data) 0 + 1) z
                                   else z)
                         (map (fun z => if Zone.id z =? Zone.id zone
                                        then set_last_error (slice0 500 msg) z else z)
                              (promo_zones st))
                 | _ => map (fun z => if Zone.id z =? Zone.id zone
                                      then set_last_error (slice0 500 msg) z else z)
                            (promo_zones st)
                 end).
  { unfold incrementFailCount. destruct (fail_count_error w).
    { now rewrite update_zones_zones, Hz. }
    rewrite update_zones_zones, Hz.
    destruct (filter _ _) as [|d [|]]; try rewrite update_zones_zones;
      rewrite ?update_zones_zones, ?Hz; reflexivity. }
  destruct (_ && _); cbn [fst]; rewrite ?update_zones_zones, Hi; reflexivity.
Qed.

Lemma on_rejected_log a b e w st zone tpl link msg :
  let r := on_rejected e (with_log a b w) st zone tpl link msg in
  promo_zones (fst r)
  = promo_zones (fst (on_rejected e (with_log true true w) st zone tpl link msg))
  /\ (length (inserts (snd r)) <= 2)%nat
  /\ (a = true -> length (inserts (snd r)) = 1%nat)
  /\ (exists l, promo_posts (fst r) = promo_posts st ++ l)
  /\ ~ In (EvConsole CYCLE_ERROR) (snd r).
Proof.
  cbv zeta. split.
  { now rewrite !on_rejected_zones_fn. }
  unfold on_rejected.
  pose proof (logPostAttempt_log a b w st (Zone.id zone) (Zone.telegram_chat_id zone)
                (Template.id tpl) (Template._message_id tpl) link None failed
                (Some msg)) as (H1 & H2 & H3 & H4).
  destruct (logPostAttempt _ _ _ _ _ _ _ _ _ _) as [st1 tr]. cbn [fst snd] in *.
  assert (Hp : forall s f, promo_posts (update_zones (Zone.id zone) f s) = promo_posts s)
    by reflexivity.
  assert (Hi : forall s, promo_posts (incrementFailCount (with_log a b w)
                                                         (Zone.id zone) s)
                         = promo_posts s).
  { intros s. unfold incrementFailCount.
    destruct (fail_count_error _); [reflexivity|].
    destruct (filter _ _) as [|d [|]]; reflexivity. }
  destruct (_ && _); cbn [fst snd]; unfold inserts in *; cbn [filter is_insert].
  - rewrite filter_app. cbn. rewrite app_nil_r.
    rewrite ?Hp, Hi, ?Hp. repeat split; try assumption.
    intros [H|H]; [discriminate|].
    apply in_app_or in H. destruct H as [H|[H|[]]]; [tauto|discriminate].
  - rewrite Hi, ?Hp. repeat split; try assumption.
    intros [H|H]; [discriminate|tauto].
Qed.

Lemma promoCycle_log_independent (a b : bool) (e : environment) (w : world)
    (st : state) :
  let c := promoCycle e (with_log a b w) st in
  let c0 := promoCycle e (with_log true true w) st in
  promo_zones (fst c) = promo_zones (fst c0)
  /\ lastGlobalPostAt (fst c) = lastGlobalPostAt (fst c0)
  /\ sends (snd c) = sends (snd c0)
  /\ (In (EvConsole CYCLE_ERROR) (snd c) <-> In (EvConsole CYCLE_ERROR) (snd c0))
  /\ (length (inserts (snd c)) <= 2)%nat
  /\ (a = true -> (length (inserts (snd c)) <= 1)%nat)
  /\ (exists l, promo_posts (fst c) = promo_posts st ++ l)
  /\ (forall zone now link,
        In (EvSend zone now link true) (snd c) ->
        forall r, In r (promo_zones (fst c)) -> Zone.id r = Zone.id zone ->
                  Zone.last_posted_at r = Some (t_posted w)).
Proof.
  intros c c0.
  assert (Hlast : forall zone now link,
        In (EvSend zone now link true) (snd c) ->
        forall r, In r (promo_zones (fst c)) -> Zone.id r = Zone.id zone ->
                  Zone.last_posted_at r = Some (t_posted w)).
  { intros zone now link Hin r Hr Hid. subst c.
    destruct (promoCycle e (with_log a b w) st) as [st' tr] eqn:Hc. simpl in *.
    destruct (promoCycle_delivered _ _ _ _ _ _ _ _ Hc Hin)
      as (tpl & sent & _ & _ & _ & -> & _).
    destruct (on_sent_effect (with_log a b w) st zone tpl link sent) as (Hz & _).
    rewrite Hz in Hr. apply in_map_iff in Hr. destruct Hr as (r0 & <- & _).
    unfold posted_row in *. destruct (Zone.id r0 =? Zone.id zone) eqn:E.
    - reflexivity.
    - simpl in Hid. apply Z.eqb_neq in E. contradiction. }
  assert (Hnil : exists l : list Post.t, promo_posts st = promo_posts st ++ l)
    by (exists []; now rewrite app_nil_r).
  assert (Ec : c = match cycle_decision e w st with
                   | Skip => (st, [])
                   | Fault => (st, [EvConsole CYCLE_ERROR])
                   | Attempt zone tpl link =>
                       match send_result w with
                       | Sent sent =>
                           (fst (on_sent (with_log a b w) st zone tpl link sent),
                            EvSend zone (t_now w) link true
                            :: snd (on_sent (with_log a b w) st zone tpl link sent))
                       | Rejected msg =>
                           (fst (on_rejected e (with_log a b w) st zone tpl link msg),
                            EvSend zone (t_now w) link false
                            :: snd (on_rejected e (with_log a b w) st zone tpl link msg))
                       end
                   end).
  { unfold c. now rewrite promoCycle_decision, cycle_decision_with_log. }
  assert (Ec0 : c0 = match cycle_decision e w st with
                   | Skip => (st, [])
                   | Fault => (st, [EvConsole CYCLE_ERROR])
                   | Attempt zone tpl link =>
                       match send_result w with
                       | Sent sent =>
                           (fst (on_sent (with_log true true w) st zone tpl link sent),
                            EvSend zone (t_now w) link true
                            :: snd (on_sent (with_log true true w) st zone tpl link sent))
                       | Rejected msg =>
                           (fst (on_rejected e (with_log true true w) st zone tpl link msg),
                            EvSend zone (t_now w) link false
                            :: snd (on_rejected e (with_log true true w) st zone tpl link msg))
                       end
                   end).
  { unfold c0. now rewrite promoCycle_decision, cycle_decision_with_log. }
  clearbody c c0.
  repeat match goal with |- _ /\ _ => split end; try exact Hlast; clear Hlast;
    subst c c0;
    (destruct (cycle_decision e w st) as [| |zone tpl link];
     [cbn; auto; try lia; try tauto; try (intros; lia)
     |cbn; auto; try lia; try tauto; try (intros; lia)
     |]);
    (destruct (send_result w) as [sent|msg]; cbn [fst snd];
     [destruct (on_sent_log a b w st zone tpl link sent) as (Hz & H2 & H1 & Hp & Hce);
      destruct (on_sent_log true true w st zone tpl link sent)
        as (_ & _ & _ & _ & Hce0);
      destruct (on_sent_effect (with_log a b w) st zone tpl link sent)
        as (_ & Hg & Hs);
      destruct (on_sent_effect (with_log true true w) st zone tpl link sent)
        as (_ & Hg0 & Hs0)
     |destruct (on_rejected_log a b e w st zone tpl link msg)
        as (Hz & H2 & H1 & Hp & Hce);
      destruct (on_rejected_log true true e w st zone tpl link msg)
        as (_ & _ & _ & _ & Hce0);
      destruct (on_rejected_sends e (with_log a b w) st zone tpl link msg)
        as (Hs & Hg);
      destruct (on_rejected_sends e (with_log true true w) st zone tpl link msg)
        as (Hs0 & Hg0)]);
    unfold sends, inserts in *; cbn [filter is_send is_insert];
    rewrite ?Hs, ?Hs0, ?Hg, ?Hg0;
    auto;
    try (intros [H|H]; [discriminate|tauto]);
    try (intros Ha; specialize (H1 Ha); lia);
    try (split; (intros [H|H]; [discriminate|tauto])).
Qed.

Lemma logPostAttempt_inserts a b w st zid chat tid mid link tmid status err :
  let r := logPostAttempt (with_log a b w) st zid chat tid mid link tmid status err in
  let row := Post.mk zid (Some chat) tid mid (Some link) tmid status
                     (error_column err) (t_log w) in
  inserts (snd r) = log_inserts a b row
  /\ promo_posts (fst r) = promo_posts st ++ logged_rows a b row.
Proof.
  unfold logPostAttempt, log_inserts, logged_rows, minimal_row.
  cbn [with_log log_insert_ok log_fallback_ok t_log].
  destruct a; [|destruct b]; cbn; split; try reflexivity.
  now rewrite app_nil_r.
Qed.

Lemma promoCycle_inserts a b e w st :
  let c := promoCycle e (with_log a b w) st in
  match cycle_decision e w st with
  | Attempt zone tpl link =>
      sends (snd c)
      = [EvSend zone (t_now w) link
                match send_result w with Sent _ => true | Rejected _ => false end]
      /\ inserts (snd c) = log_inserts a b (full_row w zone tpl link)
      /\ promo_posts (fst c)
         = promo_posts st ++ logged_rows a b (full_row w zone tpl link)
  | _ => sends (snd c) = [] /\ inserts (snd c) = [] /\ promo_posts (fst c) = promo_posts st
  end.
Proof.
  cbv zeta. rewrite promoCycle_decision, cycle_decision_with_log.
  destruct (cycle_decision e w st) as [| |zone tpl link]; [now split|now split|].
  unfold full_row. cbn [with_log send_result].
  destruct (send_result w) as [sent|msg]; cbn [fst snd].
  - destruct (on_sent_effect (with_log a b w) st zone tpl link sent) as (_ & _ & Hs).
    unfold sends in *. cbn [filter is_send]. rewrite Hs.
    split; [reflexivity|].
    unfold on_sent.
    pose proof (logPostAttempt_inserts a b w st (Zone.id zone)
                  (Zone.telegram_chat_id zone) (Template.id tpl)
                  (Template._message_id tpl) link sent success None) as (H1 & H2).
    destruct (logPostAttempt _ _ _ _ _ _ _ _ _ _) as [st1 tr].
    cbn [fst snd] in *. unfold inserts in *. cbn [filter is_insert].
    rewrite filter_app. cbn [filter is_insert]. rewrite app_nil_r.
    split; [exact H1|exact H2].
  - destruct (on_rejected_sends e (with_log a b w) st zone tpl link msg) as (Hs & _).
    unfold sends in *. cbn [filter is_send]. rewrite Hs.
    split; [reflexivity|].
    unfold on_rejected.
    pose proof (logPostAttempt_inserts a b w st (Zone.id zone)
                  (Zone.telegram_chat_id zone) (Template.id tpl)
                  (Template._message_id tpl) link None failed (Some msg))
      as (H1 & H2).
    destruct (logPostAttempt _ _ _ _ _ _ _ _ _ _) as [st1 tr].
    cbn [fst snd] in *. unfold inserts in *.
    destruct (_ && _); cbn [fst snd filter is_insert];
      rewrite ?filter_app; cbn [filter is_insert]; rewrite ?app_nil_r;
      rewrite ?update_zones_posts, ?incrementFailCount_posts, ?update_zones_posts;
      (split; [exact H1|exact H2]).
Qed.





(** ** C10: the effective limits of a zone *)

Lemma raw_limits_numeric (e : environment) (zone : Zone.t) :
  Raw.DEFAULT_MIN_GAP_MINUTES (Raw.of_env e) = Raw.Fin (DEFAULT_MIN_GAP_MINUTES e)
  /\ Raw.DEFAULT_DAILY_CAP (Raw.of_env e) = Raw.Fin (DEFAULT_DAILY_CAP e)
  /\ Raw.minGap (Raw.of_env e) zone = Raw.Fin (minGap e zone)
  /\ Raw.dailyCap (Raw.of_env e) zone = Raw.Fin (dailyCap e zone).
Proof.
  assert (H1 : Raw.DEFAULT_MIN_GAP_MINUTES (Raw.of_env e)
               = Raw.Fin (DEFAULT_MIN_GAP_MINUTES e)).
  { unfold Raw.DEFAULT_MIN_GAP_MINUTES, DEFAULT_MIN_GAP_MINUTES. simpl.
    destruct (env_DEFAULT_MIN_GAP_MINUTES e); reflexivity. }
  assert (H2 : Raw.DEFAULT_DAILY_CAP (Raw.of_env e)
               = Raw.Fin (DEFAULT_DAILY_CAP e)).
  { unfold Raw.DEFAULT_DAILY_CAP, DEFAULT_DAILY_CAP. simpl.
    destruct (env_DEFAULT_DAILY_CAP e); reflexivity. }
  repeat split; try assumption.
  - unfold Raw.minGap, minGap. rewrite H1.
    destruct (Zone.min_gap_minutes zone) as [[| |]|]; reflexivity.
  - unfold Raw.dailyCap, dailyCap. rewrite H2.
    destruct (Zone.daily_cap zone) as [[| |]|]; reflexivity.
Qed.

Lemma raw_gates_numeric (e : environment) (zone : Zone.t) (now n : Z) :
  Raw.in_cooldown (Raw.of_env e) zone now = in_cooldown e zone now
  /\ Raw.cap_reached (Raw.of_env e) zone n = (dailyCap e zone <=? n).
Proof.
  destruct (raw_limits_numeric e zone) as (_ & _ & Hg & Hc).
  unfold Raw.in_cooldown, in_cooldown, Raw.cap_reached. rewrite Hg, Hc.
  split; [|reflexivity]. destruct (Zone.last_posted_at zone); reflexivity.
Qed.




(** A zone stored with [daily_cap = 0] is posted to. *)
Example stored_cap_zero_does_not_block :
  map is_send (snd (promoCycle ex_env ex_world_sent (mkState [ex_zone_cap0] [] 0)))
  = [true; false; false].
Proof. vm_compute. reflexivity. Qed.

(** ** C4: weighted selection on binary64 numbers *)

Lemma float_sub_zero (r : float) : (r - 0)%float = r.
Proof.
  apply Prim2SF_inj. rewrite sub_spec.
  change (Prim2SF 0) with (S754_zero false).
  destruct (Prim2SF r) as [[|]|[|]| |[|] m e]; reflexivity.
Qed.

Lemma is_nan_spec (x : float) :
  is_nan x = match Prim2SF x with S754_nan => true | _ => false end.
Proof.
  unfold is_nan. rewrite eqb_spec. unfold SFeqb.
  destruct (Prim2SF x) as [[|]|[|]| |[|] m e]; simpl; try reflexivity;
    rewrite ?Z.compare_refl, ?Pos.compare_refl; simpl;
    rewrite ?Pos.compare_refl; reflexivity.
Qed.

(** The sign and class of a number decide every test [clamp_weight] makes. *)
Lemma float_tests (x : float) :
  is_nan x = match Prim2SF x with S754_nan => true | _ => false end
  /\ is_zero x = match Prim2SF x with S754_zero _ => true | _ => false end
  /\ (0 <? x)%float
     = match Prim2SF x with
       | S754_infinity false | S754_finite false _ _ => true
       | _ => false
       end
  /\ (x <? 0)%float
     = match Prim2SF x with
       | S754_infinity true | S754_finite true _ _ => true
       | _ => false
       end
  /\ (x <=? 0)%float
     = match Prim2SF x with
       | S754_zero _ | S754_infinity true | S754_finite true _ _ => true
       | _ => false
       end.
Proof.
  unfold is_zero. rewrite is_nan_spec, eqb_spec, !ltb_spec, leb_spec.
  change (Prim2SF 0) with (S754_zero false).
  change (Prim2SF zero) with (S754_zero false).
  destruct (Prim2SF x) as [[|]|[|]| |[|] m e]; repeat split; reflexivity.
Qed.

Lemma clamp_weight_cases (x : float) :
  (is_nan x = true -> Binary64.clamp_weight (Binary64.Num x) = 0%float)
  /\ ((x <=? 0)%float = true -> Binary64.clamp_weight (Binary64.Num x) = 0%float)
  /\ ((0 <? x)%float = true -> Binary64.clamp_weight (Binary64.Num x) = x).
Proof.
  destruct (float_tests x) as (Hn & Hz & Hp & Hm & Hle).
  unfold Binary64.clamp_weight, Binary64.or_0, Binary64.Math_max,
    Binary64.Number_or_1.
  rewrite Hle, Hp.
  destruct (Prim2SF x) as [[|]|[|]| |[|] m e] eqn:E;
    rewrite ?Hn, ?Hz, ?Hp, ?Hm; simpl; rewrite ?Hn, ?Hz, ?Hp, ?Hm;
    repeat split; intros; try discriminate; try reflexivity.
Qed.

Lemma clamp_weight_sign (w : Binary64.weight) :
  Binary64.clamp_weight w = 0%float
  \/ (0 <? Binary64.clamp_weight w)%float = true.
Proof.
  destruct w as [|x]; [right; reflexivity|].
  destruct (clamp_weight_cases x) as (H1 & H2 & H3).
  destruct (float_tests x) as (Hn & Hz & Hp & Hm & Hle).
  destruct (Prim2SF x) as [[|]|[|]| |[|] m e] eqn:E;
    try (left; apply H2; rewrite Hle; reflexivity);
    try (left; apply H1; rewrite Hn; reflexivity);
    right; rewrite (H3 Hp); exact Hp.
Qed.

Lemma legacy_clamp_weight_cases (x : float) :
  (is_nan x = true -> Legacy.clamp_weight (Binary64.Num x) = nan)
  /\ ((1 <? x)%float = true -> Legacy.clamp_weight (Binary64.Num x) = x)
  /\ (is_nan x = false -> (1 <? x)%float = false ->
      Legacy.clamp_weight (Binary64.Num x) = 1%float).
Proof.
  unfold Legacy.clamp_weight, Binary64.Math_max, Binary64.Number_or_1.
  change (is_nan 1) with false. change (get_sign 1) with false. simpl.
  repeat split.
  - now intros ->.
  - intros H. assert (Hn : is_nan x = false).
    { rewrite is_nan_spec. rewrite ltb_spec in H.
      destruct (Prim2SF x); try reflexivity. discriminate. }
    now rewrite Hn, H.
  - intros -> ->. destruct (x <? 1)%float; reflexivity.
Qed.

Lemma binary64_walk_from (ws : list float) (r : float) (i0 i : nat) :
  Binary64.walk_weights ws r i0 = Some i -> (i0 <= i < i0 + length ws)%nat.
Proof.
  revert r i0. induction ws as [|w ws IH]; intros r i0; simpl; [discriminate|].
  destruct (r - w <=? 0)%float.
  - intros [= <-]. lia.
  - intros H. apply IH in H. lia.
Qed.

(** The loop stops at a weight 0 only when that is the first weight and the
    remainder it starts from is already [<= 0]. *)
Lemma binary64_walk_zero (ws : list float) (r : float) (i0 i : nat) :
  Binary64.walk_weights ws r i0 = Some i ->
  nth_error ws (i - i0) = Some 0%float ->
  i = i0 /\ (r <=? 0)%float = true.
Proof.
  revert r i0. induction ws as [|w ws IH]; intros r i0; simpl; [discriminate|].
  destruct (r - w <=? 0)%float eqn:E.
  - intros [= <-]. rewrite Nat.sub_diag. simpl. intros [= ->].
    rewrite float_sub_zero in E. now split.
  - intros H Hn. pose proof (binary64_walk_from _ _ _ _ H) as Hi.
    replace (i - i0)%nat with (S (i - S i0)) in Hn by lia. simpl in Hn.
    destruct (IH _ _ H Hn) as [_ Hr]. congruence.
Qed.




(** ** C7: the deep-link token *)

Lemma encodeURIComponent_unreserved (s : jsstring) :
  Forall (fun c => uri_unreserved c = true) s -> encodeURIComponent s = Some s.
Proof.
  induction 1 as [|c s Hc Hs IH]; simpl; [reflexivity|].
  now rewrite Hc, IH.
Qed.

Lemma encodeURIComponent_ascii (s : jsstring) :
  Forall is_ascii s -> encodeURIComponent s = Some (flat_map encode_unit s).
Proof.
  induction 1 as [|c s Hc Hs IH]; simpl; [reflexivity|].
  unfold encode_unit, is_ascii in *.
  destruct (uri_unreserved c); [now rewrite IH|].
  assert (Hl : is_low_surrogate c = false).
  { unfold is_low_surrogate. apply andb_false_intro1. apply N.leb_gt. lia. }
  assert (Hh : is_high_surrogate c = false).
  { unfold is_high_surrogate. apply andb_false_intro1. apply N.leb_gt. lia. }
  now rewrite Hl, Hh, IH.
Qed.

Lemma hex_char_unreserved (d : N) : (d < 16)%N -> uri_unreserved (hex_char d) = true.
Proof.
  intros H. assert (Hall : forallb (fun d => uri_unreserved (hex_char d))
                             (map N.of_nat (seq 0 16)) = true) by reflexivity.
  rewrite forallb_forall in Hall. apply Hall. apply in_map_iff.
  exists (N.to_nat d). split; [lia|]. apply in_seq. lia.
Qed.

Lemma encode_unit_ascii (c : N) :
  is_ascii c ->
  (length (encode_unit c) <= 3)%nat
  /\ Forall (fun x => uri_unreserved x = true \/ x = 37%N) (encode_unit c).
Proof.
  unfold is_ascii, encode_unit. intros Hc.
  destruct (uri_unreserved c) eqn:E.
  - split; [simpl; lia|]. constructor; [now left|constructor].
  - unfold percent_encode, utf8.
    assert (Hlt : (c <? 128)%N = true) by (apply N.ltb_lt; exact Hc).
    rewrite Hlt. cbn [flat_map percent_byte app]. split; [simpl; lia|].
    constructor; [now right|].
    constructor.
    { left. apply hex_char_unreserved. apply N.Div0.div_lt_upper_bound. lia. }
    constructor; [|constructor].
    left. apply hex_char_unreserved. apply N.mod_lt. lia.
Qed.

Lemma flat_map_encode_ascii (s : jsstring) :
  Forall is_ascii s ->
  (length (flat_map encode_unit s) <= 3 * length s)%nat
  /\ Forall (fun x => uri_unreserved x = true \/ x = 37%N) (flat_map encode_unit s).
Proof.
  induction 1 as [|c s Hc Hs [IH1 IH2]]; simpl.
  - split; [lia|constructor].
  - destruct (encode_unit_ascii c Hc) as [H1 H2].
    rewrite length_app. split; [lia|]. apply Forall_app. now split.
Qed.

Lemma Forall_firstn {A : Type} (P : A -> Prop) (n : nat) (l : list A) :
  Forall P l -> Forall P (firstn n l).
Proof.
  intros H. revert n. induction H as [|x l Hx Hl IH]; intros [|n]; simpl;
    constructor; auto.
Qed.

Lemma id_safe_unreserved (c : N) : id_safe c = true -> uri_unreserved c = true.
Proof.
  unfold id_safe, uri_unreserved, code_eqb. intros H.
  apply orb_prop in H. destruct H as [H|H].
  - apply orb_prop in H. destruct H as [H|H].
    + rewrite H. reflexivity.
    + rewrite H. destruct (is_alnum c); simpl; now rewrite ?orb_true_r.
  - rewrite H. destruct (is_alnum c); simpl; now rewrite ?orb_true_r.
Qed.

Lemma legacy_token_length (zoneId templateId : jsstring) (nowMs : Z) :
  (length (Legacy.deepLinkToken zoneId templateId nowMs) <= 64)%nat.
Proof. unfold Legacy.deepLinkToken, slice0. apply firstn_le_length. Qed.

(** A half of a surrogate pair in an id makes [encodeURIComponent], and with
    it the cycle's call of [buildDeepLink], throw. *)
Example lone_surrogate_throws :
  deepLinkToken (js "7") [55357%N] = None.
Proof. reflexivity. Qed.

(** The earlier revision cuts the payload at 64 units and appends the last
    six base-36 digits of the clock. *)
Example legacy_token_has_time_suffix :
  Legacy.deepLinkToken (js "7") (js "soft_1") 1704110400000 = js "p7tsoft_1_uvc000"
  /\ Legacy.deepLinkToken (js "7") (js "soft_1") 1704132001000 = js "p7tsoft_1_v86zfs".
Proof. vm_compute. split; reflexivity. Qed.

(** ** C5: one cycle at a time *)

Lemma clearTimeout_armed (s : Scheduler.t) :
  scheduler_inv s ->
  Scheduler.clearTimeout (Scheduler.cycleTimer s) (Scheduler.pending s) = [].
Proof.
  intros ([Hp|(h & Hp & Hc)] & _); rewrite Hp.
  - destruct (Scheduler.cycleTimer s); reflexivity.
  - rewrite Hc. simpl. now rewrite Nat.eqb_refl.
Qed.

Lemma scheduler_init_inv : scheduler_inv Scheduler.init.
Proof.
  unfold scheduler_inv. simpl. repeat split; try lia; try discriminate.
  right. now exists 0%nat.
Qed.

Lemma scheduler_step_inv (s s' : Scheduler.t) (i : Scheduler.input) :
  scheduler_inv s -> Scheduler.step s i = Some s' -> scheduler_inv s'.
Proof.
  intros Hinv Hstep. pose proof (clearTimeout_armed s Hinv) as Hclr.
  destruct Hinv as (Hp & Hle & Hlive & Hdown).
  destruct i as [h| |]; simpl in Hstep.
  - destruct (existsb (Nat.eqb h) (Scheduler.pending s)) eqn:E; [|discriminate].
    injection Hstep as <-.
    destruct Hp as [Hp|(k & Hp & Hc)]; rewrite Hp in *; [discriminate|].
    simpl in E. rewrite orb_false_r in E. apply Nat.eqb_eq in E. subst k.
    unfold scheduler_inv. simpl in *. rewrite Nat.eqb_refl. simpl.
    repeat split.
    + now left.
    + lia.
    + intros Hs. specialize (Hlive Hs). lia.
  - destruct (Scheduler.in_flight s) as [|n] eqn:En; [discriminate|].
    injection Hstep as <-.
    assert (Hn : n = 0%nat) by lia. subst n.
    assert (Hnil : Scheduler.pending s = []).
    { destruct (Scheduler.pending s); [reflexivity|simpl in Hle; lia]. }
    unfold Scheduler.scheduleNextCycle, scheduler_inv. simpl.
    destruct (Scheduler.shuttingDown s) eqn:Es; simpl.
    + rewrite ?Es. repeat split; try discriminate; try lia; auto;
        rewrite ?Hnil; simpl; lia.
    + rewrite Hclr. simpl. repeat split; try discriminate; try lia.
      right. eexists. split; reflexivity.
  - injection Hstep as <-. unfold Scheduler.shutdown, scheduler_inv.
    destruct (Scheduler.shuttingDown s) eqn:Es; simpl.
    + rewrite ?Es. repeat split; auto.
    + rewrite Hclr. simpl. repeat split; try discriminate; try lia. now left.
Qed.

Lemma scheduler_steps_inv (ins : list Scheduler.input) (s s' : Scheduler.t) :
  scheduler_inv s -> Scheduler.steps s ins = Some s' -> scheduler_inv s'.
Proof.
  revert s. induction ins as [|i ins IH]; intros s Hinv; simpl.
  - intros [= <-]. exact Hinv.
  - destruct (Scheduler.step s i) as [s1|] eqn:E; [|discriminate].
    apply IH. eapply scheduler_step_inv; eauto.
Qed.

Lemma scheduler_reachable_inv (s : Scheduler.t) :
  Scheduler.reachable s -> scheduler_inv s.
Proof.
  intros (ins & H). eapply scheduler_steps_inv; [apply scheduler_init_inv|exact H].
Qed.

Lemma legacy_scheduler_step_inv (s s' : Legacy.Scheduler.t)
    (i : Legacy.Scheduler.input) :
  legacy_scheduler_inv s -> Legacy.Scheduler.step s i = Some s' ->
  legacy_scheduler_inv s'.
Proof.
  unfold legacy_scheduler_inv, Legacy.Scheduler.step, Legacy.Scheduler.tick,
    Legacy.Scheduler.postnow.
  intros [Ht Hr].
  destruct (Legacy.Scheduler.exited s); [discriminate|].
  destruct i as [| |a| |].
  - rewrite Ht. simpl. destruct (Legacy.Scheduler.cycleInFlight s) eqn:E;
      intros [= <-]; simpl; split; lia.
  - destruct (Legacy.Scheduler.running s) as [|n]; [discriminate|].
    intros [= <-]. simpl. split; [exact Ht|].
    destruct (Legacy.Scheduler.cycleInFlight s); lia.
  - destruct a; intros [= <-]; simpl; split; assumption.
  - destruct (Legacy.Scheduler.commanded s) as [|n]; [discriminate|].
    intros [= <-]. simpl. split; assumption.
  - intros [= <-]. simpl. split; assumption.
Qed.

Lemma legacy_scheduler_reachable_inv (s : Legacy.Scheduler.t) :
  Legacy.Scheduler.reachable s -> legacy_scheduler_inv s.
Proof.
  intros (ins & H).
  assert (Hinit : legacy_scheduler_inv Legacy.Scheduler.init) by (split; reflexivity).
  revert H Hinit. generalize Legacy.Scheduler.init as s0.
  induction ins as [|i ins IH]; intros s0; simpl.
  - intros [= <-]. auto.
  - destruct (Legacy.Scheduler.step s0 i) as [s1|] eqn:E; [|discriminate].
    intros H Hinv. apply (IH s1 H). eapply legacy_scheduler_step_inv; eauto.
Qed.




(** A cycle that outlasts its period: the timer fires, the cycle runs, and
    until it completes no further tick can fire; its completion arms the next
    timer. *)
Example cycle_outlasting_its_period :
  Scheduler.steps Scheduler.init [Scheduler.Fire 0; Scheduler.Fire 0] = None
  /\ Scheduler.steps Scheduler.init [Scheduler.Fire 0; Scheduler.Fire 1] = None
  /\ option_map (fun s => (Scheduler.in_flight s, Scheduler.pending s))
       (Scheduler.steps Scheduler.init [Scheduler.Fire 0; Scheduler.Complete])
     = Some (0%nat, [1%nat]).
Proof. repeat split. Qed.

(** The earlier revision: ticks that fire during a long cycle are skipped. *)
Example legacy_overlapping_ticks_are_skipped :
  Legacy.Scheduler.steps Legacy.Scheduler.init
    [Legacy.Scheduler.Fire; Legacy.Scheduler.Fire; Legacy.Scheduler.Fire]
  = Some Legacy.Scheduler.init
  /\ Legacy.Scheduler.running Legacy.Scheduler.init = 1%nat.
Proof. split; reflexivity. Qed.

(* ================================================================== *)
(** * Further properties of the cycle *)

(** ** One zone and one send per cycle *)

Lemma cycle_decision_attempt e w st zone tpl link :
  cycle_decision e w st = Attempt zone tpl link ->
  shuffled_first w st = Some zone.
Proof.
  unfold cycle_decision, shuffled_first.
  destruct (inQuietHours _ _); [discriminate|].
  destruct (fetch_zones_error w); [discriminate|].
  destruct (nth_error _ _) as [z|]; [|discriminate].
  destruct (_ <? _); [discriminate|].
  destruct (in_cooldown _ _ _); [discriminate|].
  destruct (count_error w); [discriminate|].
  destruct (_ <=? _); [discriminate|].
  destruct (pickWeighted _ _ _); [|discriminate].
  destruct (buildDeepLink _ _ _ _); [|discriminate].
  now intros [= -> _ _].
Qed.

Lemma rejected_zones_rows e w zone msg zones :
  exists g, rejected_zones e w zone msg zones = map g zones
            /\ forall r, Zone.id (g r) = Zone.id r
                         /\ (Zone.id r <> Zone.id zone -> g r = r).
Proof.
  unfold rejected_zones. cbv zeta.
  set (zid := Zone.id zone).
  set (f1 := fun z => if Zone.id z =? zid then set_last_error (slice0 500 msg) z else z).
  assert (H3 : exists g3,
             (if fail_count_error w then map f1 zones
              else
                match filter (fun z => Zone.id z =? zid) (map f1 zones) with
                | [data] =>
                    map (fun z => if Zone.id z =? zid
                                  then set_fail_count
                                         (Number_or (Zone.fail_count data) 0 + 1) z
                                  else z) (map f1 zones)
                | _ => map f1 zones
                end) = map g3 zones
             /\ forall r, Zone.id (g3 r) = Zone.id r
                          /\ (Zone.id r <> zid -> g3 r = r)).
  { assert (Hf1 : forall r, Zone.id (f1 r) = Zone.id r
                            /\ (Zone.id r <> zid -> f1 r = r)).
    { intros r. unfold f1. destruct (Z.eqb_spec (Zone.id r) zid); simpl; tauto. }
    destruct (fail_count_error w); [exists f1; split; [reflexivity|exact Hf1]|].
    destruct (filter _ _) as [|data [|]].
    - exists f1. split; [reflexivity|exact Hf1].
    - eexists. split; [rewrite map_map; reflexivity|]. intros r. cbv beta.
      destruct (Hf1 r) as [Hi Hn]. rewrite Hi.
      destruct (Z.eqb_spec (Zone.id r) zid); simpl; [tauto|].
      split; [exact Hi|auto].
    - exists f1. split; [reflexivity|exact Hf1]. }
  destruct H3 as (g3 & -> & Hg3).
  destruct (_ && _).
  - eexists. split; [rewrite map_map; reflexivity|]. intros r. cbv beta.
    destruct (Hg3 r) as [Hi Hn]. rewrite Hi.
    destruct (Z.eqb_spec (Zone.id r) zid); simpl; [tauto|]. split; [exact Hi|auto].
  - exists g3. split; [reflexivity|exact Hg3].
Qed.

(** X1.  A cycle calls [sendMessage] at most once, and only for the enabled row
    the shuffle put first: when that row is held back by a gate nothing is
    sent, whatever the other rows are.  A cycle that sends nothing leaves the
    two tables and [lastGlobalPostAt] exactly as they were; a cycle that sends
    touches no row of [promo_zones] but those with the id of the zone. *)
Theorem cycle_sends_once_to_the_first_row (e : environment) (w : world) (st : state) :
  (length (sends (snd (promoCycle e w st))) <= 1)%nat
  /\ (forall zone now link ok,
        In (EvSend zone now link ok) (snd (promoCycle e w st)) ->
        shuffled_first w st = Some zone
        /\ exists g, promo_zones (fst (promoCycle e w st)) = map g (promo_zones st)
                     /\ forall r, Zone.id (g r) = Zone.id r
                                  /\ (Zone.id r <> Zone.id zone -> g r = r))
  /\ (sends (snd (promoCycle e w st)) = [] -> fst (promoCycle e w st) = st).
Proof.
  rewrite promoCycle_decision.
  destruct (cycle_decision e w st) as [| |zone tpl link] eqn:Hd.
  - cbn. split; [lia|]. split; [intros ? ? ? ? []|reflexivity].
  - cbn. split; [lia|]. split; [intros ? ? ? ? [H|[]]; discriminate|reflexivity].
  - pose proof (cycle_decision_attempt e w st zone tpl link Hd) as Hfirst.
    destruct (send_result w) as [sent|msg]; cbn [fst snd].
    + destruct (on_sent_effect w st zone tpl link sent) as (Hz & _ & Hs).
      unfold sends in *. cbn [filter is_send]. rewrite Hs.
      split; [simpl; lia|]. split; [|discriminate].
      intros zone' now link' ok [H|H].
      * injection H as <- _ _ _. split; [exact Hfirst|].
        rewrite Hz. eexists. split; [reflexivity|]. intros r. unfold posted_row.
        destruct (Z.eqb_spec (Zone.id r) (Zone.id zone)); simpl; tauto.
      * apply In_sends in H; [|reflexivity]. unfold sends in H.
        rewrite Hs in H. destruct H.
    + destruct (on_rejected_sends e w st zone tpl link msg) as (Hs & _).
      unfold sends in *. cbn [filter is_send]. rewrite Hs.
      split; [simpl; lia|]. split; [|discriminate].
      intros zone' now link' ok [H|H].
      * injection H as <- _ _ _. split; [exact Hfirst|].
        rewrite on_rejected_zones_fn. apply rejected_zones_rows.
      * apply In_sends in H; [|reflexivity]. unfold sends in H.
        rewrite Hs in H. destruct H.
Qed.

Lemma cycle_sends_once_to_the_first_row_witness :
  shuffled_first ex_world_sent ex_state = Some ex_zone.
Proof.
  refine (proj1 (proj1 (proj2 (cycle_sends_once_to_the_first_row
                                 ex_env ex_world_sent ex_state))
                       ex_zone 1704110400000
                       (js "https://t.me/jigcoinbot?start=pz_7_t_soft_1") true _)).
  vm_compute. left. reflexivity.
Defined.

(** ** The global gap, over any number of cycles *)

Lemma GLOBAL_MIN_GAP_SECONDS_min (e : environment) : 10 <= GLOBAL_MIN_GAP_SECONDS e.
Proof. unfold GLOBAL_MIN_GAP_SECONDS. lia. Qed.

Lemma promoCycle_lastGlobalPostAt (e : environment) (w : world) (st : state) :
  lastGlobalPostAt (fst (promoCycle e w st)) = lastGlobalPostAt st
  \/ (lastGlobalPostAt (fst (promoCycle e w st)) = t_now w
      /\ GLOBAL_MIN_GAP_SECONDS e * 1000 <= t_now w - lastGlobalPostAt st).
Proof.
  destruct (promoCycle_spec e w st) as [[H|H]|(zone & tpl & link & Hr & H)].
  - rewrite H. now left.
  - rewrite H. now left.
  - destruct Hr as (_ & _ & _ & _ & Hg & _).
    destruct (send_result w) as [sent|msg]; rewrite H; cbn [fst].
    + right. destruct (on_sent_effect w st zone tpl link sent) as (_ & Hl & _).
      now split.
    + left. now destruct (on_rejected_sends e w st zone tpl link msg).
Qed.

Lemma run_lastGlobalPostAt_mono (e : environment) (ws : list world) (st : state) :
  lastGlobalPostAt st <= lastGlobalPostAt (fst (run e ws st)).
Proof.
  revert st. induction ws as [|w ws IH]; intros st; simpl; [lia|].
  pose proof (promoCycle_lastGlobalPostAt e w st) as H.
  pose proof (GLOBAL_MIN_GAP_SECONDS_min e) as HG.
  destruct (promoCycle e w st) as [st1 tr1]. specialize (IH st1).
  destruct (run e ws st1) as [st2 tr2]. simpl in *. lia.
Qed.

(** X2.  The global gap is kept between readings of the clock, not between
    calls of [sendMessage].  [postToZone] reads [now = Date.now()] when it
    starts and, when the send is delivered, stores that reading in
    [lastGlobalPostAt].  Once a send has been delivered, every later cycle
    that reaches [sendMessage], for any zone and whether or not that send is
    delivered, has read its [now] at least [GLOBAL_MIN_GAP_SECONDS] after the
    [now] of the delivered one; the calls of [sendMessage] themselves come
    after awaits and are not bounded by this.  No assumption on the clock is
    needed.  With the setting unset or an integer the gap is at least 10
    seconds; with the setting a text that is no number the gate never
    closes. *)
Theorem global_gap_after_a_delivered_send
    (e : environment) (w1 : world) (st : state) (zone1 : Zone.t) (now1 : Z)
    (link1 : jsstring) (ws : list world) (w2 : world) (zone2 : Zone.t)
    (now2 : Z) (link2 : jsstring) (ok2 : bool) :
  In (EvSend zone1 now1 link1 true) (snd (promoCycle e w1 st)) ->
  In (EvSend zone2 now2 link2 ok2)
     (snd (promoCycle e w2 (fst (run e ws (fst (promoCycle e w1 st)))))) ->
  now1 = t_now w1 /\ now2 = t_now w2
  /\ lastGlobalPostAt (fst (promoCycle e w1 st)) = now1
  /\ GLOBAL_MIN_GAP_SECONDS e * 1000 <= now2 - now1 /\ 10000 <= now2 - now1
  /\ (forall now last,
        Raw.global_gap_closed (Raw.of_env e) now last
        = (now - last <? GLOBAL_MIN_GAP_SECONDS e * 1000))
  /\ (forall r now last,
        Raw.raw_GLOBAL_MIN_GAP_SECONDS r = Some Raw.NaN ->
        Raw.global_gap_closed r now last = false).
Proof.
  intros H1 H2.
  destruct (promoCycle e w1 st) as [st1 tr1] eqn:Hc1. simpl in *.
  destruct (promoCycle_delivered e w1 st st1 tr1 zone1 now1 link1 Hc1 H1)
    as (tpl1 & sent & _ & Hn1 & _ & Hst1 & _).
  destruct (on_sent_effect w1 st zone1 tpl1 link1 sent) as (_ & Hl & _).
  rewrite <- Hst1 in Hl.
  pose proof (run_lastGlobalPostAt_mono e ws st1) as Hm.
  destruct (promoCycle_send e w2 _ zone2 now2 link2 ok2 H2)
    as (Hn2 & tpl2 & _ & _ & _ & _ & Hg & _).
  pose proof (GLOBAL_MIN_GAP_SECONDS_min e).
  split; [exact Hn1|]. split; [exact Hn2|].
  split; [now rewrite Hl, Hn1|].
  split; [subst now1 now2; lia|]. split; [subst now1 now2; lia|].
  split.
  - intros now last. unfold Raw.global_gap_closed, Raw.GLOBAL_MIN_GAP_SECONDS,
      GLOBAL_MIN_GAP_SECONDS. simpl.
    destruct (env_GLOBAL_MIN_GAP_SECONDS e); reflexivity.
  - intros r now last Hr. unfold Raw.global_gap_closed, Raw.GLOBAL_MIN_GAP_SECONDS.
    now rewrite Hr.
Qed.

Lemma global_gap_after_a_delivered_send_witness :
  GLOBAL_MIN_GAP_SECONDS ex_env * 1000 <= 1704132001000 - 1704110400000
  /\ 10000 <= 1704132001000 - 1704110400000.
Proof.
  assert (H1 : In (EvSend ex_zone 1704110400000
                      (js "https://t.me/jigcoinbot?start=pz_7_t_soft_1") true)
                  (snd (promoCycle ex_env ex_world_sent ex_state)))
    by (vm_compute; left; reflexivity).
  assert (H2 : In (EvSend (Zone.mk 7 (-1001) true (Some 360) (Some 3) (Some 2)
                             None (Some 1704110400300))
                      1704132001000
                      (js "https://t.me/jigcoinbot?start=pz_7_t_soft_1") true)
                  (snd (promoCycle ex_env ex_world_later
                          (fst (run ex_env []
                                  (fst (promoCycle ex_env ex_world_sent
                                          ex_state)))))))
    by (vm_compute; left; reflexivity).
  destruct (global_gap_after_a_delivered_send _ _ _ _ _ _ _ _ _ _ _ _ H1 H2)
    as (_ & _ & _ & H4 & H5 & _).
  split; [exact H4|exact H5].
Defined.

(** ** Zones are never added, removed or re-enabled *)

(** X3.  Over any number of cycles the engine keeps the rows of [promo_zones] in
    place, with their id, chat id, gap and cap, and never turns [is_enabled]
    from false to true; so every send of a run goes to a zone that had an
    enabled row when the run started, and a disabled zone is not sent to
    again. *)
Theorem disabled_zone_is_never_sent_to (e : environment) (ws : list world)
    (st : state) :
  (exists G,
      promo_zones (fst (run e ws st)) = map G (promo_zones st)
      /\ forall r, Zone.id (G r) = Zone.id r
                   /\ Zone.telegram_chat_id (G r) = Zone.telegram_chat_id r
                   /\ Zone.min_gap_minutes (G r) = Zone.min_gap_minutes r
                   /\ Zone.daily_cap (G r) = Zone.daily_cap r
                   /\ (Zone.is_enabled r = false -> Zone.is_enabled (G r) = false))
  /\ (forall zone now link ok,
        In (EvSend zone now link ok) (snd (run e ws st)) ->
        exists r, In r (promo_zones st) /\ Zone.id r = Zone.id zone
                  /\ Zone.is_enabled r = true).
Proof.
  split.
  - apply (run_rows e (fun r r' =>
             Zone.id r' = Zone.id r
             /\ Zone.telegram_chat_id r' = Zone.telegram_chat_id r
             /\ Zone.min_gap_minutes r' = Zone.min_gap_minutes r
             /\ Zone.daily_cap r' = Zone.daily_cap r
             /\ (Zone.is_enabled r = false -> Zone.is_enabled r' = false))).
    + intros r. tauto.
    + intros a b c (H1 & H2 & H3 & H4 & H5) (H1' & H2' & H3' & H4' & H5').
      repeat split; try congruence. auto.
    + intros w r r' _ (H1 & H2 & H3 & H4 & _ & H6 & _).
      repeat split; try assumption. intros Hf. destruct H6 as [H6|[H6 _]]; congruence.
  - revert st. induction ws as [|w ws IH]; intros st zone now link ok; simpl.
    + intros [].
    + destruct (promoCycle_rows e w st) as (g & Hg & Hgs).
      pose proof (promoCycle_send e w st zone now link ok) as Hfirst.
      destruct (promoCycle e w st) as [st1 tr1]. specialize (IH st1 zone now link ok).
      destruct (run e ws st1) as [st2 tr2]. simpl in *.
      intros Hin. apply in_app_or in Hin. destruct Hin as [Hin|Hin].
      * destruct (Hfirst Hin) as (_ & tpl & Hz & Hen & _).
        exists zone. repeat split; assumption.
      * destruct (IH Hin) as (r1 & Hr1 & Hid & Hen).
        rewrite Hg in Hr1. apply in_map_iff in Hr1. destruct Hr1 as (r & <- & Hr).
        destruct (Hgs r) as (Hi & _ & _ & _ & _ & He & _).
        exists r. split; [exact Hr|]. split; [congruence|].
        destruct He as [He|[He _]]; congruence.
Qed.

Lemma disabled_zone_is_never_sent_to_witness :
  exists r, In r (promo_zones ex_state) /\ Zone.id r = Zone.id ex_zone
            /\ Zone.is_enabled r = true.
Proof.
  refine (proj2 (disabled_zone_is_never_sent_to ex_env [ex_world_sent] ex_state)
            ex_zone 1704110400000
            (js "https://t.me/jigcoinbot?start=pz_7_t_soft_1") true _).
  vm_compute. left. reflexivity.
Defined.

(** ** The attempt log *)

Lemma promoCycle_posts (e : environment) (w : world) (st : state) :
  promo_posts (fst (promoCycle e w st)) = promo_posts st
  \/ exists zone tpl link,
       cycle_decision e w st = Attempt zone tpl link
       /\ (log_insert_ok w = true \/ log_fallback_ok w = true)
       /\ promo_posts (fst (promoCycle e w st))
          = promo_posts st ++ [logged_row w zone tpl link].
Proof.
  rewrite promoCycle_decision.
  destruct (cycle_decision e w st) as [| |zone tpl link]; [now left|now left|].
  unfold logged_row.
  destruct (send_result w) as [sent|msg]; cbn [fst];
    unfold on_sent, on_rejected, logPostAttempt, updateZonePosted;
    destruct (log_insert_ok w); [| destruct (log_fallback_ok w) | |
                                   destruct (log_fallback_ok w)];
    try destruct (_ && _); cbn beta iota zeta delta [fst snd];
    rewrite ?update_zones_posts, ?incrementFailCount_posts, ?update_zones_posts; cbn;
    try (now left);
    right; exists zone, tpl, link; (split; [reflexivity|]); (split; [tauto|reflexivity]).
Qed.

Lemma error_column_length (error s : option jsstring) :
  error_column error = s -> forall t, s = Some t -> (length t <= 800)%nat.
Proof.
  intros <- t. destruct error as [[|c r]|]; simpl; try discriminate.
  intros [= <-]. unfold slice0. apply firstn_le_length.
Qed.

(** X4.  The log is append-only.  Over any number of cycles the rows already in
    [promo_posts] stay in place and unchanged; the run appends at most one row
    per call to [sendMessage] and none for a cycle that does not send; a row
    is marked [success] exactly when the send it records was delivered, and
    its error text has at most 800 units. *)
Theorem log_is_append_only (e : environment) (ws : list world) (st : state) :
  exists l,
    promo_posts (fst (run e ws st)) = promo_posts st ++ l
    /\ (length l <= length (sends (snd (run e ws st))))%nat
    /\ Forall (fun row =>
                 (forall t, Post.error row = Some t -> (length t <= 800)%nat)
                 /\ exists w, In w ws
                      /\ Post.created_at row = t_log w
                      /\ (Post.status row = success
                          <-> exists sent, send_result w = Sent sent)) l.
Proof.
  revert st. induction ws as [|w ws IH]; intros st; simpl.
  - exists []. rewrite app_nil_r. repeat split; auto.
  - pose proof (promoCycle_posts e w st) as Hp.
    pose proof (promoCycle_decision e w st) as Hd.
    destruct (promoCycle e w st) as [st1 tr1]. destruct (IH st1) as (l & Hl & Hn & Hf).
    destruct (run e ws st1) as [st2 tr2]. simpl in *.
    assert (Hf' : Forall (fun row =>
                 (forall t, Post.error row = Some t -> (length t <= 800)%nat)
                 /\ exists w0, (w = w0 \/ In w0 ws)
                      /\ Post.created_at row = t_log w0
                      /\ (Post.status row = success
                          <-> exists sent, send_result w0 = Sent sent)) l).
    { revert Hf. apply Forall_impl. intros row (H1 & w0 & H2 & H3).
      split; [exact H1|]. exists w0. tauto. }
    unfold sends in *. rewrite filter_app, length_app.
    destruct Hp as [Hp|(zone & tpl & link & Hdec & _ & Hp)].
    + exists l. rewrite Hl, Hp. repeat split; [lia|exact Hf'].
    + exists (logged_row w zone tpl link :: l).
      rewrite Hl, Hp, <- app_assoc. split; [reflexivity|].
      rewrite Hdec in Hd. split.
      * assert (Hs : (1 <= length (filter is_send tr1))%nat).
        { destruct (send_result w); injection Hd as _ Htr; rewrite Htr; simpl; lia. }
        simpl. lia.
      * constructor; [|exact Hf']. split.
        { intros t Ht. unfold logged_row in Ht.
          destruct (send_result w) as [sent|msg];
            destruct (log_insert_ok w); cbn [Post.error] in Ht; try discriminate;
            exact (error_column_length _ _ Ht t eq_refl). }
        exists w. split; [now left|]. unfold logged_row.
        destruct (send_result w) as [sent|msg]; destruct (log_insert_ok w); cbn;
          (split; [reflexivity|]); split; intros H;
          try reflexivity; try discriminate; try (now eexists);
          destruct H; discriminate.
Qed.

(** X5.  When the store refuses the full payload, whatever it answers to the
    minimal one, the cycle leaves every count of [countTodaySuccessPosts] as it
    was: the minimal row carries no [telegram_chat_id].  A send delivered in
    such a cycle does not count towards the zone's daily cap. *)
Theorem refused_payload_is_not_counted (e : environment) (w : world) (st : state)
    (chatId start : Z) :
  log_insert_ok w = false ->
  filter (counts_today chatId start) (promo_posts (fst (promoCycle e w st)))
  = filter (counts_today chatId start) (promo_posts st).
Proof.
  intros Hno.
  destruct (promoCycle_posts e w st) as [->|(zone & tpl & link & _ & _ & ->)];
    [reflexivity|].
  rewrite filter_app. unfold logged_row. rewrite Hno. cbn.
  now rewrite app_nil_r.
Qed.

Lemma refused_payload_is_not_counted_witness :
  filter (counts_today (-1001) (startUtc 1704110400000))
         (promo_posts (fst (promoCycle ex_env ex_world_log_refused ex_state)))
  = filter (counts_today (-1001) (startUtc 1704110400000)) (promo_posts ex_state).
Proof.
  apply (refused_payload_is_not_counted ex_env ex_world_log_refused ex_state).
  reflexivity.
Defined.

(** The send of that cycle was delivered and logged, and still today's count
    for the zone is 0. *)
Example delivered_send_not_counted :
  let st' := fst (promoCycle ex_env ex_world_log_refused ex_state) in
  map send_link (sends (snd (promoCycle ex_env ex_world_log_refused ex_state)))
  = [Some (js "https://t.me/jigcoinbot?start=pz_7_t_soft_1")]
  /\ map Post.status (promo_posts st') = [success]
  /\ todayCount ex_world_later st' ex_zone = 0.
Proof. vm_compute. repeat split. Qed.

(** ** The daily cap, over any number of cycles *)

Lemma filter_length_le {A : Type} (p q : A -> bool) (l : list A) :
  (forall x, p x = true -> q x = true) ->
  (length (filter p l) <= length (filter q l))%nat.
Proof.
  intros H. induction l as [|x l IH]; simpl; [lia|].
  destruct (p x) eqn:Ep.
  - rewrite (H x Ep). simpl. lia.
  - destruct (q x); simpl; lia.
Qed.

Lemma startUtc_of_day (start t : Z) :
  start mod 86400000 = 0 -> start <= t < start + 86400000 -> startUtc t = start.
Proof.
  unfold startUtc. intros Hs Ht.
  Z.to_euclidean_division_equations. lia.
Qed.

Lemma startUtc_mono (a b : Z) : a <= b -> startUtc a <= startUtc b.
Proof.
  unfold startUtc. intros H. Z.to_euclidean_division_equations. lia.
Qed.

Lemma cycle_decision_cap e w st zone tpl link :
  cycle_decision e w st = Attempt zone tpl link ->
  In zone (promo_zones st) /\ todayCount w st zone < dailyCap e zone.
Proof.
  unfold cycle_decision.
  destruct (inQuietHours _ _); [discriminate|].
  destruct (fetch_zones_error w); [discriminate|].
  destruct (nth_error _ _) as [z|] eqn:Hn; [|discriminate].
  destruct (_ <? _); [discriminate|].
  destruct (in_cooldown _ _ _); [discriminate|].
  destruct (count_error w); [discriminate|].
  destruct (_ <=? _) eqn:Hc; [discriminate|].
  destruct (pickWeighted _ _ _); [|discriminate].
  destruct (buildDeepLink _ _ _ _); [|discriminate].
  intros [= -> _ _]. apply nth_error_In in Hn. apply filter_In in Hn.
  split; [tauto|]. apply Z.leb_gt in Hc. exact Hc.
Qed.

Lemma unique_chat (zone z : Zone.t) (zones : list Zone.t) :
  NoDup (map Zone.telegram_chat_id zones) -> In zone zones -> In z zones ->
  Zone.telegram_chat_id z = Zone.telegram_chat_id zone -> z = zone.
Proof.
  induction zones as [|a zones IH]; simpl; [tauto|].
  intros Hnd Hzone Hz E. inversion Hnd as [|? ? Hni Hnd']; subst.
  destruct Hzone as [->|Hzone], Hz as [->|Hz]; auto.
  - exfalso. apply Hni. rewrite <- E. now apply in_map.
  - exfalso. apply Hni. rewrite E. now apply in_map.
Qed.

Lemma promoCycle_keeps_cap (e : environment) (w : world) (st : state) :
  NoDup (map Zone.telegram_chat_id (promo_zones st)) ->
  t_count w <= t_log w ->
  cap_respected e st ->
  cap_respected e (fst (promoCycle e w st))
  /\ map Zone.telegram_chat_id (promo_zones (fst (promoCycle e w st)))
     = map Zone.telegram_chat_id (promo_zones st).
Proof.
  intros Hnd Hclock Hinv.
  destruct (promoCycle_rows e w st) as (g & Hg & Hgs).
  assert (Hchat : map Zone.telegram_chat_id (promo_zones (fst (promoCycle e w st)))
                  = map Zone.telegram_chat_id (promo_zones st)).
  { rewrite Hg, map_map. apply map_ext. intros r. now destruct (Hgs r) as (_ & -> & _). }
  split; [|exact Hchat].
  intros z' start Hz' Hstart. rewrite Hg in Hz'. apply in_map_iff in Hz'.
  destruct Hz' as (z & <- & Hz).
  destruct (Hgs z) as (_ & Hc & _ & Hcap & _).
  assert (Hd : dailyCap e (g z) = dailyCap e z) by (unfold dailyCap; now rewrite Hcap).
  rewrite Hc, Hd. specialize (Hinv z start Hz Hstart).
  destruct (promoCycle_posts e w st) as [->|(zone & tpl & link & Hdec & _ & ->)];
    [exact Hinv|].
  unfold day_count in *. rewrite filter_app, length_app.
  destruct (counts_in_day (Zone.telegram_chat_id z) start (logged_row w zone tpl link))
    eqn:Hrow; cbn [filter]; rewrite Hrow; cbn [length]; [|lia].
  destruct (cycle_decision_cap e w st zone tpl link Hdec) as [Hzone Hlt].
  unfold counts_in_day, counts_today, logged_row in Hrow.
  destruct (log_insert_ok w); cbn in Hrow; [|discriminate].
  apply andb_prop in Hrow. destruct Hrow as [Hrow Hhi].
  apply andb_prop in Hrow. destruct Hrow as [Hrow Hlo].
  apply andb_prop in Hrow. destruct Hrow as [Hsame _].
  apply Z.eqb_eq in Hsame. apply Z.leb_le in Hlo. apply Z.ltb_lt in Hhi.
  assert (Ez : z = zone).
  { apply (unique_chat zone z (promo_zones st)); auto. }
  subst z.
  assert (Hday : startUtc (t_count w) <= start).
  { rewrite <- (startUtc_of_day start (t_log w) Hstart) by lia.
    now apply startUtc_mono. }
  assert (Hle : (length (filter (counts_in_day (Zone.telegram_chat_id zone) start)
                                (promo_posts st))
                 <= length (filter (counts_today (Zone.telegram_chat_id zone)
                                                 (startUtc (t_count w)))
                                   (promo_posts st)))%nat).
  { apply filter_length_le. intros p Hp. unfold counts_in_day, counts_today in *.
    destruct (Post.telegram_chat_id p); [|discriminate].
    apply andb_prop in Hp. destruct Hp as [Hp _].
    apply andb_prop in Hp. destruct Hp as [Hp Hlo'].
    rewrite Hp. simpl. apply Z.leb_le in Hlo'. apply Z.leb_le. lia. }
  unfold todayCount in Hlt. lia.
Qed.



(* ================================================================== *)
(** * Further properties of the quiet hours *)

Lemma skip_spaces_spec (s : jsstring) :
  exists sp, s = sp ++ skip_spaces s /\ Forall (fun c => is_space c = true) sp.
Proof.
  induction s as [|c s (sp & Hs & Hsp)]; simpl.
  - exists []. split; [reflexivity|constructor].
  - destruct (is_space c) eqn:E.
    + exists (c :: sp). split; [simpl; now rewrite <- Hs|now constructor].
    + exists []. split; [reflexivity|constructor].
Qed.

Lemma skip_spaces_app (sp r : jsstring) :
  Forall (fun c => is_space c = true) sp ->
  match r with c :: _ => is_space c = false | [] => True end ->
  skip_spaces (sp ++ r) = r.
Proof.
  induction 1 as [|c sp Hc Hsp IH]; simpl; intros Hr.
  - destruct r as [|c r]; simpl; [reflexivity|now rewrite Hr].
  - rewrite Hc. now apply IH.
Qed.

Lemma take_digits12_spec (s g r : jsstring) :
  take_digits12 s = Some (g, r) -> s = g ++ r /\ digits12 g.
Proof.
  unfold take_digits12, digits12. destruct s as [|a [|b s]]; [discriminate| |].
  - destruct (is_digit a) eqn:Ea; [|discriminate]. intros [= <- <-].
    repeat split; auto.
  - destruct (is_digit a) eqn:Ea; [|discriminate].
    destruct (is_digit b) eqn:Eb; intros [= <- <-]; repeat split; auto.
Qed.

Lemma take_digits12_app (g r : jsstring) :
  digits12 g ->
  match r with c :: _ => is_digit c = false | [] => True end ->
  take_digits12 (g ++ r) = Some (g, r).
Proof.
  unfold digits12, take_digits12. intros [Hlen Hd] Hr.
  destruct g as [|a [|b [|c g]]]; simpl in Hlen; try lia.
  - inversion Hd as [|? ? Ha _]; subst. simpl. rewrite Ha.
    destruct r as [|c r]; [reflexivity|now rewrite Hr].
  - inversion Hd as [|? ? Ha Hd']; subst. inversion Hd' as [|? ? Hb _]; subst.
    simpl. now rewrite Ha, Hb.
Qed.

Lemma digit_not_space (c : N) : is_digit c = true -> is_space c = false.
Proof.
  unfold is_digit, is_space. intros H. apply andb_prop in H. destruct H as [H1 H2].
  apply N.leb_le in H1. apply N.leb_le in H2.
  repeat (apply orb_false_intro);
    try (apply N.eqb_neq; lia);
    try (apply andb_false_intro1; apply N.leb_gt; lia);
    try (apply andb_false_intro2; apply N.leb_gt; lia).
Qed.

(** X8.  The hand-written matcher accepts exactly the strings of the regular
    expression [^(\d{1,2})\s*-\s*(\d{1,2})$]: one or two digits, any white
    space, a dash, any white space, one or two digits, and nothing else; and
    it captures the two groups of digits. *)
Theorem match_quiet_hours_is_the_regex (s g1 g2 : jsstring) :
  match_quiet_hours s = Some (g1, g2)
  <-> (digits12 g1 /\ digits12 g2
       /\ exists sp1 sp2,
            s = g1 ++ sp1 ++ js "-" ++ sp2 ++ g2
            /\ Forall (fun c => is_space c = true) sp1
            /\ Forall (fun c => is_space c = true) sp2).
Proof.
  unfold match_quiet_hours. split.
  - destruct (take_digits12 s) as [[h1 r1]|] eqn:E1; [|discriminate].
    destruct (take_digits12_spec s h1 r1 E1) as [Hs Hd1].
    destruct (skip_spaces_spec r1) as (sp1 & Hr1 & Hsp1).
    destruct (skip_spaces r1) as [|c r2]; [discriminate|].
    destruct (code_eqb c 45) eqn:Ec; [|discriminate].
    apply N.eqb_eq in Ec. subst c.
    destruct (skip_spaces_spec r2) as (sp2 & Hr2 & Hsp2).
    destruct (take_digits12 (skip_spaces r2)) as [[h2 [|x rest]]|] eqn:E2;
      try discriminate.
    destruct (take_digits12_spec _ h2 [] E2) as [Hs2 Hd2].
    rewrite app_nil_r in Hs2. intros [= <- <-].
    split; [exact Hd1|]. split; [exact Hd2|].
    exists sp1, sp2. split; [|now split].
    rewrite Hs, Hr1. simpl. rewrite Hr2 at 1. now rewrite Hs2.
  - intros (Hd1 & Hd2 & sp1 & sp2 & -> & Hsp1 & Hsp2).
    assert (Hg2 : match g2 with c :: _ => is_digit c = true | [] => False end).
    { destruct Hd2 as [Hl Hf]. destruct g2 as [|c g2]; [simpl in Hl; lia|].
      now inversion Hf. }
    rewrite take_digits12_app; [|exact Hd1|].
    2:{ destruct sp1 as [|c sp1]; simpl; [reflexivity|].
        inversion Hsp1 as [|? ? Hc _]; subst.
        destruct (is_digit c) eqn:Ed; [|reflexivity].
        apply digit_not_space in Ed. congruence. }
    rewrite skip_spaces_app; [|exact Hsp1|reflexivity].
    simpl. rewrite skip_spaces_app; [|exact Hsp2|].
    2:{ destruct g2 as [|c g2]; [tauto|]. now apply digit_not_space. }
    rewrite <- (app_nil_r g2) at 1.
    rewrite take_digits12_app; [reflexivity|exact Hd2|exact I].
Qed.

Lemma match_quiet_hours_is_the_regex_witness :
  match_quiet_hours (js "7 - 23") = Some (js "7", js "23").
Proof.
  apply (proj2 (match_quiet_hours_is_the_regex (js "7 - 23") (js "7") (js "23"))).
  split; [split; [now left|repeat constructor]|].
  split; [split; [now right|repeat constructor]|].
  exists (js " "), (js " "). repeat split; repeat constructor.
Defined.

Lemma parse_check_all :
  forallb (fun s => forallb (parse_check s) (zrange 100)) (zrange 100) = true.
Proof. vm_compute. reflexivity. Qed.

Lemma match_hh_hh (s e : Z) :
  0 <= s < 100 -> 0 <= e < 100 ->
  exists g1 g2, match_quiet_hours (hh_hh s e) = Some (g1, g2)
                /\ digits_value g1 = s /\ digits_value g2 = e.
Proof.
  intros Hs He.
  pose proof (forallb_zrange 100 _ parse_check_all s Hs) as H1. cbv beta in H1.
  pose proof (forallb_zrange 100 _ H1 e He) as H2. unfold parse_check in H2.
  destruct (match_quiet_hours (hh_hh s e)) as [[g1 g2]|]; [|discriminate].
  apply andb_prop in H2. destruct H2 as [Ha Hb].
  exists g1, g2. split; [reflexivity|]. split; now apply Z.eqb_eq.
Qed.

Lemma raw_window_all_day (s e : Z) :
  0 <= s -> 0 <= e ->
  (forall h, 0 <= h < 24 -> raw_window s e h = true)
  <-> 24 <= e /\ (s = 0 \/ e < s).
Proof.
  intros Hs He. unfold raw_window. split.
  - intros H. destruct (Z.leb_spec s e) as [Hle|Hlt].
    + pose proof (H 0 ltac:(lia)) as H0. pose proof (H 23 ltac:(lia)) as H23.
      apply andb_prop in H0. apply andb_prop in H23. lia.
    + destruct (Z_lt_le_dec e 24) as [He24|He24]; [|lia].
      pose proof (H e ltac:(lia)) as H0. apply orb_prop in H0.
      destruct H0 as [H0|H0]; lia.
  - intros [H24 Hse] h Hh. destruct (Z.leb_spec s e) as [Hle|Hlt].
    + apply andb_true_intro. split; lia.
    + apply orb_true_intro. right. lia.
Qed.

(** X9.  The hours of the window are not checked against 0..23.  For any two
    two-digit numbers [inQuietHours] applies the window test to the numbers
    as written, so an end of 24 or more with a start of 0, or with a start
    above the end, makes every hour of the day quiet and the cycle never
    posts; no other window does.  The earlier revision clamps both numbers to
    23 first and always leaves at least one hour that is not quiet. *)
Theorem quiet_hours_are_not_range_checked (s e : Z) :
  0 <= s < 100 -> 0 <= e < 100 ->
  (forall h, 0 <= h < 24 ->
     inQuietHours (hh_hh s e) h = raw_window s e h
     /\ Legacy.isQuietNowUtc (hh_hh s e) h
        = quiet_window (Z.min 23 s) (Z.min 23 e) h)
  /\ ((forall h, 0 <= h < 24 -> inQuietHours (hh_hh s e) h = true)
      <-> 24 <= e /\ (s = 0 \/ e < s))
  /\ (exists h, 0 <= h < 24 /\ Legacy.isQuietNowUtc (hh_hh s e) h = false).
Proof.
  intros Hs He. destruct (match_hh_hh s e Hs He) as (g1 & g2 & Hm & Hg1 & Hg2).
  assert (Hin : forall h, inQuietHours (hh_hh s e) h = raw_window s e h).
  { intros h. unfold inQuietHours. rewrite Hm, Hg1, Hg2. reflexivity. }
  assert (Hleg : forall h, Legacy.isQuietNowUtc (hh_hh s e) h
                           = quiet_window (Z.min 23 s) (Z.min 23 e) h).
  { intros h. unfold Legacy.isQuietNowUtc, Legacy.parseQuietHours, quiet_window.
    rewrite Hm, Hg1, Hg2. rewrite !Z.max_r by lia.
    destruct (Z.eqb_spec (Z.min 23 s) (Z.min 23 e)) as [E|E].
    - rewrite E, Z.ltb_irrefl. reflexivity.
    - destruct (Z.ltb_spec (Z.min 23 s) (Z.min 23 e)); [reflexivity|].
      destruct (Z.ltb_spec (Z.min 23 e) (Z.min 23 s)); [reflexivity|lia]. }
  split; [intros h _; split; [apply Hin|apply Hleg]|]. split.
  - rewrite <- (raw_window_all_day s e) by lia.
    split; intros H h Hh; [rewrite <- Hin|rewrite Hin]; now apply H.
  - destruct (Z_lt_le_dec (Z.min 23 s) (Z.min 23 e)) as [Hlt|Hge].
    + exists 23. split; [lia|]. rewrite Hleg. unfold quiet_window.
      destruct (Z.ltb_spec (Z.min 23 s) (Z.min 23 e)); [|lia].
      apply andb_false_intro2. apply Z.ltb_ge. lia.
    + exists (Z.min 23 e). split; [lia|]. rewrite Hleg. unfold quiet_window.
      destruct (Z.ltb_spec (Z.min 23 s) (Z.min 23 e)); [lia|].
      destruct (Z.ltb_spec (Z.min 23 e) (Z.min 23 s)); [|reflexivity].
      apply orb_false_intro; [apply Z.leb_gt|apply Z.ltb_ge]; lia.
Qed.

Lemma quiet_hours_are_not_range_checked_witness :
  inQuietHours (js "00-24") 13 = true.
Proof.
  refine (proj2 (proj1 (proj2 (quiet_hours_are_not_range_checked 0 24 _ _))) _
            13 _);
    lia.
Defined.

(* ================================================================== *)
(** * The interval between cycles *)

Lemma interval_bounds_set (ie : interval_environment) :
  PROMO_INTERVAL_MIN_MINUTES ie
  = Some (Z.max 1 (Number_env (env_PROMO_INTERVAL_MIN_MINUTES ie) 0))
  /\ PROMO_INTERVAL_MAX_MINUTES ie
     = Some (Z.max 1 (Number_env (env_PROMO_INTERVAL_MAX_MINUTES ie) 0)).
Proof.
  unfold PROMO_INTERVAL_MIN_MINUTES, PROMO_INTERVAL_MAX_MINUTES, or_null.
  split.
  - destruct (Z.eqb_spec (Z.max 1 (Number_env (env_PROMO_INTERVAL_MIN_MINUTES ie) 0)) 0);
      [lia|reflexivity].
  - destruct (Z.eqb_spec (Z.max 1 (Number_env (env_PROMO_INTERVAL_MAX_MINUTES ie) 0)) 0);
      [lia|reflexivity].
Qed.

Lemma Qfloor_between (lo n : Z) (x : Q) :
  (inject_Z lo <= x)%Q -> (x < inject_Z n)%Q -> lo <= Qfloor x < n.
Proof.
  intros H1 H2. split.
  - rewrite <- (Qfloor_Z lo). now apply Qfloor_resp_le.
  - pose proof (Qfloor_le x) as Hf. rewrite Zlt_Qlt. lra.
Qed.

(** X10.  The delay to the next cycle, on binary64 numbers.  With integer
    settings both randomized bounds are always present (an unset bound reads
    as 1 minute), so the fixed [PROMO_INTERVAL_MINUTES] is used only when the
    lower bound exceeds the upper one; otherwise the delay is
    [floor (min + u * (max - min + 1))] minutes, and with neither bound set
    it is [floor (1 + u)] minutes whatever [PROMO_INTERVAL_MINUTES] says.
    The rounded sum can reach the next integer, so the delay can pass the
    upper bound: for the bounds 10 and 20 the draw [1 - 2^-52] gives 21
    minutes; with [PROMO_INTERVAL_MINUTES=15] and no bound set the draw 1/2
    gives 1 minute and the draw [1 - 2^-53] gives 2. *)
Theorem interval_follows_the_bounds (ie : interval_environment) (u : float) :
  let lo := Z.max 1 (Number_env (env_PROMO_INTERVAL_MIN_MINUTES ie) 0) in
  let hi := Z.max 1 (Number_env (env_PROMO_INTERVAL_MAX_MINUTES ie) 0) in
  (PROMO_INTERVAL_MIN_MINUTES ie = Some lo
   /\ PROMO_INTERVAL_MAX_MINUTES ie = Some hi)
  /\ ((Binary64.of_Z lo <=? Binary64.of_Z hi)%float = true ->
      computeNextIntervalMs ie u
      = (Binary64.Math_floor
           (Binary64.of_Z lo
            + u * (Binary64.of_Z hi - Binary64.of_Z lo + 1)) * 60 * 1000)%float)
  /\ ((Binary64.of_Z lo <=? Binary64.of_Z hi)%float = false ->
      computeNextIntervalMs ie u
      = (Binary64.of_Z (PROMO_INTERVAL_MINUTES ie) * 60 * 1000)%float)
  /\ (env_PROMO_INTERVAL_MIN_MINUTES ie = None ->
      env_PROMO_INTERVAL_MAX_MINUTES ie = None ->
      computeNextIntervalMs ie u
      = (Binary64.Math_floor (1 + u * 1) * 60 * 1000)%float)
  /\ computeNextIntervalMs (mkIntervalEnv None (Some 10) (Some 20))
       0x1.ffffffffffffep-1 = 1260000%float
  /\ computeNextIntervalMs (mkIntervalEnv (Some 15) None None) 0x1p-1
     = 60000%float
  /\ computeNextIntervalMs (mkIntervalEnv (Some 15) None None)
       0x1.fffffffffffffp-1 = 120000%float.
Proof.
  intros lo hi. destruct (interval_bounds_set ie) as [Hmin Hmax].
  fold lo in Hmin. fold hi in Hmax.
  split; [split; assumption|].
  split; [|split; [|split]].
  - intros H. unfold computeNextIntervalMs. rewrite Hmin, Hmax. cbv zeta.
    now rewrite H.
  - intros H. unfold computeNextIntervalMs. rewrite Hmin, Hmax. cbv zeta.
    now rewrite H.
  - intros Ha Hb. unfold computeNextIntervalMs. rewrite Hmin, Hmax.
    unfold lo, hi. rewrite Ha, Hb. reflexivity.
  - vm_compute. repeat split.
Qed.

(** X11.  The earlier revision draws a real number of minutes between the smaller
    and the larger bound and rounds it to the millisecond: the delay lies
    between the two bounds, in either order; with neither bound set it is one
    minute as well. *)
Theorem legacy_interval_is_between_the_bounds (ie : interval_environment) (u : Q) :
  (0 <= u)%Q -> (u < 1)%Q ->
  let a := Z.max 1 (Number_env (env_PROMO_INTERVAL_MIN_MINUTES ie) 0) in
  let b := Z.max 1 (Number_env (env_PROMO_INTERVAL_MAX_MINUTES ie) 0) in
  Z.min a b * 60000 <= Legacy.computeNextIntervalMs ie u <= Z.max a b * 60000
  /\ (env_PROMO_INTERVAL_MIN_MINUTES ie = None ->
      env_PROMO_INTERVAL_MAX_MINUTES ie = None ->
      Legacy.computeNextIntervalMs ie u = 60000).
Proof.
  intros Hu0 Hu1 a b. destruct (interval_bounds_set ie) as [Hmin Hmax].
  fold a in Hmin. fold b in Hmax.
  assert (Hb : Z.min a b * 60000 <= Legacy.computeNextIntervalMs ie u
               <= Z.max a b * 60000).
  { unfold Legacy.computeNextIntervalMs, Legacy.Math_round. rewrite Hmin, Hmax.
    cbv zeta. set (lo := Z.min a b). set (hi := Z.max a b).
    assert (Hd : (0 <= inject_Z (hi - lo))%Q).
    { change 0%Q with (inject_Z 0). rewrite <- Zle_Qle. lia. }
    assert (Hhi : (inject_Z hi == inject_Z lo + inject_Z (hi - lo))%Q).
    { rewrite <- inject_Z_plus. now replace (lo + (hi - lo)) with hi by lia. }
    assert (H6 : (inject_Z 60 * inject_Z 1000 == inject_Z 60000)%Q) by reflexivity.
    assert (Hv0 : (0 <= u * inject_Z (hi - lo))%Q).
    { apply Qmult_le_0_compat; lra. }
    assert (Hv1 : (u * inject_Z (hi - lo) <= 1 * inject_Z (hi - lo))%Q).
    { apply Qmult_le_compat_r; lra. }
    assert (Hx : ((inject_Z lo + u * inject_Z (hi - lo)) * inject_Z 60 * inject_Z 1000
                  == (inject_Z lo + u * inject_Z (hi - lo)) * inject_Z 60000)%Q).
    { rewrite <- Qmult_assoc. now rewrite H6. }
    destruct (Qfloor_between (lo * 60000) (hi * 60000 + 1)
                ((inject_Z lo + u * inject_Z (hi - lo)) * inject_Z 60 * inject_Z 1000
                 + (1 # 2))) as [H1 H2].
    - rewrite Hx, inject_Z_mult.
      change (inject_Z 60000) with (60000 # 1)%Q. lra.
    - rewrite Hx, inject_Z_plus, inject_Z_mult. rewrite Hhi.
      change (inject_Z 1) with 1%Q. change (inject_Z 60000) with (60000 # 1)%Q. lra.
    - lia. }
  split; [exact Hb|]. intros Ha Hb'.
  assert (a = 1) by (unfold a; now rewrite Ha).
  assert (b = 1) by (unfold b; now rewrite Hb').
  subst a b. rewrite H, H0 in Hb. simpl in Hb. lia.
Qed.

Lemma legacy_interval_is_between_the_bounds_witness :
  Z.min 10 20 * 60000
  <= Legacy.computeNextIntervalMs (mkIntervalEnv None (Some 10) (Some 20)) (1 # 3)
  <= Z.max 10 20 * 60000.
Proof.
  refine (proj1 (legacy_interval_is_between_the_bounds
                   (mkIntervalEnv None (Some 10) (Some 20)) (1 # 3) _ _)).
  - unfold Qle. simpl. lia.
  - reflexivity.
Defined.

(* ================================================================== *)
(** * Further properties of the deep link *)

Lemma jsstring_pair_ind (P : jsstring -> Prop) :
  P [] -> (forall c, P [c]) ->
  (forall c d s, P s -> P (d :: s) -> P (c :: d :: s)) ->
  forall s, P s.
Proof.
  intros H0 H1 H2 s.
  enough (H : P s /\ forall c, P (c :: s)) by apply H.
  induction s as [|d s [IH1 IH2]].
  - split; [exact H0|exact H1].
  - split; [apply IH2|]. intros c. apply H2; [exact IH1|apply IH2].
Qed.

Lemma unreserved_not_surrogate (c : N) :
  uri_unreserved c = true -> is_low_surrogate c = false /\ is_high_surrogate c = false.
Proof.
  intros H. assert (Hc : (c < 128)%N).
  { destruct (N.lt_ge_cases c 128) as [|Hge]; [assumption|exfalso].
    unfold uri_unreserved, is_alnum, is_digit, is_upper, is_lower in H.
    repeat (apply orb_prop in H; destruct H as [H|H]);
      try (apply andb_prop in H; destruct H as [_ H]; apply N.leb_le in H; lia);
      apply N.eqb_eq in H; lia. }
  unfold is_low_surrogate, is_high_surrogate.
  split; apply andb_false_intro1; apply N.leb_gt; lia.
Qed.

Lemma option_map_none {A B : Type} (f : A -> B) (o : option A) :
  option_map f o = None <-> o = None.
Proof. destruct o; simpl; split; congruence. Qed.

Lemma encodeURIComponent_fails_iff (s : jsstring) :
  encodeURIComponent s = None <-> well_formed_utf16 s = false.
Proof.
  induction s as [| c | c d s IH1 IH2] using jsstring_pair_ind.
  - simpl. split; discriminate.
  - simpl. destruct (uri_unreserved c) eqn:Eu.
    + destruct (unreserved_not_surrogate c Eu) as [-> ->]. simpl. split; discriminate.
    + destruct (is_low_surrogate c); [tauto|].
      destruct (is_high_surrogate c); [tauto|]. simpl. split; discriminate.
  - change (encodeURIComponent (c :: d :: s))
      with (if uri_unreserved c
            then option_map (cons c) (encodeURIComponent (d :: s))
            else if is_low_surrogate c then None
            else if is_high_surrogate c
                 then if is_low_surrogate d
                      then option_map
                             (app (percent_encode
                                     ((c - 55296) * 1024 + (d - 56320) + 65536)%N))
                             (encodeURIComponent s)
                      else None
                 else option_map (app (percent_encode c))
                                 (encodeURIComponent (d :: s))).
    change (well_formed_utf16 (c :: d :: s))
      with (if is_low_surrogate c then false
            else if is_high_surrogate c
                 then is_low_surrogate d && well_formed_utf16 s
                 else well_formed_utf16 (d :: s)).
    destruct (uri_unreserved c) eqn:Eu.
    + destruct (unreserved_not_surrogate c Eu) as [-> ->].
      etransitivity; [apply option_map_none|exact IH2].
    + destruct (is_low_surrogate c); [tauto|].
      destruct (is_high_surrogate c).
      * destruct (is_low_surrogate d); simpl; [|tauto].
        etransitivity; [apply option_map_none|exact IH1].
      * etransitivity; [apply option_map_none|exact IH2].
Qed.

Lemma hex_byte_chars (b : N) :
  (b < 256)%N -> Forall uri_char (percent_byte b) /\ length (percent_byte b) = 3%nat.
Proof.
  intros Hb. split; [|reflexivity]. unfold percent_byte, uri_char.
  constructor; [now right|]. constructor.
  { left. apply hex_char_unreserved. apply N.Div0.div_lt_upper_bound. lia. }
  constructor; [|constructor]. left. apply hex_char_unreserved. apply N.mod_lt. lia.
Qed.

Lemma percent_encode_chars (cp : N) (k : nat) :
  ((cp < 65536)%N /\ k = 9%nat) \/ ((cp < 1114112)%N /\ k = 12%nat) ->
  Forall uri_char (percent_encode cp) /\ (length (percent_encode cp) <= k)%nat.
Proof.
  intros Hcp. unfold percent_encode, utf8.
  assert (H64 : forall x, (128 + x mod 64 < 256)%N).
  { intros x. pose proof (N.mod_lt x 64 ltac:(lia)). lia. }
  destruct (N.ltb_spec cp 128); [|destruct (N.ltb_spec cp 2048);
                                   [|destruct (N.ltb_spec cp 65536)]];
    cbn [flat_map]; rewrite ?app_nil_r, ?length_app;
    repeat match goal with
           | |- context [percent_byte ?b] =>
               let H := fresh "Hb" in
               assert (H : Forall uri_char (percent_byte b)
                           /\ length (percent_byte b) = 3%nat);
               [apply hex_byte_chars;
                try apply H64;
                try (assert (cp / 64 < 32)%N
                       by (apply N.Div0.div_lt_upper_bound; lia); lia);
                try (assert (cp / 4096 < 16)%N
                       by (apply N.Div0.div_lt_upper_bound; lia); lia);
                try (assert (cp / 262144 < 5)%N
                       by (apply N.Div0.div_lt_upper_bound; lia); lia);
                try lia
               |destruct H as [? ->]; generalize dependent (percent_byte b); intros]
           end;
    (split; [repeat (apply Forall_app; split); assumption
            |destruct Hcp as [[? ->]|[? ->]]; simpl; lia]).
Qed.

Lemma encodeURIComponent_chars (s t : jsstring) :
  Forall is_unit s -> encodeURIComponent s = Some t ->
  Forall uri_char t /\ (length t <= 9 * length s)%nat.
Proof.
  revert t. induction s as [| c | c d s IH1 IH2] using jsstring_pair_ind;
    intros t Hu.
  - intros [= <-]. split; [constructor|simpl; lia].
  - inversion Hu as [|? ? Hc _]; subst. simpl.
    destruct (uri_unreserved c) eqn:Eu.
    + intros [= <-]. split; [constructor; [now left|constructor]|simpl; lia].
    + destruct (is_low_surrogate c); [discriminate|].
      destruct (is_high_surrogate c); [discriminate|]. simpl. intros [= <-].
      destruct (percent_encode_chars c 9) as [H1 H2]; [left; now split|].
      rewrite app_nil_r. split; [exact H1|simpl; lia].
  - inversion Hu as [|? ? Hc Hu']; subst. inversion Hu' as [|? ? Hd Hu'']; subst.
    change (encodeURIComponent (c :: d :: s))
      with (if uri_unreserved c
            then option_map (cons c) (encodeURIComponent (d :: s))
            else if is_low_surrogate c then None
            else if is_high_surrogate c
                 then if is_low_surrogate d
                      then option_map
                             (app (percent_encode
                                     ((c - 55296) * 1024 + (d - 56320) + 65536)%N))
                             (encodeURIComponent s)
                      else None
                 else option_map (app (percent_encode c))
                                 (encodeURIComponent (d :: s))).
    destruct (uri_unreserved c) eqn:Eu.
    + destruct (encodeURIComponent (d :: s)) as [t'|]; [|discriminate].
      intros [= <-]. destruct (IH2 t' Hu' eq_refl) as [H1 H2].
      split; [constructor; [now left|exact H1]|simpl in *; lia].
    + destruct (is_low_surrogate c) eqn:El; [discriminate|].
      destruct (is_high_surrogate c) eqn:Eh.
      * destruct (is_low_surrogate d) eqn:Ed; [|discriminate].
        destruct (encodeURIComponent s) as [t'|]; [|discriminate].
        intros [= <-]. destruct (IH1 t' Hu'' eq_refl) as [H1 H2].
        unfold is_high_surrogate, is_low_surrogate in Eh, Ed.
        apply andb_prop in Eh. destruct Eh as [Eh1 Eh2].
        apply andb_prop in Ed. destruct Ed as [Ed1 Ed2].
        apply N.leb_le in Eh1, Eh2, Ed1, Ed2.
        destruct (percent_encode_chars
                    ((c - 55296) * 1024 + (d - 56320) + 65536)%N 12) as [H3 H4];
          [right; split; [lia|reflexivity]|].
        split; [apply Forall_app; now split|].
        rewrite length_app. simpl in *. lia.
      * destruct (encodeURIComponent (d :: s)) as [t'|]; [|discriminate].
        intros [= <-]. destruct (IH2 t' Hu' eq_refl) as [H1 H2].
        destruct (percent_encode_chars c 9) as [H3 H4]; [left; now split|].
        split; [apply Forall_app; now split|].
        rewrite length_app. simpl in *. lia.
Qed.

Lemma encodeURIComponent_app (a b : jsstring) :
  match b with d :: _ => is_low_surrogate d = false | [] => True end ->
  encodeURIComponent (a ++ b)
  = match encodeURIComponent a, encodeURIComponent b with
    | Some x, Some y => Some (x ++ y)
    | _, _ => None
    end.
Proof.
  intros Hb. induction a as [| c | c d s IH1 IH2] using jsstring_pair_ind.
  - simpl. now destruct (encodeURIComponent b).
  - change ([c] ++ b) with (c :: b). simpl.
    destruct (uri_unreserved c).
    + now destruct (encodeURIComponent b).
    + destruct (is_low_surrogate c); [reflexivity|].
      destruct (is_high_surrogate c).
      * destruct b as [|d b']; [reflexivity|]. now rewrite Hb.
      * destruct (encodeURIComponent b); simpl; [|reflexivity].
        now rewrite app_nil_r.
  - change ((c :: d :: s) ++ b) with (c :: d :: (s ++ b)).
    change (encodeURIComponent (c :: d :: s ++ b))
      with (if uri_unreserved c
            then option_map (cons c) (encodeURIComponent ((d :: s) ++ b))
            else if is_low_surrogate c then None
            else if is_high_surrogate c
                 then if is_low_surrogate d
                      then option_map
                             (app (percent_encode
                                     ((c - 55296) * 1024 + (d - 56320) + 65536)%N))
                             (encodeURIComponent (s ++ b))
                      else None
                 else option_map (app (percent_encode c))
                                 (encodeURIComponent ((d :: s) ++ b))).
    change (encodeURIComponent (c :: d :: s))
      with (if uri_unreserved c
            then option_map (cons c) (encodeURIComponent (d :: s))
            else if is_low_surrogate c then None
            else if is_high_surrogate c
                 then if is_low_surrogate d
                      then option_map
                             (app (percent_encode
                                     ((c - 55296) * 1024 + (d - 56320) + 65536)%N))
                             (encodeURIComponent s)
                      else None
                 else option_map (app (percent_encode c))
                                 (encodeURIComponent (d :: s))).
    rewrite IH1, IH2.
    destruct (uri_unreserved c).
    + destruct (encodeURIComponent (d :: s)); [|reflexivity].
      now destruct (encodeURIComponent b).
    + destruct (is_low_surrogate c); [reflexivity|].
      destruct (is_high_surrogate c).
      * destruct (is_low_surrogate d); [|reflexivity].
        destruct (encodeURIComponent s); [|reflexivity].
        destruct (encodeURIComponent b); simpl; [|reflexivity].
        now rewrite app_assoc.
      * destruct (encodeURIComponent (d :: s)); [|reflexivity].
        destruct (encodeURIComponent b); simpl; [|reflexivity].
        now rewrite app_assoc.
Qed.

Lemma firstn_S_nth {A : Type} (d : A) (n : nat) (l : list A) :
  (n < length l)%nat -> firstn (S n) l = firstn n l ++ [nth n l d].
Proof.
  revert l. induction n as [|n IH]; intros [|x l] Hl; simpl in Hl; try lia.
  - reflexivity.
  - change (firstn (S (S n)) (x :: l)) with (x :: firstn (S n) l).
    rewrite (IH l) by lia. reflexivity.
Qed.

Lemma deepLinkToken_parts (zoneId templateId : jsstring) :
  deepLinkToken zoneId templateId
  = match encodeURIComponent (slice0 8 zoneId),
          encodeURIComponent (slice0 8 templateId) with
    | Some z, Some t => Some (js "pz_" ++ z ++ js "_t_" ++ t)
    | _, _ => None
    end.
Proof.
  unfold deepLinkToken, deepLinkPayload.
  change (js "pz_" ++ slice0 8 zoneId ++ js "_t_" ++ slice0 8 templateId)
    with (112%N :: 122%N :: 95%N
          :: (slice0 8 zoneId ++ (95%N :: 116%N :: 95%N :: slice0 8 templateId))).
  change (encodeURIComponent
            (112%N :: 122%N :: 95%N
             :: (slice0 8 zoneId ++ (95%N :: 116%N :: 95%N :: slice0 8 templateId))))
    with (option_map (cons 112%N)
            (option_map (cons 122%N)
               (option_map (cons 95%N)
                  (encodeURIComponent
                     (slice0 8 zoneId
                      ++ (95%N :: 116%N :: 95%N :: slice0 8 templateId)))))).
  rewrite encodeURIComponent_app by reflexivity.
  change (encodeURIComponent (95%N :: 116%N :: 95%N :: slice0 8 templateId))
    with (option_map (cons 95%N)
            (option_map (cons 116%N)
               (option_map (cons 95%N)
                  (encodeURIComponent (slice0 8 templateId))))).
  destruct (encodeURIComponent (slice0 8 zoneId)); [|reflexivity].
  destruct (encodeURIComponent (slice0 8 templateId)); reflexivity.
Qed.

Lemma split_pair_has_no_token (zoneId templateId : jsstring) :
  is_high_surrogate (nth 7 templateId 0%N) = true ->
  deepLinkToken zoneId templateId = None.
Proof.
  intros Hh. rewrite deepLinkToken_parts.
  assert (Hlen : (7 < length templateId)%nat).
  { destruct (Nat.lt_ge_cases 7 (length templateId)) as [|Hge]; [assumption|].
    rewrite nth_overflow in Hh by exact Hge. discriminate. }
  unfold slice0 at 2. rewrite (firstn_S_nth 0%N 7 templateId Hlen).
  assert (Hl : is_low_surrogate (nth 7 templateId 0%N) = false).
  { unfold is_high_surrogate in Hh. apply andb_prop in Hh. destruct Hh as [_ Hh].
    apply N.leb_le in Hh. unfold is_low_surrogate.
    apply andb_false_intro1. apply N.leb_gt. lia. }
  rewrite encodeURIComponent_app by exact Hl.
  assert (He : encodeURIComponent [nth 7 templateId 0%N] = None).
  { apply encodeURIComponent_fails_iff. simpl. now rewrite Hl, Hh. }
  rewrite He. destruct (encodeURIComponent (slice0 8 zoneId)); [|reflexivity].
  now destruct (encodeURIComponent (firstn 7 templateId)).
Qed.




(** X12 (deep link, any ids): [buildDeepLink] percent-encodes the two
    clipped ids separately between the literal parts; it throws exactly when
    one clipped id holds a surrogate code unit that is not half of a pair,
    which the cut after eight code units produces whenever the eighth unit
    of an id is the first half of a pair; a token it returns is made of
    unreserved characters and percent signs and is at most 150 characters
    long. *)
Theorem deep_link_token_of_any_ids (zoneId templateId : jsstring) :
  Forall is_unit zoneId -> Forall is_unit templateId ->
  deepLinkToken zoneId templateId
  = match encodeURIComponent (slice0 8 zoneId),
          encodeURIComponent (slice0 8 templateId) with
    | Some z, Some t => Some (js "pz_" ++ z ++ js "_t_" ++ t)
    | _, _ => None
    end
  /\ (deepLinkToken zoneId templateId = None
      <-> well_formed_utf16 (slice0 8 zoneId) = false
          \/ well_formed_utf16 (slice0 8 templateId) = false)
  /\ (is_high_surrogate (nth 7 templateId 0%N) = true ->
      deepLinkToken zoneId templateId = None)
  /\ (forall tok, deepLinkToken zoneId templateId = Some tok ->
      Forall uri_char tok /\ (length tok <= 150)%nat).
Proof.
  intros Hz Ht. split; [apply deepLinkToken_parts|]. split; [|split].
  - rewrite deepLinkToken_parts, <- !encodeURIComponent_fails_iff.
    destruct (encodeURIComponent (slice0 8 zoneId));
      destruct (encodeURIComponent (slice0 8 templateId)); split;
      try (intros [H|H]; congruence); try congruence; auto.
  - apply split_pair_has_no_token.
  - intros tok. rewrite deepLinkToken_parts.
    destruct (encodeURIComponent (slice0 8 zoneId)) as [z|] eqn:Ez; [|discriminate].
    destruct (encodeURIComponent (slice0 8 templateId)) as [t|] eqn:Et;
      [|discriminate].
    intros [= <-].
    destruct (encodeURIComponent_chars _ _ (Forall_firstn _ _ _ Hz) Ez) as [Hz1 Hz2].
    destruct (encodeURIComponent_chars _ _ (Forall_firstn _ _ _ Ht) Et) as [Ht1 Ht2].
    unfold slice0 in *. split.
    + repeat (constructor; [left; reflexivity|]).
      apply Forall_app. split; [assumption|].
      repeat (constructor; [left; reflexivity|]). assumption.
    + cbn [length]. rewrite length_app. cbn [length].
      assert (length (firstn 8 zoneId) <= 8)%nat by (rewrite length_firstn; lia).
      assert (length (firstn 8 templateId) <= 8)%nat by (rewrite length_firstn; lia).
      lia.
Qed.

Lemma deep_link_token_of_any_ids_witness :
  deepLinkToken (js "7") (js "welcome" ++ [55357%N; 56832%N]) = None.
Proof.
  refine (proj1 (proj2 (proj2 (deep_link_token_of_any_ids
                                 (js "7") (js "welcome" ++ [55357%N; 56832%N])
                                 _ _))) _).
  - repeat constructor.
  - repeat constructor.
  - reflexivity.
Defined.

(** X13 (cycle, template ids cut inside a pair): while every enabled
    template has an id whose eighth code unit is the first half of a
    surrogate pair, no cycle calls [sendMessage] and the store is never
    changed, whatever the zones, the clock and the draws are: each cycle
    that gets as far as the link ends in the cycle error. *)
Theorem split_pair_ids_stop_every_send (e : environment) (ws : list world)
    (st : state) :
  (forall w tpl, In w ws -> In tpl (templates w) ->
     is_high_surrogate (nth 7 (Template.id tpl) 0%N) = true) ->
  fst (run e ws st) = st /\ sends (snd (run e ws st)) = [].
Proof.
  revert st. induction ws as [|w ws IH]; intros st Hall; [now split|].
  simpl.
  assert (Hc : promoCycle e w st = (st, [])
               \/ promoCycle e w st = (st, [EvConsole CYCLE_ERROR])).
  { destruct (promoCycle_spec e w st) as [H|(zone & tpl & link & Hr & _)];
      [exact H|exfalso].
    destruct Hr as (_ & _ & _ & _ & _ & _ & _ & _ & Hp & Hb).
    apply pickWeighted_In in Hp. rewrite filter_Boolean_Some in Hp.
    unfold buildDeepLink in Hb.
    rewrite (split_pair_has_no_token _ _ (Hall w tpl (or_introl eq_refl) Hp)) in Hb.
    discriminate. }
  destruct (IH st (fun w' tpl Hw => Hall w' tpl (or_intror Hw))) as [H1 H2].
  destruct Hc as [-> | ->]; destruct (run e ws st) as [st2 tr2]; simpl in *;
    split; assumption.
Qed.

Lemma split_pair_ids_stop_every_send_witness :
  fst (run ex_env [ex_world_split; ex_world_split] ex_state) = ex_state
  /\ sends (snd (run ex_env [ex_world_split; ex_world_split] ex_state)) = [].
Proof.
  apply split_pair_ids_stop_every_send.
  intros w tpl [<-|[<-|[]]] [<-|[]]; reflexivity.
Defined.

(* ================================================================== *)
(** * Decimal strings and the ids a deep link carries *)

Lemma digits_fuel_app (f : nat) (base n : N) (acc : jsstring) :
  digits_fuel f base n acc = digits_fuel f base n [] ++ acc.
Proof.
  revert n acc. induction f as [|f IH]; intros n acc; [reflexivity|].
  cbn [digits_fuel]. cbv zeta.
  destruct (n / base =? 0)%N; [reflexivity|].
  rewrite (IH (n / base)%N (digit_char (n mod base) :: acc)).
  rewrite (IH (n / base)%N [digit_char (n mod base)]).
  now rewrite <- app_assoc.
Qed.

Lemma digits_value_snoc (s : jsstring) (c : N) :
  digits_value (s ++ [c]) = 10 * digits_value s + (Z.of_N c - 48).
Proof. unfold digits_value. now rewrite fold_left_app. Qed.

Lemma digits_fuel_value (f : nat) (n : N) :
  (n < 2 ^ N.of_nat f)%N ->
  digits_value (digits_fuel (S f) 10 n []) = Z.of_N n.
Proof.
  revert n. induction f as [|f IH]; intros n Hn.
  - change (2 ^ N.of_nat 0)%N with 1%N in Hn.
    assert (n = 0%N) by lia. subst n. reflexivity.
  - change (digits_fuel (S (S f)) 10 n [])
      with (if (n / 10 =? 0)%N then [digit_char (n mod 10)]
            else digits_fuel (S f) 10 (n / 10) [digit_char (n mod 10)]).
    pose proof (N.mod_lt n 10 ltac:(lia)) as Hm.
    assert (Hd : Z.of_N (digit_char (n mod 10)) - 48 = Z.of_N (n mod 10)).
    { unfold digit_char. destruct (N.ltb_spec (n mod 10) 10); lia. }
    pose proof (N.div_mod n 10 ltac:(lia)) as Hdm.
    destruct (N.eqb_spec (n / 10) 0) as [E|E].
    + unfold digits_value. cbn [fold_left]. lia.
    + rewrite digits_fuel_app, digits_value_snoc, IH, Hd; [lia|].
      rewrite Nat2N.inj_succ, N.pow_succ_r' in Hn.
      apply N.Div0.div_lt_upper_bound. lia.
Qed.

Lemma digits_fuel_digits (f : nat) (n : N) (acc : jsstring) :
  Forall (fun c => is_digit c = true) acc ->
  Forall (fun c => is_digit c = true) (digits_fuel f 10 n acc).
Proof.
  revert n acc. induction f as [|f IH]; intros n acc Hacc; [exact Hacc|].
  cbn [digits_fuel]. cbv zeta.
  assert (Hc : is_digit (digit_char (n mod 10)) = true).
  { pose proof (N.mod_lt n 10 ltac:(lia)). unfold digit_char, is_digit.
    destruct (N.ltb_spec (n mod 10) 10); [|lia].
    apply andb_true_intro. split; apply N.leb_le; [apply N.le_add_r|lia]. }
  destruct (n / 10 =? 0)%N; [now constructor|]. apply IH. now constructor.
Qed.

Lemma digits_fuel_length (f : nat) (n : N) (k : nat) (acc : jsstring) :
  (n < 10 ^ N.of_nat (S k))%N ->
  (length (digits_fuel f 10 n acc) <= S k + length acc)%nat.
Proof.
  revert n k acc. induction f as [|f IH]; intros n k acc Hn; [simpl; lia|].
  cbn [digits_fuel]. cbv zeta.
  destruct (N.eqb_spec (n / 10) 0) as [E|E]; [simpl; lia|].
  destruct k as [|k].
  - exfalso. apply E. apply N.div_small. exact Hn.
  - specialize (IH (n / 10)%N k (digit_char (n mod 10) :: acc)).
    cbn [length] in IH. rewrite Nat.add_succ_r in IH. apply IH.
    rewrite Nat2N.inj_succ, N.pow_succ_r' in Hn.
    apply N.Div0.div_lt_upper_bound. exact Hn.
Qed.

Lemma String_of_Z_spec (z : Z) :
  0 <= z ->
  digits_value (String_of_Z z) = z
  /\ Forall (fun c => is_digit c = true) (String_of_Z z).
Proof.
  intros Hz. unfold String_of_Z, Z_to_radix.
  destruct (Z.ltb_spec z 0); [lia|]. unfold to_radix. split.
  - rewrite digits_fuel_value; [lia|]. rewrite N2Nat.id. apply N.size_gt.
  - apply digits_fuel_digits. constructor.
Qed.

Lemma String_of_Z_length (z : Z) :
  0 <= z < 100000000 -> (length (String_of_Z z) <= 8)%nat.
Proof.
  intros Hz. unfold String_of_Z, Z_to_radix.
  destruct (Z.ltb_spec z 0); [lia|]. unfold to_radix.
  pose proof (digits_fuel_length (S (N.to_nat (N.size (Z.to_N z)))) (Z.to_N z) 7 [])
    as HL. cbn [length] in HL. rewrite Nat.add_0_r in HL. apply HL.
  change (10 ^ N.of_nat 8)%N with 100000000%N. lia.
Qed.

Lemma app_delim_inj {A : Type} (P : A -> Prop) (c : A) (d1 d2 r1 r2 : list A) :
  Forall P d1 -> Forall P d2 -> ~ P c ->
  d1 ++ c :: r1 = d2 ++ c :: r2 -> d1 = d2 /\ r1 = r2.
Proof.
  intros H1. revert d2. induction H1 as [|x d1 Hx H1 IH]; intros d2 H2 Hc E.
  - destruct H2 as [|y d2 Hy H2]; simpl in E.
    + injection E as E. now split.
    + injection E as E1 E2. now subst y.
  - destruct H2 as [|y d2 Hy H2]; simpl in E.
    + injection E as E1 E2. now subst x.
    + injection E as E1 E2. subst y.
      destruct (IH d2 H2 Hc E2) as [-> ->]. now split.
Qed.

Lemma digit_unreserved (c : N) : is_digit c = true -> uri_unreserved c = true.
Proof. unfold uri_unreserved, is_alnum. now intros ->. Qed.

Lemma deepLinkToken_plain (z : Z) (t : jsstring) :
  0 <= z < 100000000 ->
  Forall (fun c => id_safe c = true) t -> (length t <= 8)%nat ->
  deepLinkToken (String_of_Z z) t
  = Some (js "pz_" ++ String_of_Z z ++ js "_t_" ++ t).
Proof.
  intros Hz Ht Hl. unfold deepLinkToken, deepLinkPayload, slice0.
  rewrite (firstn_all2 _ (String_of_Z_length z Hz)), (firstn_all2 _ Hl).
  apply encodeURIComponent_unreserved.
  repeat (constructor; [reflexivity|]).
  apply Forall_app. split.
  - eapply Forall_impl; [|apply (String_of_Z_spec z); lia].
    apply digit_unreserved.
  - repeat (constructor; [reflexivity|]).
    eapply Forall_impl; [|exact Ht]. apply id_safe_unreserved.
Qed.

(** X14 (deep link, ids that fit): for a zone id from 0 to 99999999 and a
    template id of at most eight letters, digits, [_] and [-], the token is
    the plain text [pz_<zone>_t_<template>], the decimal string of the zone
    id reads back as the id, and two such pairs with the same token are the
    same pair: the token identifies the zone and the template. *)
Theorem deep_link_identifies_zone_and_template (z1 z2 : Z) (t1 t2 : jsstring) :
  0 <= z1 < 100000000 -> 0 <= z2 < 100000000 ->
  Forall (fun c => id_safe c = true) t1 -> (length t1 <= 8)%nat ->
  Forall (fun c => id_safe c = true) t2 -> (length t2 <= 8)%nat ->
  deepLinkToken (String_of_Z z1) t1
  = Some (js "pz_" ++ String_of_Z z1 ++ js "_t_" ++ t1)
  /\ digits_value (String_of_Z z1) = z1
  /\ (deepLinkToken (String_of_Z z1) t1 = deepLinkToken (String_of_Z z2) t2 ->
      z1 = z2 /\ t1 = t2).
Proof.
  intros Hz1 Hz2 Ht1 Hl1 Ht2 Hl2.
  destruct (String_of_Z_spec z1 ltac:(lia)) as [Hv1 Hd1].
  destruct (String_of_Z_spec z2 ltac:(lia)) as [Hv2 Hd2].
  split; [now apply deepLinkToken_plain|]. split; [exact Hv1|].
  rewrite !deepLinkToken_plain by assumption. intros [= E].
  apply app_delim_inj with (P := fun c => is_digit c = true) in E;
    [|assumption|assumption|discriminate].
  destruct E as [E1 E2]. injection E2 as E2. split; [|exact E2].
  rewrite <- Hv1, <- Hv2. now rewrite E1.
Qed.

Lemma deep_link_identifies_zone_and_template_witness :
  deepLinkToken (String_of_Z 7) (js "soft_1") = Some (js "pz_7_t_soft_1")
  /\ digits_value (String_of_Z 7) = 7.
Proof.
  pose proof (deep_link_identifies_zone_and_template 7 7 (js "soft_1") (js "soft_1")
                ltac:(lia) ltac:(lia)
                ltac:(repeat constructor) ltac:(simpl; lia)
                ltac:(repeat constructor) ltac:(simpl; lia)) as H.
  split; [exact (proj1 H)|exact (proj1 (proj2 H))].
Defined.

(** Ids that agree on their first eight code units give the same token, so
    the bounds on the two ids cannot be dropped. *)
Lemma deep_link_clipped_ids_collide (z z' t t' : jsstring) :
  slice0 8 z = slice0 8 z' -> slice0 8 t = slice0 8 t' ->
  deepLinkToken z t = deepLinkToken z' t'.
Proof. unfold deepLinkToken, deepLinkPayload. now intros -> ->. Qed.

(* ================================================================== *)
(** * The deep link of the earlier revision *)

Lemma digits_fuel_36 (f : nat) (n : N) (acc : jsstring) :
  Forall word_char acc -> Forall word_char (digits_fuel f 36 n acc).
Proof.
  revert n acc. induction f as [|f IH]; intros n acc Hacc; [exact Hacc|].
  cbn [digits_fuel]. cbv zeta.
  assert (Hc : word_char (digit_char (n mod 36))).
  { pose proof (N.mod_lt n 36 ltac:(lia)) as Hm.
    unfold word_char, digit_char, is_alnum, is_digit, is_upper, is_lower.
    destruct (N.ltb_spec (n mod 36) 10) as [Hlt|Hge].
    - assert (E1 : (48 <=? 48 + n mod 36)%N = true)
        by (apply N.leb_le; apply N.le_add_r).
      assert (E2 : (48 + n mod 36 <=? 57)%N = true) by (apply N.leb_le; lia).
      now rewrite E1, E2.
    - assert (E1 : (97 <=? 87 + n mod 36)%N = true) by (apply N.leb_le; lia).
      assert (E2 : (87 + n mod 36 <=? 122)%N = true) by (apply N.leb_le; lia).
      rewrite E1, E2. simpl. now rewrite !orb_true_r. }
  destruct (n / 36 =? 0)%N; [now constructor|]. apply IH. now constructor.
Qed.

Lemma Forall_skipn_keep {A : Type} (P : A -> Prop) (n : nat) (l : list A) :
  Forall P l -> Forall P (skipn n l).
Proof.
  intros H. revert n. induction H as [|x l Hx Hl IH]; intros [|n]; simpl;
    try constructor; auto.
Qed.

Lemma sanitize_word (s : jsstring) : Forall word_char (Legacy.sanitize s).
Proof.
  unfold Legacy.sanitize. apply Forall_forall. intros c Hc.
  apply filter_In in Hc. exact (proj2 Hc).
Qed.

Lemma or_t_word (s : jsstring) : Forall word_char s -> Forall word_char (Legacy.or_t s).
Proof.
  intros H. destruct s; [|exact H]. repeat constructor.
Qed.

(** X15 (deep link of the earlier revision): for a zone id made of letters,
    digits and underscores and a clock that is not negative, the payload
    holds only letters, digits and underscores whatever the template id is,
    and never more than 64 characters; nothing is left to encode. *)
Theorem legacy_deep_link_needs_no_encoding (zoneId templateId : jsstring)
    (nowMs : Z) :
  Forall word_char zoneId -> 0 <= nowMs ->
  Forall word_char (Legacy.deepLinkToken zoneId templateId nowMs)
  /\ (length (Legacy.deepLinkToken zoneId templateId nowMs) <= 64)%nat
  /\ encodeURIComponent (Legacy.deepLinkToken zoneId templateId nowMs)
     = Some (Legacy.deepLinkToken zoneId templateId nowMs).
Proof.
  intros Hz Hn.
  assert (Hw : Forall word_char (Legacy.deepLinkToken zoneId templateId nowMs)).
  { unfold Legacy.deepLinkToken. apply Forall_firstn.
    repeat (apply Forall_app; split); try (repeat constructor; fail).
    - exact Hz.
    - apply or_t_word. apply Forall_firstn. apply sanitize_word.
    - unfold slice_last. apply Forall_skipn_keep. unfold Z_to_radix.
      destruct (Z.ltb_spec nowMs 0); [lia|]. apply digits_fuel_36. constructor. }
  split; [exact Hw|]. split; [apply firstn_le_length|].
  apply encodeURIComponent_unreserved. eapply Forall_impl; [|exact Hw].
  intros c Hc. unfold word_char in Hc. unfold uri_unreserved.
  apply orb_prop in Hc. destruct Hc as [Hc|Hc].
  - now rewrite Hc.
  - unfold code_eqb in Hc. rewrite Hc. simpl. now rewrite !orb_true_r.
Qed.

Lemma legacy_deep_link_needs_no_encoding_witness :
  Forall word_char (Legacy.deepLinkToken (js "7") (js "soft-1 !") 1704110400000).
Proof.
  refine (proj1 (legacy_deep_link_needs_no_encoding
                   (js "7") (js "soft-1 !") 1704110400000 _ _)).
  - repeat constructor.
  - lia.
Defined.

(* ================================================================== *)
(** * The template sources *)

Lemma Number_weight_nonzero (w : option Q) : ~ (Number_weight w == 0)%Q.
Proof.
  unfold Number_weight. destruct w as [q|]; [|discriminate].
  destruct (Qeq_bool q 0) eqn:E; [discriminate|].
  now apply Qeq_bool_neq.
Qed.

Lemma truthy_text_String (s : option jsstring) :
  truthy_text s = true -> String_text s <> [].
Proof. destruct s as [[|c s]|]; simpl; discriminate. Qed.

Lemma In_filter_Boolean {A : Type} (x : A) (l : list (option A)) :
  In x (filter_Boolean l) <-> In (Some x) l.
Proof.
  induction l as [|[y|] l IH]; simpl; [tauto| |].
  - rewrite IH. split; intros [H|H]; auto; left; congruence.
  - rewrite IH. split; [auto|]. intros [H|H]; [discriminate|exact H].
Qed.

Lemma In_mapi_from {A B : Type} (f : A -> Z -> B) (i : Z) (xs : list A) (y : B) :
  In y (mapi_from f i xs) -> exists x k, In x xs /\ i <= k /\ y = f x k.
Proof.
  revert i. induction xs as [|x xs IH]; intros i; simpl; [tauto|].
  intros [<-|H].
  - exists x, i. split; [now left|]. split; [lia|reflexivity].
  - destruct (IH _ H) as (x' & k & Hx & Hk & ->).
    exists x', k. split; [now right|]. split; [lia|reflexivity].
Qed.

Lemma In_firstn_In {A : Type} (n : nat) (l : list A) (x : A) :
  In x (firstn n l) -> In x l.
Proof.
  revert l. induction n as [|n IH]; intros [|y l]; simpl; try tauto.
  intros [H|H]; [now left|right; now apply IH].
Qed.

Lemma skip_spaces_head (s : jsstring) :
  match skip_spaces s with c :: _ => is_space c = false | [] => True end.
Proof.
  induction s as [|c s IH]; simpl; [exact I|].
  destruct (is_space c) eqn:E; [exact IH|exact E].
Qed.

Lemma trim_spec (s : jsstring) :
  exists sp1 sp2,
    s = sp1 ++ trim s ++ sp2
    /\ Forall (fun c => is_space c = true) sp1
    /\ Forall (fun c => is_space c = true) sp2
    /\ match trim s with c :: _ => is_space c = false | [] => True end
    /\ match rev (trim s) with c :: _ => is_space c = false | [] => True end.
Proof.
  unfold trim.
  destruct (skip_spaces_spec s) as (sp1 & Hs & Hsp1).
  destruct (skip_spaces_spec (rev (skip_spaces s))) as (sp2 & Hr & Hsp2).
  pose proof (skip_spaces_head s) as Hh.
  pose proof (skip_spaces_head (rev (skip_spaces s))) as Hl.
  set (A := skip_spaces s) in *. set (B := skip_spaces (rev A)) in *.
  assert (HA : A = rev B ++ rev sp2).
  { rewrite <- rev_app_distr, <- Hr. now rewrite rev_involutive. }
  exists sp1, (rev sp2). split; [now rewrite <- HA|]. split; [exact Hsp1|].
  split; [now apply Forall_rev|]. split.
  - rewrite HA in Hh. destruct (rev B); [exact I|exact Hh].
  - now rewrite rev_involutive.
Qed.

Lemma chunk_ids_from (i : Z) (cs : list jsstring) (y : jsstring) :
  In y (map Fetched.id
          (mapi_from (fun body k =>
                        Fetched.mk (js "env_" ++ String_of_Z (k + 1)) (WNum 1) body None)
                     i cs)) ->
  exists k, i <= k /\ y = js "env_" ++ String_of_Z (k + 1).
Proof.
  revert i. induction cs as [|c cs IH]; intros i; simpl; [tauto|].
  intros [<-|H].
  - exists i. split; [lia|reflexivity].
  - destruct (IH _ H) as (k & Hk & ->). exists k. split; [lia|reflexivity].
Qed.

Lemma chunk_ids_NoDup (i : Z) (cs : list jsstring) :
  0 <= i ->
  NoDup (map Fetched.id
           (mapi_from (fun body k =>
                         Fetched.mk (js "env_" ++ String_of_Z (k + 1)) (WNum 1) body None)
                      i cs)).
Proof.
  revert i. induction cs as [|c cs IH]; intros i Hi; simpl; constructor.
  - intros H. apply chunk_ids_from in H. destruct H as (k & Hk & E).
    change (js "env_" ++ String_of_Z (i + 1) = js "env_" ++ String_of_Z (k + 1))
      in E.
    apply app_inv_head in E.
    pose proof (proj1 (String_of_Z_spec (i + 1) ltac:(lia))) as H1.
    pose proof (proj1 (String_of_Z_spec (k + 1) ltac:(lia))) as H2.
    rewrite E in H1. lia.
  - apply IH. lia.
Qed.

Lemma chunk_bodies_from (i : Z) (cs : list jsstring) :
  map Fetched.body
    (mapi_from (fun body k =>
                  Fetched.mk (js "env_" ++ String_of_Z (k + 1)) (WNum 1) body None)
               i cs) = cs.
Proof.
  revert i. induction cs as [|c cs IH]; intros i; simpl; [reflexivity|].
  now rewrite IH.
Qed.

(** X16 (templates from the environment): [PROMO_MESSAGE_TEMPLATES] gives
    at most twenty templates; each body is a piece between [|||] separators
    with the white space around it removed, is not empty and neither starts
    nor ends with white space; the templates keep the order of the pieces
    and their ids [env_1], [env_2], ... are pairwise different. *)
Theorem env_chunks_are_trimmed_pieces (PROMO_MESSAGE_TEMPLATES : jsstring) :
  (length (chunks PROMO_MESSAGE_TEMPLATES) <= 20)%nat
  /\ (forall c, In c (chunks PROMO_MESSAGE_TEMPLATES) ->
        c <> []
        /\ (exists piece sp1 sp2,
              In piece (split_bars PROMO_MESSAGE_TEMPLATES [])
              /\ piece = sp1 ++ c ++ sp2
              /\ Forall (fun x => is_space x = true) sp1
              /\ Forall (fun x => is_space x = true) sp2)
        /\ match c with x :: _ => is_space x = false | [] => True end
        /\ match rev c with x :: _ => is_space x = false | [] => True end)
  /\ map Fetched.body (from_chunks (chunks PROMO_MESSAGE_TEMPLATES))
     = chunks PROMO_MESSAGE_TEMPLATES
  /\ NoDup (map Fetched.id (from_chunks (chunks PROMO_MESSAGE_TEMPLATES))).
Proof.
  split; [apply firstn_le_length|]. split; [|split].
  - intros c Hc. unfold chunks in Hc. apply In_firstn_In in Hc.
    apply filter_In in Hc. destruct Hc as [Hc Hne].
    apply in_map_iff in Hc. destruct Hc as (piece & <- & Hp).
    destruct (trim_spec piece) as (sp1 & sp2 & E & H1 & H2 & H3 & H4).
    split; [destruct (trim piece); [discriminate|discriminate]|].
    split; [exists piece, sp1, sp2; auto|]. split; assumption.
  - apply chunk_bodies_from.
  - apply chunk_ids_NoDup. lia.
Qed.

Lemma from_messages_usable (data : list MessageRow.t) (t : Fetched.t) :
  In t (from_messages data) ->
  Fetched.body t <> []
  /\ exists q, Fetched.weight t = WNum q /\ ~ (q == 0)%Q.
Proof.
  unfold from_messages. intros H. apply in_map_iff in H.
  destruct H as (r & <- & Hr). apply filter_In in Hr. destruct Hr as [_ Hr].
  split; [now apply truthy_text_String|].
  eexists. split; [reflexivity|apply Number_weight_nonzero].
Qed.

Lemma from_templates_usable (data : list TemplateRow.t) (t : Fetched.t) :
  In t (from_templates data) ->
  Fetched.body t <> []
  /\ exists q, Fetched.weight t = WNum q /\ ~ (q == 0)%Q.
Proof.
  unfold from_templates. intros H. apply In_filter_Boolean in H.
  apply in_map_iff in H. destruct H as (r & Hr & _).
  unfold template_of_row in Hr.
  destruct (truthy_text _) eqn:E; [|discriminate]. injection Hr as <-.
  split; [now apply truthy_text_String|].
  eexists. split; [reflexivity|apply Number_weight_nonzero].
Qed.

Lemma from_json_usable (parsed : list EnvItem.t) (t : Fetched.t) :
  In t (from_json parsed) ->
  Fetched.body t <> []
  /\ exists x, In x parsed
               /\ Fetched.weight t = Number_json_weight (EnvItem.weight x).
Proof.
  unfold from_json, mapi. intros H. apply filter_In in H. destruct H as [H Hb].
  split; [destruct (Fetched.body t); [discriminate|discriminate]|].
  apply In_mapi_from in H. destruct H as (x & k & Hx & _ & ->).
  exists x. split; [exact Hx|reflexivity].
Qed.

Lemma from_chunks_usable (PMT : jsstring) (t : Fetched.t) :
  In t (from_chunks (chunks PMT)) ->
  Fetched.body t <> []
  /\ exists q, Fetched.weight t = WNum q /\ ~ (q == 0)%Q.
Proof.
  unfold from_chunks, mapi. intros H.
  apply In_mapi_from in H. destruct H as (c & k & Hc & _ & ->). simpl.
  split; [|exists 1%Q; split; [reflexivity|discriminate]].
  unfold chunks in Hc. apply In_firstn_In in Hc. apply filter_In in Hc.
  destruct Hc as [_ Hc]. destruct c; [discriminate|discriminate].
Qed.

(** X17 ([fetchEnabledTemplates], what it returns): every template it
    returns has a body that is not empty, from whichever source it comes.
    A template that comes from a table of the store, from
    [PROMO_MESSAGE_TEMPLATES] or from the built-in list has a weight that is
    a number other than 0: a stored 0 or [null] reads as 1.  A template that
    comes from the JSON variable has the weight [Number(w || 1)] of its
    element: 1 for a falsy [w], but 0 for a truthy [w] that reads 0, such as
    the text ["0"], and [NaN] for one that reads as no number; the selector
    counts both as 0.  When no query returns rows and the JSON variable
    gives no array, the list is not empty: the pieces of
    [PROMO_MESSAGE_TEMPLATES] if there is one, the three built-in templates
    otherwise. *)
Theorem fetched_templates_are_usable (s : template_sources) :
  (forall t, In t (fetchEnabledTemplates s) -> Fetched.body t <> [])
  /\ (has_rows (promo_messages s) <> None
      \/ has_rows (promo_templates s) <> None
      \/ has_rows (PROMO_MESSAGE_TEMPLATES_JSON s) = None ->
      forall t, In t (fetchEnabledTemplates s) ->
                exists q, Fetched.weight t = WNum q /\ ~ (q == 0)%Q)
  /\ (has_rows (promo_messages s) = None ->
      has_rows (promo_templates s) = None ->
      forall parsed, has_rows (PROMO_MESSAGE_TEMPLATES_JSON s) = Some parsed ->
      forall t, In t (fetchEnabledTemplates s) ->
                exists x, In x parsed
                          /\ Fetched.weight t
                             = Number_json_weight (EnvItem.weight x))
  /\ (Number_json_weight JFalsy = WNum 1
      /\ Number_json_weight (JTruthy (Some 0%Q)) = WNum 0
      /\ Number_json_weight (JTruthy None) = WNaN
      /\ (clamp_weight (WNum 0) == 0)%Q /\ (clamp_weight WNaN == 0)%Q)
  /\ (has_rows (promo_messages s) = None ->
      has_rows (promo_templates s) = None ->
      has_rows (PROMO_MESSAGE_TEMPLATES_JSON s) = None ->
      fetchEnabledTemplates s <> []
      /\ (chunks (PROMO_MESSAGE_TEMPLATES s) = [] ->
          fetchEnabledTemplates s = hard_fallback)
      /\ (chunks (PROMO_MESSAGE_TEMPLATES s) <> [] ->
          fetchEnabledTemplates s = from_chunks (chunks (PROMO_MESSAGE_TEMPLATES s)))).
Proof.
  assert (Hhard : forall t, In t hard_fallback ->
            Fetched.body t <> []
            /\ exists q, Fetched.weight t = WNum q /\ ~ (q == 0)%Q).
  { intros t [<-|[<-|[<-|[]]]]; (split; [discriminate|]);
      eexists; (split; [reflexivity|discriminate]). }
  split; [|split; [|split; [|split]]].
  - intros t. unfold fetchEnabledTemplates.
    destruct (has_rows (promo_messages s)); [apply from_messages_usable|].
    destruct (has_rows (promo_templates s)); [apply from_templates_usable|].
    destruct (has_rows (PROMO_MESSAGE_TEMPLATES_JSON s)); [apply from_json_usable|].
    destruct (chunks (PROMO_MESSAGE_TEMPLATES s)) eqn:E.
    + apply Hhard.
    + rewrite <- E. apply from_chunks_usable.
  - intros Hs t. unfold fetchEnabledTemplates.
    destruct (has_rows (promo_messages s)); [apply from_messages_usable|].
    destruct (has_rows (promo_templates s)); [apply from_templates_usable|].
    destruct Hs as [Hs|[Hs|Hs]]; try congruence. rewrite Hs.
    destruct (chunks (PROMO_MESSAGE_TEMPLATES s)) eqn:E.
    + apply Hhard.
    + rewrite <- E. apply from_chunks_usable.
  - intros H1 H2 parsed H3 t. unfold fetchEnabledTemplates. rewrite H1, H2, H3.
    apply from_json_usable.
  - repeat split.
  - intros H1 H2 H3. unfold fetchEnabledTemplates. rewrite H1, H2, H3.
    destruct (chunks (PROMO_MESSAGE_TEMPLATES s)) as [|c cs].
    + split; [discriminate|]. split; [reflexivity|congruence].
    + split; [discriminate|]. split; [discriminate|reflexivity].
Qed.

Lemma fetched_templates_are_usable_witness :
  map Fetched.weight (fetchEnabledTemplates ex_sources_json) = [WNum 0; WNum 1]
  /\ exists x,
       In x [EnvItem.mk (Some (js "a")) (JTruthy (Some 0%Q))
                        (Some (js "first {LINK}")) None;
             EnvItem.mk (Some (js "b")) JFalsy (Some (js "second {LINK}")) None]
       /\ WNum 0 = Number_json_weight (EnvItem.weight x).
Proof.
  split; [reflexivity|].
  refine (proj1 (proj2 (proj2 (fetched_templates_are_usable ex_sources_json)))
            eq_refl eq_refl _ eq_refl
            (Fetched.mk (js "a") (WNum 0) (js "first {LINK}") None) _).
  left. reflexivity.
Defined.

Lemma filter_nil_forallb {A : Type} (p : A -> bool) (l : list A) :
  filter p l = [] <-> forallb (fun x => negb (p x)) l = true.
Proof.
  induction l as [|x l IH]; simpl; [tauto|].
  destruct (p x); simpl; [split; discriminate|exact IH].
Qed.

Lemma map_nil_iff {A B : Type} (f : A -> B) (l : list A) : map f l = [] <-> l = [].
Proof. destruct l; simpl; split; congruence. Qed.

Lemma filter_Boolean_map_nil {A B : Type} (g : A -> option B) (l : list A) :
  filter_Boolean (map g l) = []
  <-> forallb (fun x => match g x with Some _ => false | None => true end) l = true.
Proof.
  induction l as [|x l IH]; simpl; [tauto|].
  destruct (g x); simpl; [split; discriminate|exact IH].
Qed.

Lemma filter_mapi_nil {A B : Type} (p : B -> bool) (q : A -> bool)
    (f : A -> Z -> B) (i : Z) (l : list A) :
  (forall x k, p (f x k) = q x) ->
  filter p (mapi_from f i l) = [] <-> forallb (fun x => negb (q x)) l = true.
Proof.
  intros Hpq. revert i. induction l as [|x l IH]; intros i; simpl; [tauto|].
  rewrite Hpq. destruct (q x); simpl; [split; discriminate|apply IH].
Qed.

Lemma forallb_ext_in {A : Type} (p q : A -> bool) (l : list A) :
  (forall x, In x l -> p x = q x) -> forallb p l = forallb q l.
Proof.
  induction l as [|x l IH]; intros H; simpl; [reflexivity|].
  rewrite (H x (or_introl eq_refl)), IH; [reflexivity|].
  intros y Hy. apply H. now right.
Qed.

(** X18 ([fetchEnabledTemplates], precedence): the first source that has
    rows decides, and there is no falling back behind it.  The function
    returns no template exactly when [promo_messages] has rows and none has
    content; or it has none, [promo_templates] has rows and each is disabled
    or has an empty or missing first text; or both have none, the JSON array
    has elements and none has a body or content. *)
Theorem no_fallback_behind_a_source_with_rows (s : template_sources) :
  fetchEnabledTemplates s = []
  <-> match has_rows (promo_messages s) with
      | Some data =>
          forallb (fun r => negb (truthy_text (MessageRow.content r))) data = true
      | None =>
          match has_rows (promo_templates s) with
          | Some data =>
              forallb (fun r => negb (enabled_or_absent (TemplateRow.is_enabled r)
                                      && truthy_text (row_text r))) data = true
          | None =>
              match has_rows (PROMO_MESSAGE_TEMPLATES_JSON s) with
              | Some parsed =>
                  forallb (fun t => negb (truthy_text (EnvItem.body t)
                                          || truthy_text (EnvItem.content t)))
                          parsed = true
              | None => False
              end
          end
      end.
Proof.
  unfold fetchEnabledTemplates.
  destruct (has_rows (promo_messages s)) as [data|].
  { unfold from_messages. rewrite map_nil_iff. apply filter_nil_forallb. }
  destruct (has_rows (promo_templates s)) as [data|].
  { unfold from_templates. rewrite filter_Boolean_map_nil.
    induction data as [|r data IH]; simpl; [tauto|].
    destruct (enabled_or_absent (TemplateRow.is_enabled r)); simpl; [|exact IH].
    unfold template_of_row at 1. fold (row_text r).
    destruct (truthy_text (row_text r)); simpl; [split; discriminate|exact IH]. }
  destruct (has_rows (PROMO_MESSAGE_TEMPLATES_JSON s)) as [parsed|].
  { unfold from_json, mapi. apply filter_mapi_nil. intros x k. simpl.
    unfold or_text.
    destruct (truthy_text (EnvItem.body x)) eqn:Eb; simpl.
    - rewrite Eb. destruct (EnvItem.body x) as [[|c b]|]; try discriminate.
      reflexivity.
    - destruct (truthy_text (EnvItem.content x)) eqn:Ec; simpl.
      + destruct (EnvItem.content x) as [[|c b]|]; try discriminate. reflexivity.
      + reflexivity. }
  destruct (chunks (PROMO_MESSAGE_TEMPLATES s)); split; try discriminate; tauto.
Qed.

Lemma no_fallback_behind_messages (s : template_sources)
    (data : list MessageRow.t) :
  has_rows (promo_messages s) = Some data ->
  (forall r, In r data -> truthy_text (MessageRow.content r) = false) ->
  fetchEnabledTemplates s = [].
Proof.
  intros Hd Hall. unfold fetchEnabledTemplates. rewrite Hd.
  unfold from_messages. apply map_nil_iff. apply filter_nil_forallb.
  apply forallb_forall. intros r Hr. now rewrite (Hall r Hr).
Qed.

Lemma no_template_no_send (e : environment) (w : world) (st : state) :
  templates w = [] ->
  fst (promoCycle e w st) = st /\ sends (snd (promoCycle e w st)) = [].
Proof.
  intros Ht.
  destruct (promoCycle_spec e w st) as [[->| ->]|(zone & tpl & link & Hr & _)];
    [now split|now split|exfalso].
  destruct Hr as (_ & _ & _ & _ & _ & _ & _ & _ & Hp & _).
  apply pickWeighted_In in Hp. rewrite filter_Boolean_Some, Ht in Hp.
  exact Hp.
Qed.

(** X19 (cycle, a first source without content): when [promo_messages]
    returns rows and none of them has content, a cycle that reads its
    templates through [fetchEnabledTemplates] calls [sendMessage] for no
    zone and changes nothing, whatever [promo_templates], the environment
    and the built-in templates would offer. *)
Theorem rows_without_content_stop_the_cycle (e : environment) (w : world)
    (st : state) (s : template_sources) (data : list MessageRow.t) :
  has_rows (promo_messages s) = Some data ->
  (forall r, In r data -> truthy_text (MessageRow.content r) = false) ->
  templates w = map to_template (fetchEnabledTemplates s) ->
  fst (promoCycle e w st) = st /\ sends (snd (promoCycle e w st)) = [].
Proof.
  intros Hd Hall Ht. apply no_template_no_send. rewrite Ht.
  apply map_nil_iff. apply no_fallback_behind_messages with (data := data);
    assumption.
Qed.

Lemma rows_without_content_stop_the_cycle_witness :
  fst (promoCycle ex_env ex_world_blank ex_state) = ex_state
  /\ sends (snd (promoCycle ex_env ex_world_blank ex_state)) = [].
Proof.
  apply (rows_without_content_stop_the_cycle ex_env ex_world_blank ex_state
           ex_sources_blank
           [MessageRow.mk 1 (Some []) (Some (3 # 1)); MessageRow.mk 2 None None]).
  - reflexivity.
  - intros r [<-|[<-|[]]]; reflexivity.
  - reflexivity.
Defined.

(* ================================================================== *)
(** * The message text *)

Lemma GetSubstitution_app_plain (m b a l1 r : jsstring) :
  no_unit 36 l1 ->
  GetSubstitution m b a (l1 ++ r) = l1 ++ GetSubstitution m b a r.
Proof.
  induction 1 as [|c l1 Hc Hl IH]; [reflexivity|].
  cbn [app GetSubstitution]. unfold code_eqb at 1.
  destruct (N.eqb_spec c 36) as [E|_]; [contradiction|]. now rewrite IH.
Qed.

Lemma GetSubstitution_plain (m b a link : jsstring) :
  no_unit 36 link -> GetSubstitution m b a link = link.
Proof.
  intros H. rewrite <- (app_nil_r link) at 1.
  rewrite GetSubstitution_app_plain by exact H. cbn. apply app_nil_r.
Qed.

Lemma replace_LINK_before (link : jsstring) :
  no_unit 36 link ->
  forall s before before' k,
    replace_LINK link before k s = replace_LINK link before' k s.
Proof.
  intros Hl. induction s as [|c s IH]; intros before before' k; [reflexivity|].
  cbn [replace_LINK]. destruct k as [|k]; [|apply IH].
  destruct (starts_with_placeholder (c :: s)).
  - rewrite !GetSubstitution_plain by exact Hl. f_equal. apply IH.
  - f_equal. apply IH.
Qed.

Lemma replace_LINK_skip (link a b before : jsstring) :
  replace_LINK link before (length a) (a ++ b)
  = replace_LINK link (before ++ a) 0 b.
Proof.
  revert before. induction a as [|c a IH]; intros before.
  - now rewrite app_nil_r.
  - cbn [length app replace_LINK]. rewrite IH. now rewrite <- app_assoc.
Qed.

Lemma starts_with_placeholder_brace (c : N) (s : jsstring) :
  c <> 123%N -> starts_with_placeholder (c :: s) = false.
Proof.
  intros Hc. unfold starts_with_placeholder.
  change (js "{LINK}") with (123%N :: js "LINK}").
  change (js "{link}") with (123%N :: js "link}").
  cbn [is_prefix]. unfold code_eqb.
  assert (E : (123 =? c)%N = false) by (apply N.eqb_neq; congruence).
  now rewrite E.
Qed.

Lemma replace_LINK_no_brace (link a s before : jsstring) :
  no_unit 123 a ->
  replace_LINK link before 0 (a ++ s) = a ++ replace_LINK link (before ++ a) 0 s.
Proof.
  intros H. revert before. induction H as [|c a Hc Ha IH]; intros before.
  - now rewrite app_nil_r.
  - cbn [app replace_LINK].
    rewrite (starts_with_placeholder_brace c (a ++ s) Hc), IH.
    now rewrite <- app_assoc.
Qed.

Lemma replace_LINK_placeholder (link p b before : jsstring) :
  placeholder p ->
  replace_LINK link before 0 (p ++ b)
  = GetSubstitution p before b link ++ replace_LINK link (before ++ p) 0 b.
Proof.
  intros [-> | ->].
  - change (js "{LINK}" ++ b) with (123%N :: ([76; 73; 78; 75; 125]%N ++ b)).
    cbn [replace_LINK].
    change (starts_with_placeholder (123%N :: [76; 73; 78; 75; 125]%N ++ b))
      with true. cbv iota.
    change (firstn 6 (123%N :: [76; 73; 78; 75; 125]%N ++ b)) with (js "{LINK}").
    change (skipn 6 (123%N :: [76; 73; 78; 75; 125]%N ++ b)) with b.
    rewrite (replace_LINK_skip link [76; 73; 78; 75; 125]%N b).
    now rewrite <- app_assoc.
  - change (js "{link}" ++ b) with (123%N :: ([108; 105; 110; 107; 125]%N ++ b)).
    cbn [replace_LINK].
    change (starts_with_placeholder (123%N :: [108; 105; 110; 107; 125]%N ++ b))
      with true. cbv iota.
    change (firstn 6 (123%N :: [108; 105; 110; 107; 125]%N ++ b)) with (js "{link}").
    change (skipn 6 (123%N :: [108; 105; 110; 107; 125]%N ++ b)) with b.
    rewrite (replace_LINK_skip link [108; 105; 110; 107; 125]%N b).
    now rewrite <- app_assoc.
Qed.

Lemma renderTemplate_at (body a p b link : jsstring) :
  trim body = a ++ p ++ b -> placeholder p -> no_unit 123 a ->
  renderTemplate body link
  = a ++ GetSubstitution p a b link ++ replace_LINK link (a ++ p) 0 b.
Proof.
  intros Ht Hp Ha. unfold renderTemplate. rewrite Ht.
  rewrite replace_LINK_no_brace by exact Ha.
  now rewrite replace_LINK_placeholder by exact Hp.
Qed.

(** X20 ([renderTemplate], a link without a dollar sign): for a link that
    holds no dollar sign, a placeholder of either spelling that follows text
    without an opening brace is replaced by the link as it is, and the rest
    of the body is rendered in the same way; a body without an opening
    brace is only trimmed, so the link then appears in the button alone. *)
Theorem renderTemplate_inserts_the_link (body a p b link : jsstring) :
  trim body = a ++ p ++ b -> placeholder p -> no_unit 123 a ->
  no_unit 36 link ->
  renderTemplate body link = a ++ link ++ replace_LINK link [] 0 b
  /\ (no_unit 123 b -> renderTemplate body link = a ++ link ++ b)
  /\ renderTemplate a link = trim a.
Proof.
  intros Ht Hp Ha Hl.
  assert (H1 : renderTemplate body link = a ++ link ++ replace_LINK link [] 0 b).
  { rewrite (renderTemplate_at body a p b link Ht Hp Ha).
    rewrite GetSubstitution_plain by exact Hl.
    now rewrite (replace_LINK_before link Hl b (a ++ p) [] 0). }
  split; [exact H1|]. split.
  - intros Hb. rewrite H1. rewrite <- (app_nil_r b) at 1.
    rewrite replace_LINK_no_brace by exact Hb. cbn. now rewrite app_nil_r.
  - unfold renderTemplate.
    assert (Hta : no_unit 123 (trim a)).
    { unfold trim, no_unit. apply Forall_rev.
      destruct (skip_spaces_spec (rev (skip_spaces a))) as (sp & E & _).
      assert (Hr : Forall (fun x => x <> 123%N) (rev (skip_spaces a))).
      { apply Forall_rev. destruct (skip_spaces_spec a) as (sp' & E' & _).
        unfold no_unit in Ha. rewrite E' in Ha.
        apply Forall_app in Ha. exact (proj2 Ha). }
      rewrite E in Hr. apply Forall_app in Hr. exact (proj2 Hr). }
    rewrite <- (app_nil_r (trim a)) at 1.
    rewrite replace_LINK_no_brace by exact Hta. cbn. now rewrite app_nil_r.
Qed.

Lemma renderTemplate_inserts_the_link_witness :
  renderTemplate (js "  Tap to join: {LINK} now ") (js "https://t.me/jigcoinbot?start=pz_7_t_soft_1")
  = js "Tap to join: " ++ js "https://t.me/jigcoinbot?start=pz_7_t_soft_1"
    ++ js " now".
Proof.
  refine (proj1 (proj2 (renderTemplate_inserts_the_link
                          (js "  Tap to join: {LINK} now ") (js "Tap to join: ")
                          (js "{LINK}") (js " now")
                          (js "https://t.me/jigcoinbot?start=pz_7_t_soft_1")
                          _ _ _ _)) _).
  - reflexivity.
  - left. reflexivity.
  - repeat (constructor; [discriminate|]). constructor.
  - repeat (constructor; [discriminate|]). constructor.
  - repeat (constructor; [discriminate|]). constructor.
Defined.

(** X21 ([renderTemplate], a dollar sign in the link): the link is used
    as a replacement pattern.  Where the link holds [$&] the text shows the
    placeholder itself, and where it holds [$$] a single dollar sign, so the
    address in the text is not the address of the button. *)
Theorem dollar_in_the_link_is_a_pattern (body a p b l1 l2 : jsstring) :
  trim body = a ++ p ++ b -> placeholder p ->
  no_unit 123 a -> no_unit 123 b -> no_unit 36 l1 -> no_unit 36 l2 ->
  renderTemplate body (l1 ++ js "$&" ++ l2) = a ++ (l1 ++ p ++ l2) ++ b
  /\ renderTemplate body (l1 ++ js "$$" ++ l2) = a ++ (l1 ++ js "$" ++ l2) ++ b.
Proof.
  intros Ht Hp Ha Hb H1 H2.
  assert (Hr : forall link, replace_LINK link (a ++ p) 0 b = b).
  { intros link. rewrite <- (app_nil_r b) at 1.
    rewrite replace_LINK_no_brace by exact Hb. cbn. now rewrite app_nil_r. }
  split.
  - rewrite (renderTemplate_at body a p b _ Ht Hp Ha), Hr.
    rewrite GetSubstitution_app_plain by exact H1.
    change (js "$&" ++ l2) with (36%N :: 38%N :: l2). cbn [GetSubstitution].
    change (code_eqb 36 36) with true. change (code_eqb 38 36) with false.
    change (code_eqb 38 38) with true. cbv iota.
    now rewrite (GetSubstitution_plain p a b l2 H2).
  - rewrite (renderTemplate_at body a p b _ Ht Hp Ha), Hr.
    rewrite GetSubstitution_app_plain by exact H1.
    change (js "$$" ++ l2) with (36%N :: 36%N :: l2). cbn [GetSubstitution].
    change (code_eqb 36 36) with true. cbv iota.
    now rewrite (GetSubstitution_plain p a b l2 H2).
Qed.

Lemma dollar_in_the_link_is_a_pattern_witness :
  renderTemplate (js "Join {LINK} today") (js "https://x.io/?a=1$&start=")
  = js "Join https://x.io/?a=1{LINK}start= today".
Proof.
  refine (proj1 (dollar_in_the_link_is_a_pattern
                   (js "Join {LINK} today") (js "Join ") (js "{LINK}") (js " today")
                   (js "https://x.io/?a=1") (js "start=") _ _ _ _ _ _)).
  - reflexivity.
  - left. reflexivity.
  - repeat (constructor; [discriminate|]). constructor.
  - repeat (constructor; [discriminate|]). constructor.
  - repeat (constructor; [discriminate|]). constructor.
  - repeat (constructor; [discriminate|]). constructor.
Defined.

Lemma uri_char_no_dollar (t : jsstring) : Forall uri_char t -> no_unit 36 t.
Proof.
  intros H. eapply Forall_impl; [|exact H]. intros c [Hc|Hc] E; subst c;
    discriminate.
Qed.

(** X22 ([buildDeepLink] into [renderTemplate]): with no
    [PROMO_LINK_BASE] and a bot user name without a dollar sign, the link
    built for any zone and template holds no dollar sign; so a placeholder
    that follows text without an opening brace is replaced by exactly the
    link the button carries. *)
Theorem default_link_is_rendered_as_it_is (MAIN_BOT_USERNAME zoneId templateId
    link body a p b : jsstring) :
  Forall is_unit zoneId -> Forall is_unit templateId ->
  no_unit 36 MAIN_BOT_USERNAME ->
  buildDeepLink [] MAIN_BOT_USERNAME zoneId templateId = Some link ->
  trim body = a ++ p ++ b -> placeholder p -> no_unit 123 a ->
  no_unit 36 link
  /\ renderTemplate body link = a ++ link ++ replace_LINK link [] 0 b.
Proof.
  intros Hz Ht Hu Hb Hbody Hp Ha.
  assert (Hl : no_unit 36 link).
  { unfold buildDeepLink, linkBase in Hb.
    destruct (deepLinkToken zoneId templateId) as [tok|] eqn:Etok;
      [|discriminate].
    injection Hb as <-.
    rewrite deepLinkToken_parts in Etok.
    destruct (encodeURIComponent (slice0 8 zoneId)) as [z|] eqn:Ez;
      [|discriminate].
    destruct (encodeURIComponent (slice0 8 templateId)) as [t|] eqn:Et;
      [|discriminate].
    injection Etok as <-.
    pose proof (uri_char_no_dollar z
                  (proj1 (encodeURIComponent_chars _ _
                            (Forall_firstn _ _ _ Hz) Ez))) as Hz'.
    pose proof (uri_char_no_dollar t
                  (proj1 (encodeURIComponent_chars _ _
                            (Forall_firstn _ _ _ Ht) Et))) as Ht'.
    unfold no_unit in *.
    repeat first [ assumption
                 | apply Forall_nil
                 | apply Forall_cons; [discriminate|]
                 | apply Forall_app; split ]. }
  split; [exact Hl|].
  rewrite (renderTemplate_at body a p b link Hbody Hp Ha).
  rewrite GetSubstitution_plain by exact Hl.
  now rewrite (replace_LINK_before link Hl b (a ++ p) [] 0).
Qed.

Lemma default_link_is_rendered_as_it_is_witness :
  renderTemplate (js "Tap {link}") (js "https://t.me/jigcoinbot?start=pz_7_t_soft_1")
  = js "Tap " ++ js "https://t.me/jigcoinbot?start=pz_7_t_soft_1"
    ++ replace_LINK (js "https://t.me/jigcoinbot?start=pz_7_t_soft_1") [] 0 [].
Proof.
  refine (proj2 (default_link_is_rendered_as_it_is
                   (js "jigcoinbot") (js "7") (js "soft_1")
                   (js "https://t.me/jigcoinbot?start=pz_7_t_soft_1")
                   (js "Tap {link}") (js "Tap ") (js "{link}") []
                   _ _ _ _ _ _ _)).
  - repeat constructor.
  - repeat constructor.
  - repeat (constructor; [discriminate|]). constructor.
  - reflexivity.
  - reflexivity.
  - right. reflexivity.
  - repeat (constructor; [discriminate|]). constructor.
Defined.

(* ================================================================== *)
(** * A cycle whose gates are open *)

Lemma pickWeighted_some {A : Type} (weight_of : A -> jsweight)
    (items : list (option A)) (u : Q) :
  filter_Boolean items <> [] -> (0 <= u)%Q -> (u < 1)%Q ->
  exists it, pickWeighted weight_of items u = Some it.
Proof.
  intros Hne H0 H1.
  destruct (Qlt_le_dec 0 (sumQ (map (fun it => clamp_weight (weight_of it))
                                    (filter_Boolean items)))) as [Hpos|Hz].
  - destruct (pickWeighted_positive_total weight_of items u Hpos H1) as (it & H & _).
    now exists it.
  - rewrite (pickWeighted_zero_total weight_of items u Hne Hz).
    assert (Hlen : (0 < length (filter_Boolean items))%nat).
    { destruct (filter_Boolean items); [congruence|simpl; lia]. }
    destruct (floor_index_bounds u _ H0 H1 Hlen) as (Hi & _).
    destruct (nth_error (filter_Boolean items)
                        (floor_index u (length (filter_Boolean items)))) as [it|] eqn:E.
    + now exists it.
    + apply nth_error_None in E. lia.
Qed.

Lemma String_of_Z_unreserved (z : Z) :
  Forall (fun c => uri_unreserved c = true) (String_of_Z z).
Proof.
  unfold String_of_Z, Z_to_radix.
  assert (H : forall n, Forall (fun c => uri_unreserved c = true) (to_radix 10 n)).
  { intros n. unfold to_radix. eapply Forall_impl; [apply digit_unreserved|].
    apply digits_fuel_digits. constructor. }
  destruct (z <? 0); [constructor; [reflexivity|]|]; apply H.
Qed.


